(** * lapalma24-mcp: the MCP gateway of [src/index-http.ts] and [src/index.ts]

    A shallow embedding of the two Express servers of the repository:
    - [index-http.ts]: MCP over plain HTTP, one JSON-RPC message per POST;
    - [index.ts] in [sse] mode: a GET opens an event stream registered in
      the [sessions] map, and POSTs to [/message] inject JSON-RPC messages
      whose answers are written on the stream.

    Handlers are written in a state-and-exception monad over the process
    state (session map, interval timers, open streams) and a log of the
    calls made to the rental backend. The backend, the JavaScript engine's
    own error texts and the process environment are the fields of a
    [Platform]. Modelled are the MCP endpoints, [POST /] and
    [GET /sse] with [POST /message], the tool runner they share and the
    REST helper [POST /tools/:toolName]; the information endpoints are
    not. Strings hold UTF-8. *)

From Stdlib Require Import Ascii String ZArith List.
From stdpp Require Import gmap strings list pretty.

Set Warnings "-register-all,-clear-no-such-hyp".

Open Scope string_scope.

(** ** JavaScript values, as the handlers see them *)

Module Js.

(** A decoded JSON document, plus [undefined]. Numbers are the integers,
    which the engine prints in full up to [max_safe_integer]. An object
    lists its properties in the order the engine enumerates them, the one
    [Object.keys] and [JSON.stringify] observe: keys that are array
    indices first, ascending, then the others as they were inserted. *)
Inductive value : Type :=
| VUndefined
| VNull
| VBool (b : bool)
| VNum (z : Z)
| VStr (s : string)
| VArr (items : list value)
| VObj (fields : list (string * value)).

Definition object : Type := list (string * value).

(** [o[k]] on an object: the binding of [k], or [undefined]; a parsed
    document binds a key once. *)
Fixpoint prop (o : object) (k : string) : value :=
  match o with
  | [] => VUndefined
  | (k', v) :: rest => if String.eqb k' k then v else prop rest k
  end.

(** [v[k]] on a value that is neither [null] nor [undefined]: only
    objects carry the keys the handlers read. *)
Definition member (v : value) (k : string) : value :=
  match v with
  | VObj o => prop o k
  | _ => VUndefined
  end.

(** ToBoolean. *)
Definition truthy (v : value) : bool :=
  match v with
  | VUndefined | VNull => false
  | VBool b => b
  | VNum z => negb (z =? 0)%Z
  | VStr s => negb (String.eqb s "")
  | VArr _ | VObj _ => true
  end.

Definition nullish (v : value) : bool :=
  match v with
  | VUndefined | VNull => true
  | _ => false
  end.

(** [v === 'lit'] for a string literal. *)
Definition is_str (v : value) (lit : string) : bool :=
  match v with
  | VStr s => String.eqb s lit
  | _ => false
  end.

Definition join (sep : string) (parts : list string) : string :=
  match parts with
  | [] => ""
  | p :: ps => fold_left (fun acc q => acc +:+ sep +:+ q) ps p
  end.

(** The text [String(v)] and a template literal's [${v}] produce when the
    conversion returns: see [convertible] for when it does, and [plain]
    for the numbers printed here as the engine prints them. *)
Fixpoint to_string (v : value) : string :=
  match v with
  | VUndefined => "undefined"
  | VNull => "null"
  | VBool true => "true"
  | VBool false => "false"
  | VNum z => pretty z
  | VStr s => s
  | VArr items =>
      join ","
        ((fix each (l : list value) : list string :=
            match l with
            | [] => []
            | x :: r => (if nullish x then "" else to_string x) :: each r
            end) items)
  | VObj _ => "[object Object]"
  end.

(** [String(v)] returns exactly on these values. On an object it calls
    [toString], then [valueOf]: a decoded document holds no function, so
    an own key [toString] hides [Object.prototype.toString], the
    inherited [valueOf] gives the object back, and the conversion throws
    a [TypeError]. On an array it joins the elements, skipping [null] and
    [undefined] and converting the others. *)
Fixpoint convertible (v : value) : bool :=
  match v with
  | VArr items =>
      (fix each (l : list value) : bool :=
         match l with
         | [] => true
         | x :: r => (nullish x || convertible x) && each r
         end) items
  | VObj fields => negb (existsb (fun kv => String.eqb (fst kv) "toString") fields)
  | _ => true
  end.

(** [Number.MAX_SAFE_INTEGER]. *)
Definition max_safe_integer : Z := 9007199254740991.

(** The values on which [to_string] is the engine's text: [convertible],
    and every number printed is a safe integer (from 1e21 on the engine
    prints an exponent). *)
Fixpoint plain (v : value) : bool :=
  match v with
  | VNum z => (Z.abs z <=? max_safe_integer)%Z
  | VArr items =>
      (fix each (l : list value) : bool :=
         match l with
         | [] => true
         | x :: r => (nullish x || plain x) && each r
         end) items
  | VObj fields => negb (existsb (fun kv => String.eqb (fst kv) "toString") fields)
  | _ => true
  end.

(** *** JSON.stringify *)

Definition dquote : ascii := ascii_of_nat 34.
Definition backslash : ascii := ascii_of_nat 92.
Definition newline : string := String (ascii_of_nat 10) "".

Definition hex_digit (n : nat) : ascii :=
  if (n <? 10)%nat then ascii_of_nat (48 + n) else ascii_of_nat (87 + n).

Definition escape_char (c : ascii) : string :=
  let n := nat_of_ascii c in
  let esc (x : string) := String backslash x in
  if (n =? 34)%nat then esc (String dquote "")
  else if (n =? 92)%nat then esc (String backslash "")
  else if (n =? 8)%nat then esc "b"
  else if (n =? 12)%nat then esc "f"
  else if (n =? 10)%nat then esc "n"
  else if (n =? 13)%nat then esc "r"
  else if (n =? 9)%nat then esc "t"
  else if (n <? 32)%nat then
    esc ("u00" +:+ String (hex_digit (n / 16)) (String (hex_digit (n mod 16)) ""))
  else String c "".

Fixpoint escape (s : string) : string :=
  match s with
  | EmptyString => ""
  | String c r => escape_char c +:+ escape r
  end.

(** QuoteJSONString. *)
Definition quote (s : string) : string :=
  String dquote (escape s +:+ String dquote "").

(** The bracketing step shared by SerializeJSONArray and
    SerializeJSONObject. *)
Definition bracket (l r gap stepback indent : string) (parts : list string) : string :=
  match parts with
  | [] => l +:+ r
  | _ =>
      if String.eqb gap "" then l +:+ join "," parts +:+ r
      else l +:+ newline +:+ indent
             +:+ join ("," +:+ newline +:+ indent) parts
             +:+ newline +:+ stepback +:+ r
  end.

(** SerializeJSONProperty: [None] is [undefined]. *)
Fixpoint serialize (gap stepback : string) (v : value) : option string :=
  let indent := stepback +:+ gap in
  match v with
  | VUndefined => None
  | VNull => Some "null"
  | VBool true => Some "true"
  | VBool false => Some "false"
  | VNum z => Some (pretty z)
  | VStr s => Some (quote s)
  | VArr items =>
      Some (bracket "[" "]" gap stepback indent
        ((fix each (l : list value) : list string :=
            match l with
            | [] => []
            | x :: r => default "null" (serialize gap indent x) :: each r
            end) items))
  | VObj fields =>
      Some (bracket "{" "}" gap stepback indent
        ((fix each (l : list (string * value)) : list string :=
            match l with
            | [] => []
            | (k, x) :: r =>
                match serialize gap indent x with
                | Some sx =>
                    (quote k +:+ ":" +:+ (if String.eqb gap "" then "" else " ") +:+ sx)
                      :: each r
                | None => each r
                end
            end) fields))
  end.

(** [JSON.stringify(v)] and [JSON.stringify(v, null, 2)]; the result is
    a JavaScript value because [stringify(undefined)] is [undefined]. *)
Definition stringify (v : value) : value :=
  match serialize "" "" v with Some s => VStr s | None => VUndefined end.

Definition stringify_pretty (v : value) : value :=
  match serialize "  " "" v with Some s => VStr s | None => VUndefined end.

(** An [Error] object: its [name] and [message]. *)
Record error : Type := Error_ { name : string; message : string }.

Definition new_Error (msg : string) : error := Error_ "Error" msg.
Definition new_TypeError (msg : string) : error := Error_ "TypeError" msg.

(** Error.prototype.toString. *)
Definition error_toString (e : error) : string :=
  if String.eqb (name e) "" then message e
  else if String.eqb (message e) "" then name e
  else name e +:+ ": " +:+ message e.

End Js.

Import Js.

(** ** The platform: backend, engine, environment *)

Inductive verb : Type := GET | POST.

(** What [apiCall] asks for: [req_url] is the text
    [`${API_BASE_URL}${endpoint}`] from which [new URL] builds the
    address, [req_query] the pairs appended to its [searchParams], in
    order, [req_method] and [req_body] the [requestInit]. Parsing the
    text and encoding the pairs is left to the engine. *)
Record api_request : Type := ApiRequest {
  req_url : string;
  req_query : list (string * string);
  req_method : verb;
  req_body : option string
}.

(** What the backend does with it: [fetch] rejects, or a response arrives
    whose [json()] either parses or throws. *)
Inductive outcome : Type :=
| FetchRejects (e : error)
| Responds (status : Z) (statusText : string) (body : error + value).

(** The places where the engine itself throws a [TypeError]:
    destructuring [property] out of [source], which is [null] or
    [undefined]; [Object.keys] of such a value; calling a method a value
    does not have; converting an object to a string; and [writeHead]
    given a header value with a character it refuses. *)
Inductive engine_fault : Type :=
| DestructureNullish (property source : string) (v : value)
| KeysOfNullish (v : value)
| NotAFunction (property : string)
| NotPrimitive (v : value)
| InvalidHeaderChar (header : string).

Class Platform : Type := {
  fetch : api_request -> outcome;
  engine_message : engine_fault -> string;
  env : string -> option string
}.

(** ** Process state *)

(** The object stored by [sessions.set(sessionId, { res, connected })];
    [res] names the event stream of the GET that created it. *)
Record session : Type := Session { res : nat; connected : Z }.

(** The response object of one [GET /sse]: what was written to it and
    whether [res.end()] ran, together with what the callbacks registered
    by that request captured: [sessionId] and the [heartbeat] handle. *)
Record stream : Type := Stream {
  written : list string;
  ended : bool;
  sessionId_of : string;
  heartbeat_of : nat
}.

(** [sessions] is the [Map] of [index.ts]; [intervals] holds the handles
    [setInterval] returned and [clearInterval] has not cleared; [streams]
    lists the event streams in the order their GETs arrived; [fetched] logs
    the requests handed to [fetch]. *)
Record World : Type := mkWorld {
  sessions : gmap string session;
  intervals : gset nat;
  streams : list stream;
  fetched : list api_request
}.

Definition boot : World := mkWorld ∅ ∅ [] [].

Definition set_sessions (f : gmap string session -> gmap string session) (w : World) : World :=
  mkWorld (f (sessions w)) (intervals w) (streams w) (fetched w).
Definition set_intervals (f : gset nat -> gset nat) (w : World) : World :=
  mkWorld (sessions w) (f (intervals w)) (streams w) (fetched w).
Definition set_streams (f : list stream -> list stream) (w : World) : World :=
  mkWorld (sessions w) (intervals w) (f (streams w)) (fetched w).
Definition set_fetched (f : list api_request -> list api_request) (w : World) : World :=
  mkWorld (sessions w) (intervals w) (streams w) (f (fetched w)).

(** ** Handlers run in a state-and-exception monad over [World] *)

Inductive completion (A : Type) : Type :=
| Returns (a : A)
| Throws (e : error).
Arguments Returns {A} a.
Arguments Throws {A} e.

Definition M (A : Type) : Type := World -> completion A * World.

Definition ret {A} (a : A) : M A := fun w => (Returns a, w).
Definition throw {A} (e : error) : M A := fun w => (Throws e, w).
Definition bind {A B} (m : M A) (k : A -> M B) : M B :=
  fun w => match m w with
           | (Returns a, w') => k a w'
           | (Throws e, w') => (Throws e, w')
           end.
Definition try_catch {A} (m : M A) (handler : error -> M A) : M A :=
  fun w => match m w with
           | (Returns a, w') => (Returns a, w')
           | (Throws e, w') => handler e w'
           end.
Definition modify (f : World -> World) : M unit := fun w => (Returns tt, f w).
Definition gets {A} (f : World -> A) : M A := fun w => (Returns (f w), w).

Notation "'let*' x := m 'in' k" := (bind m (fun x => k))
  (at level 10, x name, m at level 100, k at level 200).

Section Gateway.
Context `{Platform}.

(** [process.env.KEY || fallback]. *)
Definition env_or (key fallback : string) : string :=
  match env key with
  | Some s => if String.eqb s "" then fallback else s
  | None => fallback
  end.

(** Destructuring [const { property, ... } = source] throws on [null]
    and [undefined]; [v] is the value of [source]. *)
Definition destructurable (property source : string) (v : value) : M unit :=
  if nullish v then
    throw (new_TypeError (engine_message (DestructureNullish property source v)))
  else ret tt.

(** [String(v)] or [`${v}`] as a step of a handler. *)
Definition ToString (v : value) : M string :=
  if convertible v then ret (to_string v)
  else throw (new_TypeError (engine_message (NotPrimitive v))).

Definition indices {A} (l : list A) : list string :=
  map (fun i : nat => pretty i) (seq 0 (length l)).

Fixpoint chars (s : string) : list value :=
  match s with
  | EmptyString => []
  | String c r => VStr (String c "") :: chars r
  end.

(** [Object.keys(v)]. *)
Definition Object_keys (v : value) : M (list string) :=
  match v with
  | VUndefined | VNull => throw (new_TypeError (engine_message (KeysOfNullish v)))
  | VBool _ | VNum _ => ret []
  | VStr s => ret (indices (chars s))
  | VArr items => ret (indices items)
  | VObj fields => ret (map fst fields)
  end.

(** [v[key]] for a key that [Object.keys(v)] returned. *)
Definition at_key (v : value) (key : string) : value :=
  let nth_of (l : list value) :=
    default VUndefined
      (snd <$> List.find (fun p => String.eqb (fst p) key) (combine (indices l) l)) in
  match v with
  | VObj fields => prop fields key
  | VArr items => nth_of items
  | VStr s => nth_of (chars s)
  | _ => VUndefined
  end.

(** The [forEach] over [Object.keys(params)] that appends to
    [url.searchParams]. *)
Fixpoint searchParams (params : value) (keys : list string) : M (list (string * string)) :=
  match keys with
  | [] => ret []
  | key :: rest =>
      let v := at_key params key in
      if nullish v then searchParams params rest
      else
        let* text := ToString v in
        let* more := searchParams params rest in
        ret ((key, text) :: more)
  end.

(** [apiCall(endpoint, params = {}, method)], the HTTP client both files
    define; [base] is the file's [API_BASE_URL]. The request is logged in
    [fetched] when [fetch] is reached. [new URL] is not run here: the
    address is kept as the text it is given, which loses nothing on the
    addresses of [canonical_url]. *)
Definition apiCall (base endpoint : string) (params : value) (method : verb) : M value :=
  let params := match params with VUndefined => VObj [] | _ => params end in
  let* query :=
    match method with
    | GET =>
        let* keys := Object_keys params in
        searchParams params keys
    | POST => ret []
    end in
  let body := match method with
              | POST => match stringify params with VStr s => Some s | _ => None end
              | GET => None
              end in
  let request := ApiRequest (base +:+ endpoint) query method body in
  let* _ := modify (set_fetched (fun log => (log ++ [request])%list)) in
  match fetch request with
  | FetchRejects e => throw e
  | Responds status statusText payload =>
      if ((200 <=? status) && (status <=? 299))%Z then
        match payload with
        | inr json => ret json
        | inl e => throw e
        end
      else throw (new_Error ("API Error: " +:+ pretty status +:+ " " +:+ statusText))
  end.

(** The [switch (name)] over the six tools, which both files repeat
    wherever a tool is run. *)
Definition toolSwitch (base : string) (name args : value) : M value :=
  if is_str name "buscar_disponibilidad" then
    apiCall base "/api/disponibilidad" args POST
  else if is_str name "obtener_detalles_propiedad" then
    let* _ := destructurable "id_casa" "args" args in
    let id_casa := member args "id_casa" in
    let idioma := match member args "idioma" with
                  | VUndefined => VStr "es"
                  | v => v
                  end in
    let* segment := ToString id_casa in
    apiCall base ("/api/propiedad/" +:+ segment) (VObj [("idioma", idioma)]) GET
  else if is_str name "calcular_precio_estancia" then
    apiCall base "/api/calcular-precio" args POST
  else if is_str name "listar_propiedades" then
    apiCall base "/api/propiedades" args GET
  else if is_str name "listar_municipios" then
    apiCall base "/api/municipios" (VObj []) GET
  else if is_str name "listar_barrios" then
    apiCall base "/api/barrios" args GET
  else
    let* shown := ToString name in
    throw (new_Error ("Herramienta desconocida: " +:+ shown)).

(** The tool result envelope of a successful run. *)
Definition envelope_ok (result : value) : value :=
  VObj [("content",
         VArr [VObj [("type", VStr "text"); ("text", stringify_pretty result)]])].

(** The envelope built in the [catch] of [executeTool]. *)
Definition error_payload (e : error) : value :=
  VObj [("success", VBool false);
        ("error", VStr (message e));
        ("details", VStr (error_toString e))].

Definition envelope_error (e : error) : value :=
  VObj [("content",
         VArr [VObj [("type", VStr "text");
                     ("text", stringify_pretty (error_payload e))]]);
        ("isError", VBool true)].

(** [executeTool(name, args)] of [index-http.ts]; the
    [CallToolRequestSchema] handler of [index.ts] has the same body. *)
Definition executeTool (base : string) (name args : value) : M value :=
  try_catch
    (let* result := toolSwitch base name args in
     ret (envelope_ok result))
    (fun e => ret (envelope_error e)).

End Gateway.

(** ** The tool catalog: [const tools: Tool[]], the same in both files *)

Definition date_pattern : string := "^\d{4}-\d{2}-\d{2}$".

Definition tools : list value := [
  VObj [
    ("name", VStr "buscar_disponibilidad");
    ("description", VStr "Busca propiedades vacacionales disponibles en La Palma para unas fechas específicas. Permite filtrar por municipio, barrio y número de personas.");
    ("inputSchema", VObj [
      ("type", VStr "object");
      ("properties", VObj [
        ("fecha_llegada", VObj [
          ("type", VStr "string");
          ("description", VStr "Fecha de llegada en formato YYYY-MM-DD (ej: 2024-06-15)");
          ("pattern", VStr date_pattern)]);
        ("fecha_salida", VObj [
          ("type", VStr "string");
          ("description", VStr "Fecha de salida en formato YYYY-MM-DD (ej: 2024-06-22)");
          ("pattern", VStr date_pattern)]);
        ("num_personas", VObj [
          ("type", VStr "number");
          ("description", VStr "Número de huéspedes (default: 2)");
          ("minimum", VNum 1)]);
        ("municipio", VObj [
          ("type", VStr "string");
          ("description", VStr "Filtrar por municipio (ej: Santa Cruz de La Palma, Los Llanos de Aridane)")]);
        ("barrio", VObj [
          ("type", VStr "string");
          ("description", VStr "Filtrar por barrio/zona (ej: Centro, San Telmo, El Charco)")])]);
      ("required", VArr [VStr "fecha_llegada"; VStr "fecha_salida"])])];
  VObj [
    ("name", VStr "obtener_detalles_propiedad");
    ("description", VStr "Obtiene información completa de una propiedad específica: características, amenidades, ubicación, precios, fotos, descripciones en el idioma solicitado.");
    ("inputSchema", VObj [
      ("type", VStr "object");
      ("properties", VObj [
        ("id_casa", VObj [
          ("type", VStr "string");
          ("description", VStr "ID de la propiedad a consultar")]);
        ("idioma", VObj [
          ("type", VStr "string");
          ("description", VStr "Idioma para descripciones: es (español), en (inglés), de (alemán)");
          ("enum", VArr [VStr "es"; VStr "en"; VStr "de"]);
          ("default", VStr "es")])]);
      ("required", VArr [VStr "id_casa"])])];
  VObj [
    ("name", VStr "calcular_precio_estancia");
    ("description", VStr "Calcula el precio total de una estancia incluyendo tarifas por temporada, descuentos aplicables, número de noches y personas.");
    ("inputSchema", VObj [
      ("type", VStr "object");
      ("properties", VObj [
        ("id_casa", VObj [
          ("type", VStr "string");
          ("description", VStr "ID de la propiedad")]);
        ("fecha_llegada", VObj [
          ("type", VStr "string");
          ("description", VStr "Fecha de llegada en formato YYYY-MM-DD");
          ("pattern", VStr date_pattern)]);
        ("fecha_salida", VObj [
          ("type", VStr "string");
          ("description", VStr "Fecha de salida en formato YYYY-MM-DD");
          ("pattern", VStr date_pattern)]);
        ("num_personas", VObj [
          ("type", VStr "number");
          ("description", VStr "Número de huéspedes (default: 2)");
          ("minimum", VNum 1)])]);
      ("required", VArr [VStr "id_casa"; VStr "fecha_llegada"; VStr "fecha_salida"])])];
  VObj [
    ("name", VStr "listar_propiedades");
    ("description", VStr "Lista todas las propiedades vacacionales disponibles con filtros opcionales por ubicación, capacidad y características. Incluye paginación.");
    ("inputSchema", VObj [
      ("type", VStr "object");
      ("properties", VObj [
        ("municipio", VObj [
          ("type", VStr "string");
          ("description", VStr "Filtrar por municipio")]);
        ("barrio", VObj [
          ("type", VStr "string");
          ("description", VStr "Filtrar por barrio/zona")]);
        ("dormitorios", VObj [
          ("type", VStr "number");
          ("description", VStr "Número de dormitorios");
          ("minimum", VNum 1)]);
        ("personas_max", VObj [
          ("type", VStr "number");
          ("description", VStr "Capacidad mínima de personas");
          ("minimum", VNum 1)]);
        ("limit", VObj [
          ("type", VStr "number");
          ("description", VStr "Número máximo de resultados (default: 50)");
          ("minimum", VNum 1);
          ("maximum", VNum 100);
          ("default", VNum 50)]);
        ("offset", VObj [
          ("type", VStr "number");
          ("description", VStr "Offset para paginación (default: 0)");
          ("minimum", VNum 0);
          ("default", VNum 0)])])])];
  VObj [
    ("name", VStr "listar_municipios");
    ("description", VStr "Obtiene la lista completa de municipios disponibles en La Palma donde hay propiedades. Útil para saber qué ubicaciones se pueden filtrar.");
    ("inputSchema", VObj [
      ("type", VStr "object");
      ("properties", VObj [])])];
  VObj [
    ("name", VStr "listar_barrios");
    ("description", VStr "Obtiene la lista de barrios/zonas disponibles, opcionalmente filtrados por municipio. Útil para búsquedas más específicas de ubicación.");
    ("inputSchema", VObj [
      ("type", VStr "object");
      ("properties", VObj [
        ("municipio", VObj [
          ("type", VStr "string");
          ("description", VStr "Filtrar barrios por municipio (ej: Santa Cruz de La Palma)")])])])]
].

(** ** JSON-RPC frames *)

Definition rpc_result (id result : value) : value :=
  VObj [("jsonrpc", VStr "2.0"); ("id", id); ("result", result)].

Definition rpc_error (id : value) (code : Z) (msg : string) : value :=
  VObj [("jsonrpc", VStr "2.0"); ("id", id);
        ("error", VObj [("code", VNum code); ("message", VStr msg)])].

Definition rpc_error_data (id : value) (code : Z) (msg : string) (data : value) : value :=
  VObj [("jsonrpc", VStr "2.0"); ("id", id);
        ("error", VObj [("code", VNum code); ("message", VStr msg); ("data", data)])].

Section Router.
Context `{Platform}.

(** The [result] of [initialize], the same in both files. *)
Definition initialize_result : value :=
  VObj [("protocolVersion", VStr "2024-11-05");
        ("capabilities", VObj [("tools", VObj [])]);
        ("serverInfo",
         VObj [("name", VStr (env_or "MCP_SERVER_NAME" "lapalma24-propiedades"));
               ("version", VStr (env_or "MCP_SERVER_VERSION" "1.0.0"))])].

(** [message.method && message.method.startsWith(prefix)], as a condition:
    a truthy method that is not a string has no [startsWith] to call. *)
Definition method_startsWith (method : value) (prefix : string) : M bool :=
  if truthy method then
    match method with
    | VStr s => ret (String.prefix prefix s)
    | _ => throw (new_TypeError (engine_message (NotAFunction "startsWith")))
    end
  else ret false.

End Router.

(** The values [res.writeHead] accepts for a header: characters from
    U+0020 to U+007E, the tab, and U+0080 to U+00FF, which UTF-8 writes
    as the lead byte C2 or C3 and one continuation byte. *)
Fixpoint header_value_ok (s : string) : bool :=
  match s with
  | EmptyString => true
  | String c r =>
      let n := nat_of_ascii c in
      if ((n =? 9) || ((32 <=? n) && (n <=? 126)))%nat then header_value_ok r
      else if ((n =? 194) || (n =? 195))%nat then
        match r with
        | String c' r' =>
            let m := nat_of_ascii c' in
            ((128 <=? m) && (m <=? 191))%nat && header_value_ok r'
        | EmptyString => false
        end
      else false
  end.

(** [!message.jsonrpc || message.jsonrpc !== '2.0'] *)
Definition bad_envelope (message : object) : bool :=
  negb (truthy (prop message "jsonrpc")) || negb (is_str (prop message "jsonrpc") "2.0").

(** What an Express handler answers: [res.status(n).json(v)],
    [res.json(v)] (status 200) or [res.status(n).end()] (no body). *)
Record http_response : Type := HttpResponse { status : Z; body : option value }.

Definition res_json (v : value) : http_response := HttpResponse 200 (Some v).

(** ** [index-http.ts] *)

Module HttpServer.
Section Server.
Context `{Platform}.

Definition API_BASE_URL : string := env_or "API_BASE_URL" "https://admin.la-palma24.net".

Definition invalid_request_message : string :=
  "Invalid Request: jsonrpc must be " +:+ String dquote ("2.0" +:+ String dquote "").

(** [app.post('/', ...)]; [message] is [req.body]. Of the log lines,
    two convert a value of the request that nothing has converted
    before: the first prints [message.method || 'sin método'] ahead of
    the envelope check and outside the [try], the one of [tools/call]
    prints [name] inside it. The others print a [method] the first line
    has printed, or a falsy one. *)
Definition post_root (message : object) : M http_response :=
  let id := prop message "id" in
  let method := prop message "method" in
  let* _ := ToString (if truthy method then method else VStr "sin método") in
  if bad_envelope message then
    ret (HttpResponse 400 (Some (rpc_error id (-32600) invalid_request_message)))
  else
    try_catch
      (if is_str method "initialize" then
         ret (res_json (rpc_result id initialize_result))
       else
         let* notification := method_startsWith method "notifications/" in
         if notification then ret (HttpResponse 202 None)
         else if is_str method "tools/list" then
           ret (res_json (rpc_result id (VObj [("tools", VArr tools)])))
         else if is_str method "tools/call" then
           let params := prop message "params" in
           let* _ := destructurable "name" "message.params" params in
           let* _ := ToString (member params "name") in
           let* result := executeTool API_BASE_URL (member params "name")
                                      (member params "arguments") in
           ret (res_json (rpc_result id result))
         else if is_str method "prompts/list" then
           ret (res_json (rpc_result id (VObj [("prompts", VArr [])])))
         else if is_str method "resources/list" then
           ret (res_json (rpc_result id (VObj [("resources", VArr [])])))
         else
           ret (res_json (rpc_error id (-32601)
                            ("Method not found: " +:+ to_string method))))
      (fun e =>
         ret (HttpResponse 500
                (Some (rpc_error_data id (-32603) "Internal error" (VStr (Js.message e)))))).

(** [app.post('/tools/:toolName', ...)] of [index-http.ts]: [toolName]
    is the route parameter, [args] is [req.body]. [JSON_parse] stands for
    the engine's [JSON.parse], which returns a value or throws; the
    envelope it is applied to is always one [executeTool] built, so
    [result.content[0].text] is read with [member]. *)
Definition post_tools (JSON_parse : value -> error + value)
    (toolName : string) (args : value) : M http_response :=
  try_catch
    (match List.find (fun t => is_str (member t "name") toolName) tools with
     | None =>
         ret (HttpResponse 404
                (Some (VObj [("success", VBool false);
                             ("error", VStr ("Herramienta no encontrada: " +:+ toolName));
                             ("available", VArr (map (fun t => member t "name") tools))])))
     | Some _ =>
         let* result := executeTool API_BASE_URL (VStr toolName) args in
         let content0 := match member result "content" with
                         | VArr (item :: _) => item
                         | _ => VUndefined
                         end in
         let* parsed := match JSON_parse (member content0 "text") with
                        | inr json => ret json
                        | inl e => throw e
                        end in
         if truthy (member result "isError") then ret (HttpResponse 500 (Some parsed))
         else ret (res_json parsed)
     end)
    (fun e => ret (HttpResponse 500 (Some (error_payload e)))).

End Server.
End HttpServer.

(** ** [index.ts], [sse] mode *)

Module SseServer.
Section Server.
Context `{Platform}.

Definition API_BASE_URL : string := env_or "API_BASE_URL" "https://www.la-palma24.net".

(** [server.setRequestHandler(CallToolRequestSchema, ...)], the handler of
    the stdio server; [params] is [request.params]. *)
Definition CallToolRequest_handler (params : value) : M value :=
  let* _ := destructurable "name" "request.params" params in
  executeTool API_BASE_URL (member params "name") (member params "arguments").

(** [res.write(chunk)] on stream [c]; a chunk written after [res.end()]
    reaches nobody and is not recorded. *)
Definition write (c : nat) (chunk : string) : M unit :=
  modify (set_streams (alter (fun st =>
    if ended st then st
    else Stream (written st ++ [chunk])%list (ended st) (sessionId_of st) (heartbeat_of st)) c)).

(** The two writes that frame one server-sent event. *)
Definition write_event (c : nat) (event data : string) : M unit :=
  let* _ := write c ("event: " +:+ event +:+ newline) in
  write c ("data: " +:+ data +:+ newline +:+ newline).

(** [sseResponse.write(`data: ${JSON.stringify(response)}\n\n`)] after
    [event: message]. *)
Definition write_message (c : nat) (response : value) : M unit :=
  write_event c "message" (to_string (stringify response)).

Definition clearInterval (handle : nat) : M unit :=
  modify (set_intervals (fun live => live ∖ {[handle]})).

(** [app.get('/sse', ...)]: [query_sessionId] is [req.query.sessionId],
    [random] what [Math.random().toString(36).substring(7)] produced,
    [now] and [iso] the clock as [Date.now()] and [toISOString()] read it.
    [res.writeHead] sends [sessionId] as the header [X-Session-Id] and
    throws when it is not a header value, before anything is registered
    or written; the other headers are constants. The stream opened
    is the next entry of [streams], and the handle [setInterval] returns
    is given the same number: this is the only place an interval is made.
    Returns the index of the stream. *)
Definition get_sse (query_sessionId : option string) (random : string)
    (now : Z) (iso : string) : M nat :=
  let sessionId := match query_sessionId with
                   | Some s => if String.eqb s "" then random else s
                   | None => random
                   end in
  let* _ := if header_value_ok sessionId then ret tt
            else throw (new_TypeError (engine_message (InvalidHeaderChar "X-Session-Id"))) in
  let* c := gets (fun w => length (streams w)) in
  let heartbeat := c in
  let* _ := modify (set_streams (fun l => (l ++ [Stream [] false sessionId heartbeat])%list)) in
  let* _ := modify (set_sessions (fun m => <[sessionId := Session c now]> m)) in
  let* _ := write_event c "endpoint" ("/message?sessionId=" +:+ sessionId) in
  let* _ := write_event c "connected"
              (to_string (stringify (VObj [
                 ("status", VStr "connected");
                 ("server", VStr (env_or "MCP_SERVER_NAME" "lapalma24-mcp"));
                 ("sessionId", VStr sessionId);
                 ("timestamp", VStr iso)]))) in
  let* _ := modify (set_intervals (fun live => live ∪ {[heartbeat]})) in
  ret c.

(** One firing of the [setInterval] callback of stream [c]; [broken] is
    the error [res.write] throws, if it does. A cleared interval does not
    fire. *)
Definition heartbeat_tick (c : nat) (iso : string) (broken : option error) : M unit :=
  let* opened := gets (fun w => streams w !! c) in
  match opened with
  | None => ret tt
  | Some st =>
      let heartbeat := heartbeat_of st in
      let* live := gets intervals in
      if decide (heartbeat ∈ live) then
        try_catch
          (match broken with
           | Some e => throw e
           | None =>
               write_event c "ping"
                 (to_string (stringify (VObj [("timestamp", VStr iso)])))
           end)
          (fun _ => clearInterval heartbeat)
      else ret tt
  end.

(** The [req.on('close', ...)] callback of stream [c]. *)
Definition on_close (c : nat) : M unit :=
  let* opened := gets (fun w => streams w !! c) in
  match opened with
  | None => ret tt
  | Some st =>
      let* _ := clearInterval (heartbeat_of st) in
      let* _ := modify (set_sessions (delete (sessionId_of st))) in
      modify (set_streams (alter (fun st =>
        Stream (written st) true (sessionId_of st) (heartbeat_of st)) c))
  end.

(** [a || b] on two optional strings. *)
Definition or_else (a b : option string) : option string :=
  match a with
  | Some s => if String.eqb s "" then b else a
  | None => b
  end.

Definition plain_error (code : Z) (text : string) : http_response :=
  HttpResponse code (Some (VObj [("error", VStr text)])).

(** [app.post('/message', ...)]: [query_sessionId] is
    [req.query.sessionId], [header_sessionId] is
    [req.headers['x-session-id']], [message] is [req.body]. The handler
    is run to completion: the registry is read before the only [await],
    and after it the handler only writes on the stream it already holds.
    The log line after the envelope check converts [message.method]; the
    later ones print it again, once it is known to be a string. *)
Definition post_message (query_sessionId header_sessionId : option string)
    (message : object) : M http_response :=
  let sessionId := or_else query_sessionId header_sessionId in
  match sessionId with
  | None => ret (plain_error 400 "Missing sessionId")
  | Some sessionId =>
      if String.eqb sessionId "" then ret (plain_error 400 "Missing sessionId")
      else
        let* session := gets (fun w => sessions w !! sessionId) in
        match session with
        | None => ret (plain_error 404 "Session not found")
        | Some session =>
            let sseResponse := res session in
            let id := prop message "id" in
            let method := prop message "method" in
            try_catch
              (if bad_envelope message then
                 ret (plain_error 400 "Invalid JSON-RPC version")
               else
                 let* _ := ToString method in
                 let* _ :=
                   if is_str method "tools/list" then
                     write_message sseResponse (rpc_result id (VObj [("tools", VArr tools)]))
                   else if is_str method "tools/call" then
                     let params := prop message "params" in
                     let* _ := destructurable "name" "message.params" params in
                     try_catch
                       (let* result := toolSwitch API_BASE_URL (member params "name")
                                                  (member params "arguments") in
                        write_message sseResponse (rpc_result id (envelope_ok result)))
                       (fun e =>
                          write_message sseResponse (rpc_error id (-32603) (Js.message e)))
                   else if is_str method "initialize" then
                     write_message sseResponse (rpc_result id initialize_result)
                   else if is_str method "notifications/initialized" then ret tt
                   else
                     let* notification := method_startsWith method "notifications/" in
                     if notification then ret tt
                     else if truthy method then
                       match id with
                       | VUndefined => ret tt
                       | _ =>
                           write_message sseResponse
                             (rpc_error id (-32601) ("Method not found: " +:+ to_string method))
                       end
                     else ret tt
                 in
                 ret (HttpResponse 202 (Some (VObj [("status", VStr "accepted")]))))
              (fun e => ret (plain_error 500 (Js.message e)))
        end
  end.

(** [app.post('/tools/:toolName', ...)] of [index.ts]: [toolName] is
    the route parameter, [args] is [req.body]. *)
Definition post_tools (toolName : string) (args : value) : M http_response :=
  try_catch
    (match List.find (fun t => is_str (member t "name") toolName) tools with
     | None =>
         ret (HttpResponse 404
                (Some (VObj [("success", VBool false);
                             ("error", VStr ("Herramienta no encontrada: " +:+ toolName));
                             ("available", VArr (map (fun t => member t "name") tools))])))
     | Some _ =>
         let* result := toolSwitch API_BASE_URL (VStr toolName) args in
         ret (res_json result)
     end)
    (fun e => ret (HttpResponse 500 (Some (error_payload e)))).

(** *** The server as a transition system *)

Inductive event : Type :=
| GetSse (query_sessionId : option string) (random : string) (now : Z) (iso : string)
| Tick (c : nat) (iso : string) (broken : option error)
| Close (c : nat)
| PostMessage (query_sessionId header_sessionId : option string) (message : object).

Definition step (w : World) (ev : event) : World :=
  match ev with
  | GetSse q random now iso => snd (get_sse q random now iso w)
  | Tick c iso broken => snd (heartbeat_tick c iso broken w)
  | Close c => snd (on_close c w)
  | PostMessage q h message => snd (post_message q h message w)
  end.

Definition run (evs : list event) (w : World) : World := fold_left step evs w.

End Server.
End SseServer.

(** ** A concrete platform, used to run the handlers

    The backend knows the municipalities, rejects an availability search
    with 400 and cannot be reached for anything else. *)

Definition sample_fetch (r : api_request) : outcome :=
  if String.eqb (req_url r) "https://admin.la-palma24.net/api/municipios"
     || String.eqb (req_url r) "https://www.la-palma24.net/api/municipios" then
    Responds 200 "OK" (inr (VArr [VStr "Santa Cruz de La Palma"; VStr "Tazacorte"]))
  else if String.eqb (req_url r) "https://admin.la-palma24.net/api/disponibilidad"
          || String.eqb (req_url r) "https://www.la-palma24.net/api/disponibilidad" then
    Responds 400 "Bad Request" (inr (VObj [("error", VStr "fecha_salida requerida")]))
  else FetchRejects (new_TypeError "fetch failed").

Definition sample_engine_message (f : engine_fault) : string :=
  match f with
  | DestructureNullish property source v =>
      "Cannot destructure property '" +:+ property +:+ "' of '" +:+ source
        +:+ "' as it is " +:+ to_string v +:+ "."
  | KeysOfNullish _ => "Cannot convert undefined or null to object"
  | NotAFunction p => "message.method." +:+ p +:+ " is not a function"
  | NotPrimitive _ => "Cannot convert object to primitive value"
  | InvalidHeaderChar header =>
      "Invalid character in header content [" +:+ String dquote header
        +:+ String dquote "]"
  end.

Definition sample : Platform :=
  {| fetch := sample_fetch;
     engine_message := sample_engine_message;
     env := fun _ => None |}.

Definition request (id : Z) (method : string) (params : value) : object :=
  [("jsonrpc", VStr "2.0"); ("id", VNum id); ("method", VStr method); ("params", params)].

Definition call_params (tool : string) (args : value) : value :=
  VObj [("name", VStr tool); ("arguments", args)].

(** ** Vocabulary of the statements *)

(** The [case] labels of the tool [switch]. *)
Definition tool_cases : list string :=
  ["buscar_disponibilidad"; "obtener_detalles_propiedad"; "calcular_precio_estancia";
   "listar_propiedades"; "listar_municipios"; "listar_barrios"].

Definition in_dispatch_table (name : value) : bool := existsb (is_str name) tool_cases.

(** The names a [tools/list] result carries, and those of the catalog. *)
Definition tool_names (result : value) : list value :=
  match member result "tools" with
  | VArr descriptors => map (fun t => member t "name") descriptors
  | _ => []
  end.

Definition catalog_names : list value := map (fun t => member t "name") tools.

(** A JSON-RPC error object with the given code. *)
Definition is_rpc_error (code : Z) (frame : value) : Prop :=
  member frame "jsonrpc" = VStr "2.0" /\ member (member frame "error") "code" = VNum code.

(** A JSON-RPC success whose result is a tool result envelope flagged
    [isError: true]. *)
Definition is_tool_error_result (frame : value) : Prop :=
  member frame "jsonrpc" = VStr "2.0"
  /\ member frame "error" = VUndefined
  /\ member (member frame "result") "isError" = VBool true.

(** The acknowledgement [res.status(202).json({ status: 'accepted' })]. *)
Definition accepted : http_response :=
  HttpResponse 202 (Some (VObj [("status", VStr "accepted")])).

(** The two chunks of a [message] event carrying [response]. *)
Definition message_frame (response : value) : list string :=
  ["event: message" +:+ newline;
   "data: " +:+ to_string (stringify response) +:+ newline +:+ newline].

(** Stream [c] after the chunks [chunks] were written to it. *)
Definition deliver (c : nat) (chunks : list string) (l : list stream) : list stream :=
  alter (fun st =>
    if ended st then st
    else Stream (written st ++ chunks)%list (ended st) (sessionId_of st) (heartbeat_of st)) c l.

(** The injection request names a session of the registry. *)
Definition addressed (query_sessionId header_sessionId : option string)
    (w : World) (ses : session) : Prop :=
  exists sid, SseServer.or_else query_sessionId header_sessionId = Some sid
              /\ sid <> "" /\ sessions w !! sid = Some ses.

(** Modelled after the claim's words: the envelope an unknown tool would
    get if its body were [{success:false, error:"Unknown tool: <name>"}]. *)
Definition unknown_tool_envelope_as_claimed (name : string) : value :=
  VObj [("content",
         VArr [VObj [("type", VStr "text");
                     ("text", stringify_pretty
                                (VObj [("success", VBool false);
                                       ("error", VStr ("Unknown tool: " +:+ name))]))]]);
        ("isError", VBool true)].

(** A world with one open session, [abc], on stream 0. *)
Definition one_session : World :=
  snd (@SseServer.get_sse sample (Some "abc") "r4nd0m" 1700 "2024-01-01T00:00:00.000Z" boot).

(** What the callbacks of a stream keep for its whole life. *)
Definition shape (st : stream) : bool * string * nat :=
  (ended st, sessionId_of st, heartbeat_of st).

(** [w'] differs from [w] at most by logged backend calls. *)
Definition only_fetches (w w' : World) : Prop :=
  sessions w' = sessions w /\ intervals w' = intervals w /\ streams w' = streams w.

(** [w'] has the registry of [w], and the same streams up to what was
    written on them. *)
Definition same_registry (w w' : World) : Prop :=
  sessions w' = sessions w
  /\ forall c, shape <$> (streams w' !! c) = shape <$> (streams w !! c).

Definition quiet {A} (m : M A) : Prop := forall w, same_registry w (snd (m w)).

(** Stream [st] once [res.end()] has run. *)
Definition end_stream (st : stream) : stream :=
  Stream (written st) true (sessionId_of st) (heartbeat_of st).

(** The world the [close] callback of stream [c] leaves behind. *)
Definition after_close (c : nat) (w : World) : World :=
  match streams w !! c with
  | None => w
  | Some st =>
      mkWorld (delete (sessionId_of st) (sessions w))
              (intervals w ∖ {[heartbeat_of st]})
              (alter end_stream c (streams w))
              (fetched w)
  end.

(** The registry invariant: every registered handle is a stream that was
    opened under that identifier and has not been closed. *)
Definition registry_ok (w : World) : Prop :=
  forall sid ses, sessions w !! sid = Some ses ->
    exists st, streams w !! res ses = Some st
               /\ ended st = false /\ sessionId_of st = sid.

(** *** Vocabulary for the properties beyond the claims *)

(** Exactly one of [result] and [error] is present. *)
Definition exactly_one (a b : value) : Prop :=
  (a = VUndefined /\ b <> VUndefined) \/ (a <> VUndefined /\ b = VUndefined).

(** A JSON-RPC response to the request with identifier [id]. *)
Definition well_formed_reply (id frame : value) : Prop :=
  member frame "jsonrpc" = VStr "2.0"
  /\ member frame "id" = id
  /\ exactly_one (member frame "result") (member frame "error").

(** [w'] is [w] with at most one more backend request logged. *)
Definition at_most_one_fetch (w w' : World) : Prop :=
  only_fetches w w'
  /\ (fetched w' = fetched w \/ exists r, fetched w' = (fetched w ++ [r])%list).

(** A line feed or carriage return occurs in [s]. *)
Fixpoint has_line_break (s : string) : bool :=
  match s with
  | EmptyString => false
  | String c r =>
      (nat_of_ascii c =? 10)%nat || (nat_of_ascii c =? 13)%nat || has_line_break r
  end.

(** The methods [POST /] of [index-http.ts] has a branch for. *)
Definition http_recognized (m : string) : bool :=
  existsb (String.eqb m)
    ["initialize"; "tools/list"; "tools/call"; "prompts/list"; "resources/list"]
  || String.prefix "notifications/" m.

(** The methods [POST /message] of [index.ts] has a branch for. *)
Definition sse_recognized (m : string) : bool :=
  existsb (String.eqb m) ["tools/list"; "tools/call"; "initialize"]
  || String.prefix "notifications/" m.

(** A [method] on which [startsWith] cannot be called, or a [tools/call]
    whose [params] cannot be destructured. *)
Definition malformed (message : object) : bool :=
  (truthy (prop message "method")
   && match prop message "method" with VStr _ => false | _ => true end)
  || (is_str (prop message "method") "tools/call" && nullish (prop message "params")).

(** The messages [POST /] of [index-http.ts] answers with 500: the
    [malformed] ones, and a [tools/call] whose [name] the log line
    cannot print. *)
Definition http_malformed (message : object) : bool :=
  malformed message
  || (is_str (prop message "method") "tools/call"
      && negb (convertible (member (prop message "params") "name"))).

Fixpoint all_chars (p : ascii -> bool) (s : string) : bool :=
  match s with
  | EmptyString => true
  | String c r => p c && all_chars p r
  end.

Definition is_digit (c : ascii) : bool :=
  ((48 <=? nat_of_ascii c) && (nat_of_ascii c <=? 57))%nat.

(** A key written with digits only. The array indices, which the engine
    enumerates ahead of the other keys, are among these. *)
Definition index_like (k : string) : bool :=
  negb (String.eqb k "") && all_chars is_digit k.

Definition is_lower (c : ascii) : bool :=
  ((97 <=? nat_of_ascii c) && (nat_of_ascii c <=? 122))%nat.

(** Letters, digits, [-] and [_]. *)
Definition segment_char (c : ascii) : bool :=
  let n := nat_of_ascii c in
  (is_digit c || ((65 <=? n) && (n <=? 90)) || is_lower c || (n =? 45) || (n =? 95))%nat.

(** A path whose segments are written with [segment_char]s. *)
Definition plain_path (s : string) : bool :=
  all_chars (fun c => segment_char c || (nat_of_ascii c =? 47)%nat) s.

(** A host and the path after it: labels joined by dots, each made of
    lowercase letters and digits joined by single hyphens, the last one
    of letters only, then a slash and a [plain_path]. [after_alnum] says
    that the previous character was a letter or a digit, [letters] that
    the label read so far has letters only. *)
Fixpoint host_and_path (after_alnum letters : bool) (s : string) : bool :=
  match s with
  | EmptyString => false
  | String c r =>
      if is_lower c then host_and_path true letters r
      else if is_digit c then host_and_path true false r
      else if (nat_of_ascii c =? 45)%nat then after_alnum && host_and_path false false r
      else if (nat_of_ascii c =? 46)%nat then after_alnum && host_and_path false true r
      else if (nat_of_ascii c =? 47)%nat then after_alnum && letters && plain_path r
      else false
  end.

Fixpoint strip (p s : string) : option string :=
  match p, s with
  | EmptyString, _ => Some s
  | String a p', String b s' => if Ascii.eqb a b then strip p' s' else None
  | String _ _, EmptyString => None
  end.

(** Addresses that [new URL] accepts and prints back as they are
    written, so that nothing is lost by keeping the text: [http://] or
    [https://], a host as above and a plain path. The default
    [API_BASE_URL] of either file followed by an [/api/...] endpoint is
    one. *)
Definition canonical_url (s : string) : bool :=
  match strip "https://" s with
  | Some rest => host_and_path false true rest
  | None =>
      match strip "http://" s with
      | Some rest => host_and_path false true rest
      | None => false
      end
  end.

(** Parameters out of which a GET can build its query: not [null], and
    every value is one [String] converts or one the loop skips. *)
Definition sendable (params : value) : bool :=
  match params with
  | VNull => false
  | VObj fields => forallb (fun kv => nullish (snd kv) || convertible (snd kv)) fields
  | VArr items => forallb (fun x => nullish x || convertible x) items
  | _ => true
  end.

(** The entries of an object that become the query exactly as listed:
    no key is index-like, so the keys are enumerated as inserted, and
    each value is skipped or printed as [to_string] prints it. *)
Definition query_ready (fields : object) : bool :=
  forallb (fun kv => negb (index_like (fst kv)) && (nullish (snd kv) || plain (snd kv)))
          fields.

(** The query a GET sends for the entries of an object. *)
Definition query_of (fields : object) : list (string * string) :=
  omap (fun kv => if nullish (snd kv) then None else Some (fst kv, to_string (snd kv)))
       fields.

(** What the [default:] of the tool switch throws for [name]. *)
Definition unknown_tool_failure `{Platform} (name : value) : error :=
  if convertible name then new_Error ("Herramienta desconocida: " +:+ to_string name)
  else new_TypeError (engine_message (NotPrimitive name)).

(** Every scheduled interval is the heartbeat of an open stream. *)
Definition timers_ok (w : World) : Prop :=
  forall h, h ∈ intervals w ->
    exists st, streams w !! h = Some st /\ ended st = false /\ heartbeat_of st = h.

(** [w'] continues [w]: logs only grow, streams are neither dropped nor
    reopened, and what their callbacks captured stays. *)
Definition extends (w w' : World) : Prop :=
  fetched w `prefix_of` fetched w'
  /\ forall c st, streams w !! c = Some st ->
       exists st', streams w' !! c = Some st'
                   /\ written st `prefix_of` written st'
                   /\ sessionId_of st' = sessionId_of st
                   /\ heartbeat_of st' = heartbeat_of st
                   /\ (ended st = true -> ended st' = true).

(** The session identifier [GET /sse] settles on. *)
Definition chosen_sessionId (query_sessionId : option string) (random : string) : string :=
  match query_sessionId with
  | Some s => if String.eqb s "" then random else s
  | None => random
  end.

(** The four chunks [GET /sse] writes when it opens a stream. *)
Definition greeting `{Platform} (sessionId iso : string) : list string :=
  ["event: endpoint" +:+ newline;
   "data: /message?sessionId=" +:+ sessionId +:+ newline +:+ newline;
   "event: connected" +:+ newline;
   "data: " +:+ to_string (stringify (VObj [
       ("status", VStr "connected");
       ("server", VStr (env_or "MCP_SERVER_NAME" "lapalma24-mcp"));
       ("sessionId", VStr sessionId);
       ("timestamp", VStr iso)])) +:+ newline +:+ newline].

(** The two chunks of a heartbeat. *)
Definition ping_frame (iso : string) : list string :=
  ["event: ping" +:+ newline;
   "data: " +:+ to_string (stringify (VObj [("timestamp", VStr iso)]))
     +:+ newline +:+ newline].

Section Outcomes.
Context `{Platform}.

(** The ways [POST /] of [index-http.ts] can answer [message] in world
    [w], once its first log line has printed the method: the response
    and the world left behind. *)
Inductive http_case (message : object) (w : World) : http_response -> World -> Prop :=
| http_bad_envelope :
    convertible (prop message "method") = true ->
    bad_envelope message = true ->
    http_case message w
      (HttpResponse 400
         (Some (rpc_error (prop message "id") (-32600) HttpServer.invalid_request_message))) w
| http_initialize :
    bad_envelope message = false -> prop message "method" = VStr "initialize" ->
    http_case message w (res_json (rpc_result (prop message "id") initialize_result)) w
| http_not_callable :
    convertible (prop message "method") = true ->
    bad_envelope message = false ->
    truthy (prop message "method") = true ->
    (forall m, prop message "method" <> VStr m) ->
    http_case message w
      (HttpResponse 500
         (Some (rpc_error_data (prop message "id") (-32603) "Internal error"
                  (VStr (engine_message (NotAFunction "startsWith")))))) w
| http_notification m :
    bad_envelope message = false -> prop message "method" = VStr m ->
    String.prefix "notifications/" m = true ->
    http_case message w (HttpResponse 202 None) w
| http_tools_list :
    bad_envelope message = false -> prop message "method" = VStr "tools/list" ->
    http_case message w
      (res_json (rpc_result (prop message "id") (VObj [("tools", VArr tools)]))) w
| http_call_without_params :
    bad_envelope message = false -> prop message "method" = VStr "tools/call" ->
    nullish (prop message "params") = true ->
    http_case message w
      (HttpResponse 500
         (Some (rpc_error_data (prop message "id") (-32603) "Internal error"
                  (VStr (engine_message
                           (DestructureNullish "name" "message.params"
                              (prop message "params"))))))) w
| http_call_unprintable_name :
    bad_envelope message = false -> prop message "method" = VStr "tools/call" ->
    nullish (prop message "params") = false ->
    convertible (member (prop message "params") "name") = false ->
    http_case message w
      (HttpResponse 500
         (Some (rpc_error_data (prop message "id") (-32603) "Internal error"
                  (VStr (engine_message
                           (NotPrimitive (member (prop message "params") "name"))))))) w
| http_call envelope w' :
    bad_envelope message = false -> prop message "method" = VStr "tools/call" ->
    nullish (prop message "params") = false ->
    convertible (member (prop message "params") "name") = true ->
    executeTool HttpServer.API_BASE_URL (member (prop message "params") "name")
      (member (prop message "params") "arguments") w = (Returns envelope, w') ->
    http_case message w (res_json (rpc_result (prop message "id") envelope)) w'
| http_prompts_list :
    bad_envelope message = false -> prop message "method" = VStr "prompts/list" ->
    http_case message w
      (res_json (rpc_result (prop message "id") (VObj [("prompts", VArr [])]))) w
| http_resources_list :
    bad_envelope message = false -> prop message "method" = VStr "resources/list" ->
    http_case message w
      (res_json (rpc_result (prop message "id") (VObj [("resources", VArr [])]))) w
| http_method_not_found :
    bad_envelope message = false ->
    (truthy (prop message "method") = false
     \/ exists m, prop message "method" = VStr m /\ http_recognized m = false) ->
    http_case message w
      (res_json (rpc_error (prop message "id") (-32601)
                   ("Method not found: " +:+ to_string (prop message "method")))) w.

(** The ways [POST /message] of [index.ts] can end once it holds the
    stream of a registered session: the response, the chunks written on
    that stream, and the world before they were written. *)
Inductive sse_case (message : object) (w : World) :
    http_response -> list string -> World -> Prop :=
| sse_bad_envelope :
    bad_envelope message = true ->
    sse_case message w (SseServer.plain_error 400 "Invalid JSON-RPC version") [] w
| sse_tools_list :
    bad_envelope message = false -> prop message "method" = VStr "tools/list" ->
    sse_case message w accepted
      (message_frame (rpc_result (prop message "id") (VObj [("tools", VArr tools)]))) w
| sse_call_without_params :
    bad_envelope message = false -> prop message "method" = VStr "tools/call" ->
    nullish (prop message "params") = true ->
    sse_case message w
      (SseServer.plain_error 500
         (engine_message (DestructureNullish "name" "message.params"
                            (prop message "params")))) [] w
| sse_call_returned result w1 :
    bad_envelope message = false -> prop message "method" = VStr "tools/call" ->
    nullish (prop message "params") = false ->
    toolSwitch SseServer.API_BASE_URL (member (prop message "params") "name")
      (member (prop message "params") "arguments") w = (Returns result, w1) ->
    sse_case message w accepted
      (message_frame (rpc_result (prop message "id") (envelope_ok result))) w1
| sse_call_threw e w1 :
    bad_envelope message = false -> prop message "method" = VStr "tools/call" ->
    nullish (prop message "params") = false ->
    toolSwitch SseServer.API_BASE_URL (member (prop message "params") "name")
      (member (prop message "params") "arguments") w = (Throws e, w1) ->
    sse_case message w accepted
      (message_frame (rpc_error (prop message "id") (-32603) (Js.message e))) w1
| sse_initialize :
    bad_envelope message = false -> prop message "method" = VStr "initialize" ->
    sse_case message w accepted
      (message_frame (rpc_result (prop message "id") initialize_result)) w
| sse_notification m :
    bad_envelope message = false -> prop message "method" = VStr m ->
    String.prefix "notifications/" m = true ->
    sse_case message w accepted [] w
| sse_not_callable :
    bad_envelope message = false ->
    convertible (prop message "method") = true ->
    truthy (prop message "method") = true ->
    (forall m, prop message "method" <> VStr m) ->
    sse_case message w
      (SseServer.plain_error 500 (engine_message (NotAFunction "startsWith"))) [] w
| sse_unprintable_method :
    bad_envelope message = false ->
    convertible (prop message "method") = false ->
    sse_case message w
      (SseServer.plain_error 500
         (engine_message (NotPrimitive (prop message "method")))) [] w
| sse_no_method :
    bad_envelope message = false -> truthy (prop message "method") = false ->
    sse_case message w accepted [] w
| sse_unknown_notification m :
    bad_envelope message = false -> prop message "method" = VStr m ->
    m <> "" -> sse_recognized m = false -> prop message "id" = VUndefined ->
    sse_case message w accepted [] w
| sse_method_not_found m :
    bad_envelope message = false -> prop message "method" = VStr m ->
    m <> "" -> sse_recognized m = false -> prop message "id" <> VUndefined ->
    sse_case message w accepted
      (message_frame (rpc_error (prop message "id") (-32601) ("Method not found: " +:+ m))) w.

End Outcomes.

(** ** Basic facts *)

Lemma tool_cases_are_catalog_names : map VStr tool_cases = catalog_names.
Proof. reflexivity. Qed.

Lemma bad_envelope_iff (message : object) :
  bad_envelope message = false <-> prop message "jsonrpc" = VStr "2.0".
Proof.
  unfold bad_envelope. split.
  - intros Hb. apply orb_false_elim in Hb as [_ Hs].
    apply negb_false_iff in Hs. unfold is_str in Hs.
    destruct (prop message "jsonrpc"); try discriminate.
    apply String.eqb_eq in Hs. now subst.
  - intros ->. reflexivity.
Qed.

Lemma bad_envelope_true (message : object) :
  prop message "jsonrpc" <> VStr "2.0" -> bad_envelope message = true.
Proof.
  intros Hne. destruct (bad_envelope message) eqn:Hb; [reflexivity|].
  apply bad_envelope_iff in Hb. contradiction.
Qed.

Lemma not_in_dispatch_table (name : value) :
  in_dispatch_table name = false ->
  forall label, In label tool_cases -> is_str name label = false.
Proof.
  unfold in_dispatch_table. intros Hex label Hin.
  destruct (is_str name label) eqn:Hl; [|reflexivity].
  assert (existsb (is_str name) tool_cases = true) as Habs.
  { apply existsb_exists. exists label. split; assumption. }
  congruence.
Qed.

Section Facts.
Context `{Platform}.

Lemma ToString_run (v : value) (w : World) :
  ToString v w
  = (if convertible v then Returns (to_string v)
     else Throws (new_TypeError (engine_message (NotPrimitive v))), w).
Proof. unfold ToString. destruct (convertible v); reflexivity. Qed.

(** What is not convertible is an array or an object, hence truthy and
    not a string. *)
Lemma not_convertible (v : value) :
  convertible v = false -> truthy v = true /\ forall s, v <> VStr s.
Proof. destruct v; try discriminate; now split. Qed.

Lemma plain_convertible (v : value) : plain v = true -> convertible v = true.
Proof.
  revert v. fix IH 1. intros [| |b|z|s|items|fields]; try reflexivity.
  - simpl. induction items as [|x r IHr]; [reflexivity|].
    intros Hp. apply andb_true_iff in Hp as [Hx Hr].
    apply andb_true_iff. split; [|now apply IHr].
    apply orb_true_iff in Hx as [Hx|Hx]; apply orb_true_iff; [now left|right].
    now apply IH.
  - intros Hp. exact Hp.
Qed.

(** The log line of [POST /] prints what [method] would print. *)
Lemma log_line (method : value) :
  convertible (if truthy method then method else VStr "sin método") = convertible method.
Proof.
  destruct method as [| |[]|z|s|items|fields]; try reflexivity; simpl.
  - now destruct (z =? 0)%Z.
  - now destruct (String.eqb s "").
Qed.

(** An unknown name falls to the [default:] of the switch, before any
    [apiCall]. *)
Lemma toolSwitch_default (base : string) (name args : value) (w : World) :
  in_dispatch_table name = false ->
  toolSwitch base name args w = (Throws (unknown_tool_failure name), w).
Proof.
  intros Hout. pose proof (not_in_dispatch_table name Hout) as Hno.
  unfold toolSwitch.
  rewrite !Hno by (simpl; tauto).
  unfold bind, unknown_tool_failure. rewrite ToString_run.
  destruct (convertible name); reflexivity.
Qed.

(** A run that returns was one of the six tools, whose names print. *)
Lemma toolSwitch_returns (base : string) (name args result : value) (w w1 : World) :
  toolSwitch base name args w = (Returns result, w1) -> convertible name = true.
Proof.
  intros Hrun. destruct (in_dispatch_table name) eqn:Hin.
  - destruct name; try discriminate Hin. reflexivity.
  - rewrite (toolSwitch_default base name args w Hin) in Hrun. discriminate Hrun.
Qed.

(** *** Building the query of a GET *)

Lemma searchParams_run (params : value) (keys : list string) (w : World) :
  searchParams params keys w
  = (Returns (omap (fun key => let v := at_key params key in
                               if nullish v then None else Some (key, to_string v)) keys), w)
  \/ exists v, convertible v = false
       /\ searchParams params keys w
          = (Throws (new_TypeError (engine_message (NotPrimitive v))), w).
Proof.
  induction keys as [|key rest IH]; [now left|].
  cbn [searchParams]. cbv zeta. csimpl.
  destruct (nullish (at_key params key)) eqn:Hnull; [exact IH|].
  unfold bind. rewrite ToString_run.
  destruct (convertible (at_key params key)) eqn:Hconv.
  - destruct IH as [->|(v & Hv & ->)]; [now left|right; now exists v].
  - right. now exists (at_key params key).
Qed.

Lemma searchParams_returns (params : value) (keys : list string) (w : World) :
  (forall key, nullish (at_key params key) || convertible (at_key params key) = true) ->
  searchParams params keys w
  = (Returns (omap (fun key => let v := at_key params key in
                               if nullish v then None else Some (key, to_string v)) keys), w).
Proof.
  intros Hall. induction keys as [|key rest IH]; [reflexivity|].
  cbn [searchParams]. cbv zeta. csimpl. specialize (Hall key).
  destruct (nullish (at_key params key)) eqn:Hnull; [exact IH|].
  simpl in Hall. unfold bind. rewrite ToString_run, Hall, IH. reflexivity.
Qed.

Lemma prop_sendable (fields : object) (key : string) :
  forallb (fun kv => nullish (snd kv) || convertible (snd kv)) fields = true ->
  nullish (prop fields key) || convertible (prop fields key) = true.
Proof.
  induction fields as [|[k v] rest IH]; [reflexivity|]. simpl.
  intros Hall. apply andb_true_iff in Hall as [Hv Hrest].
  destruct (String.eqb k key); [exact Hv|now apply IH].
Qed.

Lemma nth_sendable (items : list value) (key : string) :
  forallb (fun x => nullish x || convertible x) items = true ->
  let v := default VUndefined
             (snd <$> List.find (fun p => String.eqb (fst p) key)
                        (combine (indices items) items)) in
  nullish v || convertible v = true.
Proof.
  intros Hall v. subst v.
  destruct (List.find _ _) as [[k x]|] eqn:Hfind; [|reflexivity].
  apply find_some in Hfind as [Hin _]. apply in_combine_r in Hin.
  simpl. rewrite forallb_forall in Hall. now apply Hall.
Qed.

Lemma chars_sendable (s : string) :
  forallb (fun x => nullish x || convertible x) (chars s) = true.
Proof. induction s as [|c r IH]; [reflexivity|exact IH]. Qed.

Lemma at_key_sendable (params : value) (key : string) :
  sendable params = true ->
  nullish (at_key params key) || convertible (at_key params key) = true.
Proof.
  destruct params as [| |b|z|s|items|fields]; try reflexivity; try discriminate; simpl.
  - intros _. apply (nth_sendable (chars s) key), chars_sendable.
  - apply nth_sendable.
  - apply prop_sendable.
Qed.

(** What [apiCall] does: it stops before any request on a GET whose
    parameters are [null] or hold a value [String] cannot convert, and
    otherwise hands one request to [fetch]. *)
Lemma apiCall_run (base endpoint : string) (params : value) (method : verb) (w : World) :
  (method = GET /\ params = VNull
   /\ apiCall base endpoint params method w
      = (Throws (new_TypeError (engine_message (KeysOfNullish VNull))), w))
  \/ (method = GET /\ sendable params = false
      /\ exists v, convertible v = false
           /\ apiCall base endpoint params method w
              = (Throws (new_TypeError (engine_message (NotPrimitive v))), w))
  \/ exists r,
       (method = POST \/ params <> VNull)
       /\ (method = GET -> params = VUndefined -> req_query r = [])
       /\ req_url r = base +:+ endpoint
       /\ req_method r = method
       /\ (method = GET -> req_body r = None)
       /\ (method = POST ->
           req_query r = []
           /\ req_body r = serialize "" ""
                             (match params with VUndefined => VObj [] | _ => params end))
       /\ (forall fields, method = GET -> params = VObj fields ->
           req_query r = omap (fun key => let v := prop fields key in
                                          if nullish v then None else Some (key, to_string v))
                              (map fst fields))
       /\ apiCall base endpoint params method w
          = (match fetch r with
             | FetchRejects e => Throws e
             | Responds status statusText payload =>
                 if ((200 <=? status) && (status <=? 299))%Z then
                   match payload with
                   | inr json => Returns json
                   | inl e => Throws e
                   end
                 else Throws (new_Error ("API Error: " +:+ pretty status +:+ " " +:+ statusText))
             end,
             set_fetched (fun log => (log ++ [r])%list) w).
Proof.
  assert (forall (r : api_request) (w0 : World),
            (let* _ := modify (set_fetched (fun log => (log ++ [r])%list)) in
             match fetch r with
             | FetchRejects e => throw e
             | Responds status statusText payload =>
                 if ((200 <=? status) && (status <=? 299))%Z then
                   match payload with
                   | inr json => ret json
                   | inl e => throw e
                   end
                 else throw (new_Error ("API Error: " +:+ pretty status +:+ " " +:+ statusText))
             end) w0
            = (match fetch r with
               | FetchRejects e => Throws e
               | Responds status statusText payload =>
                   if ((200 <=? status) && (status <=? 299))%Z then
                     match payload with
                     | inr json => Returns json
                     | inl e => Throws e
                     end
                   else Throws (new_Error ("API Error: " +:+ pretty status +:+ " " +:+ statusText))
               end,
               set_fetched (fun log => (log ++ [r])%list) w0)) as Hsend.
  { intros r w0. unfold bind, modify, ret, throw.
    destruct (fetch r) as [e|status statusText [e|json]]; [reflexivity| |];
      destruct ((200 <=? status) && (status <=? 299))%Z; reflexivity. }
  destruct method.
  - (* GET *)
    assert (params = VNull \/ params <> VNull) as [->|Hnn]
      by (destruct params; first [now left|right; discriminate]).
    { left. repeat split; reflexivity. }
    right.
    set (p := match params with VUndefined => VObj [] | _ => params end).
    assert (exists keys, Object_keys p w = (Returns keys, w)
                         /\ (forall fields, params = VObj fields -> keys = map fst fields)
                         /\ (params = VUndefined -> keys = [])) as (keys & Hkeys & Hobj & Hund).
    { subst p. destruct params as [| |b|z|s|items|fields]; try contradiction;
        eexists; (split; [reflexivity|]); (split; [|intros; first [reflexivity|discriminate]]);
        intros fields' Heq; first [discriminate|now injection Heq as <-]. }
    assert (sendable p = sendable params) as Hsame by (subst p; now destruct params).
    assert (apiCall base endpoint params GET w
            = match searchParams p keys w with
              | (Returns query, w') =>
                  (match fetch (ApiRequest (base +:+ endpoint) query GET None) with
                   | FetchRejects e => Throws e
                   | Responds status statusText payload =>
                       if ((200 <=? status) && (status <=? 299))%Z then
                         match payload with
                         | inr json => Returns json
                         | inl e => Throws e
                         end
                       else Throws (new_Error ("API Error: " +:+ pretty status +:+ " "
                                                 +:+ statusText))
                   end,
                   set_fetched (fun log =>
                     (log ++ [ApiRequest (base +:+ endpoint) query GET None])%list) w')
              | (Throws e, w') => (Throws e, w')
              end) as Hrun.
    { unfold apiCall. cbv zeta. fold p. unfold bind at 1. unfold bind at 1.
      rewrite Hkeys. destruct (searchParams p keys w) as [[query|e] w']; [|reflexivity].
      apply Hsend. }
    destruct (searchParams_run p keys w) as [Hret|(v & Hv & Hthrow)].
    + right. rewrite Hret in Hrun.
      match type of Hrun with context [fetch ?R] => exists R end.
      split; [now right|]. split.
      { intros _ Hu. cbn [req_query]. now rewrite (Hund Hu). }
      split; [reflexivity|]. split; [reflexivity|]. split; [reflexivity|].
      split; [discriminate|]. split; [|exact Hrun].
      intros fields _ Hf. cbn [req_query]. rewrite (Hobj fields Hf).
      subst p. rewrite Hf. reflexivity.
    + left. split; [reflexivity|]. split.
      { destruct (sendable params) eqn:Hs; [|reflexivity].
        rewrite searchParams_returns in Hthrow
          by (intros key; apply at_key_sendable; congruence).
        discriminate Hthrow. }
      exists v. split; [exact Hv|]. now rewrite Hrun, Hthrow.
  - (* POST *)
    right. right.
    exists (ApiRequest (base +:+ endpoint) [] POST
              (serialize "" "" (match params with VUndefined => VObj [] | _ => params end))).
    split; [now left|]. split; [discriminate|].
    split; [reflexivity|]. split; [reflexivity|]. split; [discriminate|].
    split; [intros _; split; reflexivity|]. split; [discriminate|].
    unfold apiCall. cbv zeta. unfold bind at 1. unfold ret at 1. cbv beta iota.
    rewrite Hsend. unfold stringify.
    destruct params as [| |[]|z|s|items|fields]; reflexivity.
Qed.

(** [executeTool] never throws: whatever the switch throws ends up in an
    [isError] envelope. *)
Lemma executeTool_total (base : string) (name args : value) (w : World) :
  exists envelope w', executeTool base name args w = (Returns envelope, w')
    /\ match toolSwitch base name args w with
       | (Returns result, w1) => envelope = envelope_ok result /\ w' = w1
       | (Throws e, w1) => envelope = envelope_error e /\ w' = w1
       end.
Proof.
  unfold executeTool, try_catch, bind, ret.
  destruct (toolSwitch base name args w) as [[result|e] w1]; eauto.
Qed.

End Facts.

(** ** Writing on a stream *)

Lemma deliver_deliver (c : nat) (xs ys : list string) (l : list stream) :
  deliver c ys (deliver c xs l) = deliver c (xs ++ ys)%list l.
Proof.
  unfold deliver. rewrite list_alter_alter_eq.
  apply list_alter_ext; [|reflexivity]. intros st _. simpl.
  destruct st as [chunks [] sid hb]; simpl; [reflexivity|].
  now rewrite <- app_assoc.
Qed.

Section Writing.
Context `{Platform}.

Lemma write_event_deliver (c : nat) (event data : string) (w : World) :
  SseServer.write_event c event data w
  = (Returns tt,
     set_streams (deliver c ["event: " +:+ event +:+ newline;
                             "data: " +:+ data +:+ newline +:+ newline]) w).
Proof.
  unfold SseServer.write_event, SseServer.write, bind, modify, set_streams. simpl.
  f_equal. f_equal. apply (deliver_deliver c [_] [_]).
Qed.

Lemma write_message_deliver (c : nat) (response : value) (w : World) :
  SseServer.write_message c response w
  = (Returns tt, set_streams (deliver c (message_frame response)) w).
Proof. unfold SseServer.write_message. apply write_event_deliver. Qed.

(** The prologue of [post_message] for a request that names a registered
    session: what is left is the [try] block. *)
Lemma addressed_lookup (q h : option string) (w : World) (ses : session) :
  addressed q h w ses ->
  exists sid, SseServer.or_else q h = Some sid
              /\ String.eqb sid "" = false /\ sessions w !! sid = Some ses.
Proof.
  intros (sid & Hor & Hne & Hget). exists sid. repeat split; try assumption.
  now apply String.eqb_neq.
Qed.

(** The [try] block of [post_message] past the envelope check: answer
    500 when the log line cannot print the method or the dispatch
    throws, acknowledge when the dispatch returns. *)
Lemma sse_try_block (v : value) (dispatch : M unit) (w : World) :
  try_catch (let* _ := ToString v in
             let* _ := dispatch in
             ret (HttpResponse 202 (Some (VObj [("status", VStr "accepted")]))))
            (fun e => ret (SseServer.plain_error 500 (Js.message e))) w
  = if convertible v then
      match dispatch w with
      | (Returns _, w') => (Returns accepted, w')
      | (Throws e, w') => (Returns (SseServer.plain_error 500 (Js.message e)), w')
      end
    else (Returns (SseServer.plain_error 500 (engine_message (NotPrimitive v))), w).
Proof.
  unfold try_catch, bind. rewrite ToString_run.
  destruct (convertible v); [|reflexivity].
  unfold ret. destruct (dispatch w) as [[[]|e] w']; reflexivity.
Qed.

End Writing.

Ltac enter_root Hprint :=
  unfold HttpServer.post_root; unfold bind at 1;
  rewrite ToString_run, log_line, Hprint; cbv beta iota.

Ltac enter_session Haddr :=
  let sid := fresh "sid" in
  let Hor := fresh "Hor" in
  let Hne := fresh "Hne" in
  let Hget := fresh "Hget" in
  apply addressed_lookup in Haddr as (sid & Hor & Hne & Hget);
  unfold SseServer.post_message; rewrite Hor, Hne;
  unfold bind at 1; unfold gets at 1; cbv beta iota; rewrite Hget.

(** ** The claims *)

Section Claims.
Context `{Platform}.

(** C5, as amended. For every name outside the dispatch table and every
    argument value, [executeTool] (and the stdio handler, which shares its
    body) makes no backend call and throws nothing: it returns, in the
    world it started from, the envelope of the failure the [default:]
    case threw, with [isError: true]. For a name that is a string, the
    envelope's text is the pretty JSON of [{success:false,
    error:"Herramienta desconocida: <name>", details:"Error: Herramienta
    desconocida: <name>"}]. *)
Theorem unknown_tool_envelope (base : string) (name args : value) (w : World) :
  in_dispatch_table name = false ->
  exists failure,
    executeTool base name args w = (Returns (envelope_error failure), w)
    /\ SseServer.CallToolRequest_handler
         (VObj [("name", name); ("arguments", args)]) w
       = (Returns (envelope_error failure), w)
    /\ member (envelope_error failure) "isError" = VBool true
    /\ forall n, name = VStr n ->
         let msg := "Herramienta desconocida: " +:+ n in
         envelope_error failure
         = VObj [("content",
                  VArr [VObj [("type", VStr "text");
                              ("text", stringify_pretty
                                         (VObj [("success", VBool false);
                                                ("error", VStr msg);
                                                ("details", VStr ("Error: " +:+ msg))]))]]);
                 ("isError", VBool true)].
Proof.
  intros Hout. exists (unknown_tool_failure name).
  assert (executeTool base name args w
          = (Returns (envelope_error (unknown_tool_failure name)), w)) as Hrun.
  { unfold executeTool, try_catch, bind.
    rewrite (toolSwitch_default base name args w Hout). reflexivity. }
  split; [exact Hrun|]. split; [|split; [reflexivity|]].
  - unfold SseServer.CallToolRequest_handler, destructurable, bind. simpl.
    unfold executeTool, try_catch, bind.
    rewrite (toolSwitch_default _ name args w Hout). reflexivity.
  - intros n -> msg. reflexivity.
Qed.

(** C9. A [tools/list] request with an id is answered, on both
    transports, with [{tools}] where [tools] is the catalog itself: the
    names in the result are the catalog's names in the catalog's order.
    Over HTTP the reply is the response body; on the streaming transport
    it is written as a [message] event on the session's stream. *)
Theorem tools_list_returns_catalog (message : object) (w : World)
    (q h : option string) (ses : session) :
  prop message "jsonrpc" = VStr "2.0" ->
  prop message "method" = VStr "tools/list" ->
  prop message "id" <> VUndefined ->
  let reply := rpc_result (prop message "id") (VObj [("tools", VArr tools)]) in
  tool_names (member reply "result") = catalog_names
  /\ catalog_names = map VStr tool_cases
  /\ HttpServer.post_root message w = (Returns (res_json reply), w)
  /\ (addressed q h w ses ->
      SseServer.post_message q h message w
      = (Returns accepted, set_streams (deliver (res ses) (message_frame reply)) w)).
Proof.
  intros Hrpc Hmethod _ reply.
  assert (bad_envelope message = false) as Hok by now apply bad_envelope_iff.
  split; [reflexivity|]. split; [reflexivity|]. split.
  - unfold HttpServer.post_root. rewrite Hok, Hmethod. reflexivity.
  - intros Haddr. enter_session Haddr.
    rewrite Hok, sse_try_block, Hmethod. cbn [convertible].
    change (is_str (VStr "tools/list") "tools/list") with true. cbv beta iota.
    rewrite write_message_deliver. reflexivity.
Qed.

(** C10. On the streaming transport, a message with [jsonrpc: "2.0"] and
    no [method] at all, sent to a registered session, is acknowledged with
    202 and changes nothing: no event is written on the stream, whether or
    not the message has an id. *)
Theorem missing_method_is_dropped (message : object) (w : World)
    (q h : option string) (ses : session) :
  addressed q h w ses ->
  prop message "jsonrpc" = VStr "2.0" ->
  prop message "method" = VUndefined ->
  SseServer.post_message q h message w = (Returns accepted, w).
Proof.
  intros Haddr Hrpc Hmethod.
  assert (bad_envelope message = false) as Hok by now apply bad_envelope_iff.
  enter_session Haddr.
  unfold try_catch. rewrite Hok, Hmethod. reflexivity.
Qed.

(** C7. An injection that carries no session identifier, in the query or
    in the header (an empty one counts as none), is answered 400; one whose identifier is not in the
    registry, because it was never opened or because its stream was
    closed, is answered 404. In each case the world is left as it was: no
    dispatch, no backend call, nothing written on any stream. *)
Theorem injection_without_session_is_rejected (message : object) (w : World)
    (q h : option string) :
  ((q = None \/ q = Some "") -> (h = None \/ h = Some "") ->
   SseServer.post_message q h message w
   = (Returns (SseServer.plain_error 400 "Missing sessionId"), w))
  /\ (forall sid, SseServer.or_else q h = Some sid -> sid <> "" ->
      sessions w !! sid = None ->
      SseServer.post_message q h message w
      = (Returns (SseServer.plain_error 404 "Session not found"), w))
  /\ (forall c st, streams w !! c = Some st ->
      SseServer.or_else q h = Some (sessionId_of st) -> sessionId_of st <> "" ->
      let w' := snd (SseServer.on_close c w) in
      SseServer.post_message q h message w'
      = (Returns (SseServer.plain_error 404 "Session not found"), w')).
Proof.
  assert (forall w0 sid, SseServer.or_else q h = Some sid -> sid <> "" ->
            sessions w0 !! sid = None ->
            SseServer.post_message q h message w0
            = (Returns (SseServer.plain_error 404 "Session not found"), w0)) as Hmiss.
  { intros w0 sid Hor Hne Hget. apply String.eqb_neq in Hne.
    unfold SseServer.post_message. rewrite Hor, Hne.
    unfold bind, gets. rewrite Hget. reflexivity. }
  split; [|split].
  - intros [->| ->] [->| ->]; reflexivity.
  - intros sid. apply Hmiss.
  - intros c st Hst Hor Hne w'. apply (Hmiss w' _ Hor Hne).
    subst w'. unfold SseServer.on_close, bind, gets, modify, SseServer.clearInterval.
    rewrite Hst. simpl. apply lookup_delete_eq.
Qed.

(** C2, as amended. A message whose [jsonrpc] is missing or is not exactly
    "2.0" is turned away before [method] is dispatched on, leaving the
    world as it was. Over HTTP the answer is status 400 with a JSON-RPC
    error of code -32600, for every [method] the handler's first log line
    can print: every string, number, boolean, [null] or absent method,
    and every array or object [String] converts. On the streaming
    transport, for a registered session and whatever the method, the
    injection request is answered 400 with the plain body
    [{error: "Invalid JSON-RPC version"}] and nothing is written on the
    stream. *)
Theorem bad_envelope_is_rejected (message : object) :
  prop message "jsonrpc" <> VStr "2.0" ->
  let reply := rpc_error (prop message "id") (-32600) HttpServer.invalid_request_message in
  is_rpc_error (-32600) reply
  /\ (forall w, convertible (prop message "method") = true ->
      HttpServer.post_root message w = (Returns (HttpResponse 400 (Some reply)), w))
  /\ (forall q h ses w, addressed q h w ses ->
      SseServer.post_message q h message w
      = (Returns (SseServer.plain_error 400 "Invalid JSON-RPC version"), w)).
Proof.
  intros Hbad reply. apply bad_envelope_true in Hbad.
  split; [split; reflexivity|]. split.
  - intros w Hprint. unfold HttpServer.post_root, bind.
    rewrite ToString_run, log_line, Hprint, Hbad. reflexivity.
  - intros q h ses w Haddr. enter_session Haddr.
    unfold try_catch. rewrite Hbad. reflexivity.
Qed.

(** *** What a tool run may touch *)

Lemma apiCall_only_fetches (base endpoint : string) (params : value) (method : verb)
    (w : World) :
  only_fetches w (snd (apiCall base endpoint params method w)).
Proof.
  destruct (apiCall_run base endpoint params method w)
    as [(_ & _ & ->)|[(_ & _ & v & _ & ->)|(r & _ & _ & _ & _ & _ & _ & _ & ->)]];
    repeat split.
Qed.

Lemma toolSwitch_only_fetches (base : string) (name args : value) (w : World) :
  only_fetches w (snd (toolSwitch base name args w)).
Proof.
  unfold toolSwitch.
  repeat match goal with
         | |- context [if is_str name ?l then _ else _] => destruct (is_str name l)
         end;
    try apply apiCall_only_fetches.
  - unfold bind, destructurable. destruct (nullish args); simpl; [repeat split|].
    rewrite ToString_run. destruct (convertible (member args "id_casa")).
    + apply apiCall_only_fetches.
    + repeat split.
  - unfold bind. rewrite ToString_run. destruct (convertible name); repeat split.
Qed.

(** A method that starts with [notifications/] is none of the request
    methods, and is not empty. *)
Lemma notification_is_no_request (m : string) :
  String.prefix "notifications/" m = true ->
  String.eqb m "" = false
  /\ String.eqb m "initialize" = false
  /\ String.eqb m "tools/list" = false
  /\ String.eqb m "tools/call" = false.
Proof.
  intros Hpre.
  repeat split;
    match goal with
    | |- String.eqb m ?lit = false =>
        destruct (String.eqb m lit) eqn:Heq; [|reflexivity];
        apply String.eqb_eq in Heq; subst m; discriminate Hpre
    end.
Qed.

(** C3, as amended. Take a message with [jsonrpc: "2.0"], no id, and a
    string [method]. If the method starts with [notifications/], no
    response frame is produced on either transport: HTTP answers 202 with
    no body, and the streaming transport acknowledges the injection and
    writes nothing. On the streaming transport the same holds for every
    method other than [tools/list], [tools/call] and [initialize]. *)
Theorem notifications_get_no_reply (message : object) (m : string) (w : World)
    (q h : option string) (ses : session) :
  prop message "jsonrpc" = VStr "2.0" ->
  prop message "id" = VUndefined ->
  prop message "method" = VStr m ->
  (String.prefix "notifications/" m = true ->
   HttpServer.post_root message w = (Returns (HttpResponse 202 None), w)
   /\ (addressed q h w ses ->
       SseServer.post_message q h message w = (Returns accepted, w)))
  /\ (m <> "tools/list" -> m <> "tools/call" -> m <> "initialize" ->
      addressed q h w ses ->
      SseServer.post_message q h message w = (Returns accepted, w)).
Proof.
  intros Hrpc Hid Hmethod.
  assert (bad_envelope message = false) as Hok by now apply bad_envelope_iff.
  assert (String.eqb m "tools/list" = false -> String.eqb m "tools/call" = false ->
          String.eqb m "initialize" = false -> addressed q h w ses ->
          SseServer.post_message q h message w = (Returns accepted, w)) as Hsse.
  { intros Hl Hc Hi Haddr. enter_session Haddr.
    unfold try_catch. rewrite Hok, Hmethod, Hid.
    unfold is_str. rewrite Hl, Hc, Hi.
    destruct (String.eqb m "notifications/initialized"); [reflexivity|].
    unfold bind, method_startsWith, truthy.
    destruct (String.eqb m ""); [reflexivity|]. simpl.
    destruct (String.prefix "notifications/" m); reflexivity. }
  split.
  - intros Hpre. destruct (notification_is_no_request m Hpre) as (He & Hi & Hl & Hc).
    split; [|now apply Hsse].
    unfold HttpServer.post_root. rewrite Hok, Hmethod.
    unfold is_str. rewrite Hi.
    unfold bind, method_startsWith, truthy. rewrite He. simpl. now rewrite Hpre.
  - intros Hl Hc Hi. apply Hsse; now apply String.eqb_neq.
Qed.

(** Over HTTP a [tools/call] that has [params] and a [name] the log can
    print always comes back as a JSON-RPC result, whatever the tool run
    did. *)
Lemma http_tools_call_is_result (message : object) (w : World) :
  prop message "jsonrpc" = VStr "2.0" ->
  prop message "method" = VStr "tools/call" ->
  nullish (prop message "params") = false ->
  convertible (member (prop message "params") "name") = true ->
  exists envelope w',
    HttpServer.post_root message w
    = (Returns (res_json (rpc_result (prop message "id") envelope)), w').
Proof.
  intros Hrpc Hmethod Hparams Hname.
  assert (bad_envelope message = false) as Hok by now apply bad_envelope_iff.
  assert (convertible (prop message "method") = true) as Hprint by now rewrite Hmethod.
  destruct (executeTool_total HttpServer.API_BASE_URL
              (member (prop message "params") "name")
              (member (prop message "params") "arguments") w)
    as (envelope & w' & Hrun & _).
  exists envelope, w'.
  enter_root Hprint. rewrite Hok, Hmethod.
  change (is_str (VStr "tools/call") "initialize") with false.
  change (is_str (VStr "tools/call") "tools/list") with false.
  change (is_str (VStr "tools/call") "tools/call") with true. cbv beta iota.
  unfold try_catch, bind, method_startsWith. simpl.
  unfold destructurable. rewrite Hparams. unfold ret at 1. cbv beta iota.
  rewrite ToString_run, Hname, Hrun. reflexivity.
Qed.

Lemma deliver_nothing (c : nat) (l : list stream) : deliver c [] l = l.
Proof.
  unfold deliver. apply list_alter_id. intros [chunks [] sid hb]; simpl; [reflexivity|].
  now rewrite app_nil_r.
Qed.

(** On the streaming transport a failing tool run is written on the
    stream as a JSON-RPC error of code -32603 carrying the failure's
    message. *)
Lemma sse_tool_failure_is_rpc_error (message : object) (w w1 : World)
    (q h : option string) (ses : session) (e : error) :
  addressed q h w ses ->
  prop message "jsonrpc" = VStr "2.0" ->
  prop message "method" = VStr "tools/call" ->
  nullish (prop message "params") = false ->
  toolSwitch SseServer.API_BASE_URL (member (prop message "params") "name")
             (member (prop message "params") "arguments") w = (Throws e, w1) ->
  SseServer.post_message q h message w
  = (Returns accepted,
     set_streams (deliver (res ses)
                    (message_frame (rpc_error (prop message "id") (-32603) (Js.message e)))) w1).
Proof.
  intros Haddr Hrpc Hmethod Hparams Hrun.
  assert (bad_envelope message = false) as Hok by now apply bad_envelope_iff.
  enter_session Haddr.
  rewrite Hok, sse_try_block, Hmethod. cbn [convertible].
  change (is_str (VStr "tools/call") "tools/list") with false.
  change (is_str (VStr "tools/call") "tools/call") with true. cbv beta iota.
  unfold bind, destructurable. rewrite Hparams. unfold ret at 1. cbv beta iota.
  unfold try_catch. rewrite Hrun. rewrite write_message_deliver. reflexivity.
Qed.

(** Over HTTP the same failure comes back as a successful JSON-RPC result
    whose envelope has [isError: true]. *)
Lemma http_tool_failure_is_result (message : object) (w w1 : World) (e : error) :
  prop message "jsonrpc" = VStr "2.0" ->
  prop message "method" = VStr "tools/call" ->
  nullish (prop message "params") = false ->
  convertible (member (prop message "params") "name") = true ->
  toolSwitch HttpServer.API_BASE_URL (member (prop message "params") "name")
             (member (prop message "params") "arguments") w = (Throws e, w1) ->
  HttpServer.post_root message w
  = (Returns (res_json (rpc_result (prop message "id") (envelope_error e))), w1)
  /\ is_tool_error_result (rpc_result (prop message "id") (envelope_error e)).
Proof.
  intros Hrpc Hmethod Hparams Hname Hrun.
  assert (bad_envelope message = false) as Hok by now apply bad_envelope_iff.
  assert (convertible (prop message "method") = true) as Hprint by now rewrite Hmethod.
  split; [|repeat split].
  enter_root Hprint. rewrite Hok, Hmethod.
  change (is_str (VStr "tools/call") "initialize") with false.
  change (is_str (VStr "tools/call") "tools/list") with false.
  change (is_str (VStr "tools/call") "tools/call") with true. cbv beta iota.
  unfold try_catch, bind, method_startsWith. simpl.
  unfold destructurable. rewrite Hparams. unfold ret at 1. cbv beta iota.
  rewrite ToString_run, Hname.
  unfold executeTool, try_catch, bind. rewrite Hrun. reflexivity.
Qed.

(** *** Closing a stream *)

Lemma on_close_run (c : nat) (w : World) :
  SseServer.on_close c w = (Returns tt, after_close c w).
Proof.
  unfold SseServer.on_close, after_close, bind, gets, modify, SseServer.clearInterval.
  destruct (streams w !! c); reflexivity.
Qed.

Lemma after_close_twice (c : nat) (w : World) :
  after_close c (after_close c w) = after_close c w.
Proof.
  unfold after_close at 2. destruct (streams w !! c) as [st|] eqn:Hst.
  - unfold after_close. cbn [streams sessions intervals fetched].
    rewrite list_lookup_alter_eq, Hst. cbn.
    f_equal.
    + apply delete_delete_eq.
    + set_solver.
    + rewrite list_alter_alter_eq. apply list_alter_ext; [|reflexivity].
      intros [chunks fin sid hb] _. reflexivity.
  - unfold after_close. now rewrite Hst.
Qed.

Lemma heartbeat_tick_after_close (c : nat) (w : World) (iso : string)
    (broken : option error) :
  SseServer.heartbeat_tick c iso broken (after_close c w) = (Returns tt, after_close c w).
Proof.
  unfold SseServer.heartbeat_tick, bind, gets.
  unfold after_close. destruct (streams w !! c) as [st|] eqn:Hst.
  - cbn [streams intervals]. rewrite list_lookup_alter_eq, Hst. cbn.
    destruct (decide (heartbeat_of st ∈ intervals w ∖ {[heartbeat_of st]})) as [Hin|_];
      [set_solver|reflexivity].
  - rewrite Hst. reflexivity.
Qed.

Lemma close_after_failed_heartbeat (c : nat) (w : World) (iso : string) (e : error) :
  after_close c (snd (SseServer.heartbeat_tick c iso (Some e) w)) = after_close c w.
Proof.
  unfold SseServer.heartbeat_tick, bind, gets.
  destruct (streams w !! c) as [st|] eqn:Hst; [|reflexivity].
  destruct (decide (heartbeat_of st ∈ intervals w)); [|reflexivity].
  unfold try_catch, throw, SseServer.clearInterval, modify, after_close. cbn.
  rewrite Hst. f_equal. set_solver.
Qed.

Lemma after_close_of_closed (c : nat) (w : World) (st : stream) :
  streams w !! c = Some st -> ended st = true ->
  sessions w !! sessionId_of st = None -> heartbeat_of st ∉ intervals w ->
  after_close c w = w.
Proof.
  intros Hst Hended Hgone Hcleared. unfold after_close. rewrite Hst.
  destruct w as [registry timers opened log]. cbn in *. f_equal.
  - now apply delete_id.
  - set_solver.
  - apply list_eq. intros j. rewrite list_lookup_alter.
    destruct (decide (c = j)) as [<-|]; [|reflexivity].
    rewrite Hst. destruct st as [chunks fin sid hb]. cbn in Hended. now subst fin.
Qed.

(** *** Handlers that leave the registry alone *)

Lemma same_registry_refl (w : World) : same_registry w w.
Proof. split; [reflexivity|]. intros c. reflexivity. Qed.

Lemma same_registry_trans (w1 w2 w3 : World) :
  same_registry w1 w2 -> same_registry w2 w3 -> same_registry w1 w3.
Proof.
  intros [Hs12 Hl12] [Hs23 Hl23]. split; [congruence|].
  intros c. now rewrite Hl23, Hl12.
Qed.

Lemma only_fetches_same_registry (w w' : World) :
  only_fetches w w' -> same_registry w w'.
Proof. intros (Hs & _ & Hl). split; [exact Hs|]. intros c. now rewrite Hl. Qed.

Lemma deliver_shape (c : nat) (chunks : list string) (l : list stream) (j : nat) :
  shape <$> (deliver c chunks l !! j) = shape <$> (l !! j).
Proof.
  unfold deliver. rewrite list_lookup_alter.
  destruct (decide (c = j)) as [->|]; [|reflexivity].
  destruct (l !! j) as [[written [] sid hb]|]; reflexivity.
Qed.

Lemma quiet_ret {A} (a : A) : quiet (ret a).
Proof. intros w. apply same_registry_refl. Qed.

Lemma quiet_throw {A} (e : error) : quiet (@throw A e).
Proof. intros w. apply same_registry_refl. Qed.

Lemma quiet_gets {A} (f : World -> A) : quiet (gets f).
Proof. intros w. apply same_registry_refl. Qed.

Lemma quiet_bind {A B} (m : M A) (k : A -> M B) :
  quiet m -> (forall a, quiet (k a)) -> quiet (bind m k).
Proof.
  intros Hm Hk w. unfold bind. specialize (Hm w).
  destruct (m w) as [[a|e] w1]; simpl in Hm.
  - eapply same_registry_trans; [exact Hm|]. apply Hk.
  - exact Hm.
Qed.

Lemma quiet_try_catch {A} (m : M A) (handler : error -> M A) :
  quiet m -> (forall e, quiet (handler e)) -> quiet (try_catch m handler).
Proof.
  intros Hm Hh w. unfold try_catch. specialize (Hm w).
  destruct (m w) as [[a|e] w1]; simpl in Hm.
  - exact Hm.
  - eapply same_registry_trans; [exact Hm|]. apply Hh.
Qed.

Lemma quiet_toolSwitch (base : string) (name args : value) :
  quiet (toolSwitch base name args).
Proof. intros w. apply only_fetches_same_registry, toolSwitch_only_fetches. Qed.

Lemma quiet_write_event (c : nat) (event data : string) :
  quiet (SseServer.write_event c event data).
Proof.
  intros w. rewrite write_event_deliver. split; [reflexivity|].
  intros j. apply deliver_shape.
Qed.

Lemma quiet_clearInterval (t : nat) : quiet (SseServer.clearInterval t).
Proof. intros w. split; [reflexivity|]. intros c. reflexivity. Qed.

Lemma quiet_destructurable (property source : string) (v : value) :
  quiet (destructurable property source v).
Proof. unfold destructurable. destruct (nullish v); [apply quiet_throw|apply quiet_ret]. Qed.

Lemma quiet_ToString (v : value) : quiet (ToString v).
Proof. unfold ToString. destruct (convertible v); [apply quiet_ret|apply quiet_throw]. Qed.

Lemma quiet_method_startsWith (method : value) (prefix : string) :
  quiet (method_startsWith method prefix).
Proof.
  unfold method_startsWith.
  destruct (truthy method); [|apply quiet_ret].
  destruct method; first [apply quiet_ret | apply quiet_throw].
Qed.

Ltac quiet_step :=
  lazymatch goal with
  | |- quiet (ret _) => apply quiet_ret
  | |- quiet (throw _) => apply quiet_throw
  | |- quiet (gets _) => apply quiet_gets
  | |- quiet (toolSwitch _ _ _) => apply quiet_toolSwitch
  | |- quiet (destructurable _ _ _) => apply quiet_destructurable
  | |- quiet (ToString _) => apply quiet_ToString
  | |- quiet (method_startsWith _ _) => apply quiet_method_startsWith
  | |- quiet (SseServer.clearInterval _) => apply quiet_clearInterval
  | |- quiet (SseServer.write_event _ _ _) => apply quiet_write_event
  | |- quiet (SseServer.write_message _ _) => apply quiet_write_event
  | |- quiet (bind _ _) => apply quiet_bind; [|intros ?]
  | |- quiet (try_catch _ _) => apply quiet_try_catch; [|intros ?]
  | |- quiet (if ?b then _ else _) => destruct b
  | |- quiet (match ?x with _ => _ end) => destruct x
  end.

Lemma quiet_post_message (q h : option string) (message : object) :
  quiet (SseServer.post_message q h message).
Proof. unfold SseServer.post_message. cbv zeta. repeat quiet_step. Qed.

Lemma quiet_heartbeat_tick (c : nat) (iso : string) (broken : option error) :
  quiet (SseServer.heartbeat_tick c iso broken).
Proof. unfold SseServer.heartbeat_tick. cbv zeta. repeat quiet_step. Qed.

(** *** The registry invariant *)

Lemma shape_lookup (l l' : list stream) (j : nat) (st : stream) :
  shape <$> (l' !! j) = shape <$> (l !! j) ->
  l !! j = Some st ->
  exists st', l' !! j = Some st'
              /\ ended st' = ended st /\ sessionId_of st' = sessionId_of st.
Proof.
  intros Hshape Hst. rewrite Hst in Hshape.
  destruct (l' !! j) as [st'|]; [|discriminate].
  exists st'. injection Hshape as He Hs Hh. auto.
Qed.

Lemma registry_ok_same (w w' : World) :
  same_registry w w' -> registry_ok w -> registry_ok w'.
Proof.
  intros [Hs Hl] Hok sid ses Hget. rewrite Hs in Hget.
  destruct (Hok sid ses Hget) as (st & Hst & Hlive & Hsid).
  destruct (shape_lookup _ _ _ _ (Hl (res ses)) Hst) as (st' & Hst' & He & Hi).
  exists st'. repeat split; congruence.
Qed.

Lemma registry_ok_boot : registry_ok boot.
Proof. intros sid ses Hget. unfold boot in Hget. simpl in Hget. now rewrite lookup_empty in Hget. Qed.

Lemma deliver_last (l : list stream) (ws chunks : list string) (sid : string) (hb : nat) :
  deliver (length l) chunks (l ++ [Stream ws false sid hb])
  = (l ++ [Stream (ws ++ chunks) false sid hb])%list.
Proof.
  unfold deliver.
  replace (length l) with (length l + 0) at 1 by lia.
  rewrite alter_app_r. reflexivity.
Qed.

(** [GET /sse] in closed form: nothing happens when [writeHead] refuses
    the identifier; otherwise the stream is opened, registered, greeted
    and given its heartbeat. *)
Lemma get_sse_run (q : option string) (random : string) (now : Z) (iso : string)
    (w : World) :
  SseServer.get_sse q random now iso w
  = if header_value_ok (chosen_sessionId q random) then
      (Returns (length (streams w)),
       mkWorld (<[chosen_sessionId q random := Session (length (streams w)) now]> (sessions w))
               (intervals w ∪ {[length (streams w)]})
               (streams w ++ [Stream (greeting (chosen_sessionId q random) iso) false
                                (chosen_sessionId q random) (length (streams w))])
               (fetched w))
    else (Throws (new_TypeError (engine_message (InvalidHeaderChar "X-Session-Id"))), w).
Proof.
  unfold SseServer.get_sse. cbv zeta. fold (chosen_sessionId q random).
  unfold bind at 1. destruct (header_value_ok (chosen_sessionId q random)); [|reflexivity].
  unfold ret at 1. cbv beta iota.
  unfold bind, gets, modify.
  rewrite !write_event_deliver. unfold ret, set_streams, set_sessions, set_intervals.
  cbn [sessions streams intervals fetched].
  rewrite !deliver_last. reflexivity.
Qed.

Lemma registry_ok_get_sse (q : option string) (random : string) (now : Z) (iso : string)
    (w : World) :
  registry_ok w -> registry_ok (snd (SseServer.get_sse q random now iso w)).
Proof.
  intros Hok. rewrite get_sse_run.
  destruct (header_value_ok (chosen_sessionId q random)); [|exact Hok].
  cbn [snd]. intros sid' ses'. cbn [sessions streams].
  rewrite lookup_insert_Some. intros [[<- <-]|[Hne Hget]].
  - cbn [res]. eexists. split; [apply list_lookup_middle; reflexivity|]. now split.
  - destruct (Hok sid' ses' Hget) as (st & Hst & Hlive & Hsid).
    exists st. split; [|now split].
    rewrite lookup_app_l; [exact Hst|]. eapply lookup_lt_Some; exact Hst.
Qed.

Lemma registry_ok_after_close (c : nat) (w : World) :
  registry_ok w -> registry_ok (after_close c w).
Proof.
  intros Hok. unfold after_close.
  destruct (streams w !! c) as [st|] eqn:Hst; [|exact Hok].
  intros sid ses. cbn [sessions streams].
  rewrite lookup_delete_Some. intros [Hne Hget].
  destruct (Hok sid ses Hget) as (st' & Hst' & Hlive & Hsid).
  exists st'. repeat split; try assumption.
  rewrite list_lookup_alter_ne; [exact Hst'|].
  intros ->. rewrite Hst in Hst'. injection Hst' as ->. congruence.
Qed.

Lemma registry_ok_step (w : World) (ev : SseServer.event) :
  registry_ok w -> registry_ok (SseServer.step w ev).
Proof.
  intros Hok. destruct ev as [q random now iso|c iso broken|c|q h message]; simpl.
  - now apply registry_ok_get_sse.
  - eapply registry_ok_same; [apply quiet_heartbeat_tick|exact Hok].
  - rewrite on_close_run. now apply registry_ok_after_close.
  - eapply registry_ok_same; [apply quiet_post_message|exact Hok].
Qed.

Lemma registry_ok_run (evs : list SseServer.event) (w : World) :
  registry_ok w -> registry_ok (SseServer.run evs w).
Proof.
  revert w. induction evs as [|ev evs IH]; intros w Hok; [exact Hok|].
  simpl. apply IH. now apply registry_ok_step.
Qed.

(** C4. After any sequence of opens, heartbeats, closes and injections
    starting from an empty registry (opens may reuse an identifier that
    is already registered): every identifier in the registry maps to one
    handle, and that handle is a stream opened under that identifier that
    has not been closed; right after a stream is closed, looking up its
    identifier finds nothing; and a closed stream is never what a lookup
    returns. *)
Theorem registry_invariant (evs : list SseServer.event) :
  let w := SseServer.run evs boot in
  registry_ok w
  /\ (forall sid a b, sessions w !! sid = Some a -> sessions w !! sid = Some b -> a = b)
  /\ (forall c st, streams w !! c = Some st ->
      sessions (SseServer.step w (SseServer.Close c)) !! sessionId_of st = None)
  /\ (forall c st sid ses, streams w !! c = Some st -> ended st = true ->
      sessions w !! sid = Some ses -> res ses <> c).
Proof.
  intros w. assert (registry_ok w) as Hok by apply registry_ok_run, registry_ok_boot.
  split; [exact Hok|]. split; [congruence|]. split.
  - intros c st Hst. simpl. rewrite on_close_run. cbn [snd].
    unfold after_close. rewrite Hst. apply lookup_delete_eq.
  - intros c st sid ses Hst Hended Hget Heq. subst c.
    destruct (Hok sid ses Hget) as (st' & Hst' & Hlive & _). congruence.
Qed.

End Claims.

(** ** The handlers at concrete inputs *)

Ltac abc_addressed :=
  exists "abc"; split; [reflexivity|]; split; [discriminate|vm_compute; reflexivity].

(** C1, where the code departs from it. On the streaming transport a
    [tools/call] for an unknown tool, and one the backend rejects with
    400, are each answered on the stream with a JSON-RPC error object of
    code -32603, not with a result whose envelope has [isError: true]; the
    same message over HTTP gets such a result. *)
Theorem sse_tool_failure_at_unknown_tool :
  let message := request 1 "tools/call" (call_params "nope" (VObj [])) in
  let frame := rpc_error (VNum 1) (-32603) "Herramienta desconocida: nope" in
  let search := request 2 "tools/call"
                  (call_params "buscar_disponibilidad"
                     (VObj [("fecha_llegada", VStr "2024-06-15")])) in
  let refusal := rpc_error (VNum 2) (-32603) "API Error: 400 Bad Request" in
  (@SseServer.post_message sample (Some "abc") None message one_session
   = (Returns accepted, set_streams (deliver 0 (message_frame frame)) one_session)
   /\ is_rpc_error (-32603) frame /\ ~ is_tool_error_result frame)
  /\ (exists w', @SseServer.post_message sample (Some "abc") None search one_session
                 = (Returns accepted, w')
                 /\ streams w' = deliver 0 (message_frame refusal) (streams one_session)
                 /\ is_rpc_error (-32603) refusal)
  /\ (exists reply, @HttpServer.post_root sample message boot = (Returns (res_json reply), boot)
                    /\ is_tool_error_result reply).
Proof.
  intros message frame search refusal. split; [|split].
  - split; [vm_compute; reflexivity|]. split; [split; reflexivity|].
    intros (_ & Herr & _). discriminate Herr.
  - eexists. split; [vm_compute; reflexivity|]. split; [vm_compute; reflexivity|].
    split; reflexivity.
  - eexists. split; [vm_compute; reflexivity|]. repeat split.
Qed.

(** C2 fails as stated: on the streaming transport a message without
    [jsonrpc] sent to a registered session gets a 400 whose body is not a
    JSON-RPC error of code -32600, and nothing is written on the stream. *)
Lemma sse_bad_envelope_is_not_rpc_error :
  exists r,
    @SseServer.post_message sample (Some "abc") None
      [("id", VNum 7); ("method", VStr "tools/list")] one_session
    = (Returns r, one_session)
    /\ forall frame, body r = Some frame -> ~ is_rpc_error (-32600) frame.
Proof.
  eexists. split; [vm_compute; reflexivity|].
  intros frame Hbody [Hrpc _]. injection Hbody as <-. discriminate Hrpc.
Qed.

Lemma bad_envelope_is_rejected_witness :
  let message := [("id", VNum 7); ("method", VStr "tools/list")] in
  prop message "jsonrpc" <> VStr "2.0"
  /\ @HttpServer.post_root sample message boot
     = (Returns (HttpResponse 400
                   (Some (rpc_error (VNum 7) (-32600) HttpServer.invalid_request_message))),
        boot)
  /\ @SseServer.post_message sample (Some "abc") None message one_session
     = (Returns (SseServer.plain_error 400 "Invalid JSON-RPC version"), one_session).
Proof.
  intros message.
  assert (prop message "jsonrpc" <> VStr "2.0") as Hbad by discriminate.
  split; [exact Hbad|].
  destruct (@bad_envelope_is_rejected sample message Hbad) as (_ & Hhttp & Hsse).
  split; [apply Hhttp; reflexivity|].
  apply (Hsse (Some "abc") None (Session 0 1700) one_session). abc_addressed.
Defined.

(** C3 fails as stated: a [tools/list] message without an id is answered
    with a response frame, over HTTP in the response body and on the
    streaming transport as a [message] event. *)
Lemma request_without_id_is_answered :
  let message := [("jsonrpc", VStr "2.0"); ("method", VStr "tools/list")] in
  prop message "id" = VUndefined
  /\ (exists frame, @HttpServer.post_root sample message boot
                    = (Returns (HttpResponse 200 (Some frame)), boot)
                    /\ tool_names (member frame "result") = catalog_names)
  /\ (exists frame w', @SseServer.post_message sample (Some "abc") None message one_session
                       = (Returns accepted, w')
                       /\ streams w' = deliver 0 (message_frame frame) (streams one_session)
                       /\ streams w' <> streams one_session).
Proof.
  intros message. split; [reflexivity|]. split.
  - eexists. split; [vm_compute; reflexivity|]. reflexivity.
  - exists (rpc_result VUndefined (VObj [("tools", VArr tools)])). eexists.
    split; [vm_compute; reflexivity|]. split; [vm_compute; reflexivity|].
    vm_compute. discriminate.
Qed.

Lemma notifications_get_no_reply_witness :
  let message := [("jsonrpc", VStr "2.0"); ("method", VStr "notifications/cancelled")] in
  @HttpServer.post_root sample message boot = (Returns (HttpResponse 202 None), boot)
  /\ @SseServer.post_message sample (Some "abc") None message one_session
     = (Returns accepted, one_session)
  /\ @SseServer.post_message sample (Some "abc") None
       [("jsonrpc", VStr "2.0"); ("method", VStr "resources/list")] one_session
     = (Returns accepted, one_session).
Proof.
  intros message.
  assert (addressed (Some "abc") None one_session (Session 0 1700)) as Haddr
    by abc_addressed.
  destruct (@notifications_get_no_reply sample message "notifications/cancelled"
              boot None None (Session 0 1700) eq_refl eq_refl eq_refl) as [Hhttp _].
  destruct (@notifications_get_no_reply sample message "notifications/cancelled"
              one_session (Some "abc") None (Session 0 1700) eq_refl eq_refl eq_refl)
    as [Hnote _].
  destruct (@notifications_get_no_reply sample
              [("jsonrpc", VStr "2.0"); ("method", VStr "resources/list")] "resources/list"
              one_session (Some "abc") None (Session 0 1700) eq_refl eq_refl eq_refl)
    as [_ Hother].
  split; [apply (proj1 (Hhttp eq_refl))|].
  split; [apply (proj2 (Hnote eq_refl) Haddr)|].
  apply Hother; [discriminate|discriminate|discriminate|exact Haddr].
Defined.

(** C5 fails as stated: the envelope of an unknown tool is not the one
    whose body is [{success:false, error:"Unknown tool: nope"}]. *)
Lemma unknown_tool_body_is_not_as_claimed :
  fst (@executeTool sample "https://admin.la-palma24.net" (VStr "nope") (VObj []) boot)
  <> Returns (unknown_tool_envelope_as_claimed "nope").
Proof. vm_compute. intros Heq. discriminate Heq. Qed.

Lemma unknown_tool_envelope_witness :
  in_dispatch_table (VStr "nope") = false
  /\ @executeTool sample "https://admin.la-palma24.net" (VStr "nope") (VObj []) boot
     = (Returns
          (VObj [("content",
                  VArr [VObj [("type", VStr "text");
                              ("text",
                               stringify_pretty
                                 (VObj [("success", VBool false);
                                        ("error", VStr "Herramienta desconocida: nope");
                                        ("details",
                                         VStr "Error: Herramienta desconocida: nope")]))]]);
                 ("isError", VBool true)]),
        boot).
Proof.
  assert (in_dispatch_table (VStr "nope") = false) as Hout by reflexivity.
  split; [exact Hout|].
  destruct (@unknown_tool_envelope sample "https://admin.la-palma24.net"
              (VStr "nope") (VObj []) boot Hout) as (failure & Hrun & _ & _ & Htext).
  specialize (Htext "nope" eq_refl). cbv zeta in Htext.
  rewrite Hrun. f_equal. f_equal. exact Htext.
Defined.

(** C6 fails as stated: an injection for a registered session whose
    message has the wrong [jsonrpc] is answered 400, not 202. *)
Lemma bad_envelope_injection_is_refused :
  exists r,
    @SseServer.post_message sample (Some "abc") None
      [("jsonrpc", VStr "1.0"); ("id", VNum 1); ("method", VStr "tools/list")] one_session
    = (Returns r, one_session)
    /\ sessions one_session !! "abc" = Some (Session 0 1700)
    /\ status r <> 202%Z.
Proof.
  eexists. split; [vm_compute; reflexivity|]. split; [vm_compute; reflexivity|].
  vm_compute. discriminate.
Qed.

Lemma injection_without_session_is_rejected_witness :
  @SseServer.post_message sample None None (request 1 "tools/list" VUndefined) one_session
  = (Returns (SseServer.plain_error 400 "Missing sessionId"), one_session)
  /\ @SseServer.post_message sample (Some "zzz") None (request 1 "tools/list" VUndefined)
       one_session
     = (Returns (SseServer.plain_error 404 "Session not found"), one_session)
  /\ (let closed := snd (SseServer.on_close 0 one_session) in
      @SseServer.post_message sample None (Some "abc") (request 1 "tools/list" VUndefined)
        closed
      = (Returns (SseServer.plain_error 404 "Session not found"), closed)).
Proof.
  split; [|split].
  - apply (proj1 (@injection_without_session_is_rejected sample
                    (request 1 "tools/list" VUndefined) one_session None None));
      left; reflexivity.
  - apply (proj1 (proj2 (@injection_without_session_is_rejected sample
                    (request 1 "tools/list" VUndefined) one_session (Some "zzz") None))
             "zzz"); [reflexivity|discriminate|vm_compute; reflexivity].
  - pose proof (proj2 (proj2 (@injection_without_session_is_rejected sample
                    (request 1 "tools/list" VUndefined) one_session None (Some "abc")))) as Hc.
    eapply (Hc 0); [vm_compute; reflexivity|reflexivity|discriminate].
Defined.

Lemma tools_list_returns_catalog_witness :
  let message := request 4 "tools/list" VUndefined in
  let reply := rpc_result (VNum 4) (VObj [("tools", VArr tools)]) in
  tool_names (member reply "result") = map VStr tool_cases
  /\ @HttpServer.post_root sample message boot = (Returns (res_json reply), boot)
  /\ @SseServer.post_message sample (Some "abc") None message one_session
     = (Returns accepted, set_streams (deliver 0 (message_frame reply)) one_session).
Proof.
  intros message reply.
  destruct (@tools_list_returns_catalog sample message boot None None (Session 0 1700))
    as (Hnames & Hcases & Hhttp & _); [reflexivity|reflexivity|discriminate|].
  destruct (@tools_list_returns_catalog sample message one_session (Some "abc") None
              (Session 0 1700))
    as (_ & _ & _ & Hsse); [reflexivity|reflexivity|discriminate|].
  split; [now rewrite <- Hcases|]. split; [exact Hhttp|].
  apply Hsse. abc_addressed.
Defined.

Lemma missing_method_is_dropped_witness :
  @SseServer.post_message sample (Some "abc") None
    [("jsonrpc", VStr "2.0"); ("id", VNum 9)] one_session
  = (Returns accepted, one_session).
Proof.
  apply (@missing_method_is_dropped sample [("jsonrpc", VStr "2.0"); ("id", VNum 9)]
           one_session (Some "abc") None (Session 0 1700));
    [abc_addressed|reflexivity|reflexivity].
Defined.

(** An identifier opened twice: the second open takes over the entry, and
    the close of the first stream then removes it, so the registry is
    empty while the second stream is still open. The invariant holds
    throughout: no lookup returns a closed stream. *)
Lemma reused_identifier_is_unregistered_by_first_close :
  let w := @SseServer.run sample
             [SseServer.GetSse (Some "x") "r1" 1 "t1";
              SseServer.GetSse (Some "x") "r2" 2 "t2";
              SseServer.Close 0] boot in
  sessions w !! "x" = None
  /\ ended <$> (streams w !! 1) = Some false.
Proof. split; vm_compute; reflexivity. Qed.

(** ** Beyond the claims: serialization *)

Lemma value_ind_nested (P : value -> Prop) :
  P VUndefined -> P VNull -> (forall b, P (VBool b)) -> (forall z, P (VNum z)) ->
  (forall s, P (VStr s)) ->
  (forall items, Forall P items -> P (VArr items)) ->
  (forall fields, Forall (fun kv => P (snd kv)) fields -> P (VObj fields)) ->
  forall v, P v.
Proof.
  intros Hu Hn Hb Hz Hs Ha Ho. fix IH 1. intros [| |b|z|s|items|fields].
  - exact Hu.
  - exact Hn.
  - apply Hb.
  - apply Hz.
  - apply Hs.
  - apply Ha.
    exact ((fix each (l : list value) : Forall P l :=
              match l with
              | [] => List.Forall_nil P
              | x :: r => @List.Forall_cons _ P x r (IH x) (each r)
              end) items).
  - apply Ho.
    exact ((fix each (l : list (string * value)) : Forall (fun kv => P (snd kv)) l :=
              match l with
              | [] => List.Forall_nil _
              | kv :: r => @List.Forall_cons _ (fun kv => P (snd kv)) kv r (IH (snd kv)) (each r)
              end) fields).
Qed.

Lemma has_line_break_app (a b : string) :
  has_line_break (a +:+ b) = has_line_break a || has_line_break b.
Proof.
  induction a as [|c a IH]; [reflexivity|]. simpl. rewrite IH.
  now rewrite !orb_assoc.
Qed.

Lemma escape_char_one_line (c : ascii) : has_line_break (escape_char c) = false.
Proof. destruct c as [[] [] [] [] [] [] [] []]; reflexivity. Qed.

Lemma escape_one_line (s : string) : has_line_break (escape s) = false.
Proof.
  induction s as [|c s IH]; [reflexivity|]. simpl.
  now rewrite has_line_break_app, escape_char_one_line, IH.
Qed.

Lemma quote_one_line (s : string) : has_line_break (quote s) = false.
Proof.
  unfold quote. cbn [has_line_break]. rewrite has_line_break_app, escape_one_line.
  reflexivity.
Qed.

Lemma pretty_N_go_one_line (x : N) (s : string) :
  has_line_break (pretty_N_go x s) = has_line_break s.
Proof.
  revert s. induction (N.lt_wf_0 x) as [x _ IH]; intros s.
  destruct (decide (x = 0)%N) as [->|Hpos]; [now rewrite pretty_N_go_0|].
  rewrite pretty_N_go_step by lia. rewrite IH by (apply N.div_lt; lia).
  unfold pretty_N_char. repeat case_match; reflexivity.
Qed.

Lemma pretty_Z_one_line (z : Z) : has_line_break (pretty z) = false.
Proof.
  assert (forall p : positive, has_line_break (pretty p) = false) as Hpos.
  { intros p. unfold pretty, pretty_positive, pretty, pretty_N.
    destruct (decide (N.pos p = 0)%N); [reflexivity|]. apply pretty_N_go_one_line. }
  destruct z as [|p|p]; [reflexivity|apply Hpos|].
  unfold pretty, pretty_Z. rewrite has_line_break_app. now rewrite Hpos.
Qed.

Lemma join_one_line (sep : string) (parts : list string) :
  has_line_break sep = false ->
  Forall (fun p => has_line_break p = false) parts ->
  has_line_break (join sep parts) = false.
Proof.
  intros Hsep Hparts. destruct Hparts as [|p ps Hp Hps]; [reflexivity|].
  simpl. revert p Hp. induction Hps as [|q qs Hq _ IH]; intros p Hp; [exact Hp|].
  simpl. apply IH. now rewrite !has_line_break_app, Hp, Hsep, Hq.
Qed.

Lemma bracket_compact_one_line (l r : string) (parts : list string) :
  has_line_break l = false -> has_line_break r = false ->
  Forall (fun p => has_line_break p = false) parts ->
  has_line_break (bracket l r "" "" "" parts) = false.
Proof.
  intros Hl Hr Hparts. unfold bracket.
  destruct parts as [|p ps]; [now rewrite has_line_break_app, Hl, Hr|].
  cbn [String.eqb]. rewrite !has_line_break_app, Hl, Hr.
  now rewrite join_one_line.
Qed.

Lemma serialize_compact_one_line (v : value) (s : string) :
  serialize "" "" v = Some s -> has_line_break s = false.
Proof.
  revert s. induction v as [| |b|z|t|items IH|fields IH] using value_ind_nested;
    intros s Hs; simpl in Hs.
  - discriminate.
  - now injection Hs as <-.
  - destruct b; now injection Hs as <-.
  - injection Hs as <-. apply pretty_Z_one_line.
  - injection Hs as <-. apply quote_one_line.
  - injection Hs as <-. change ("" +:+ "") with "".
    apply bracket_compact_one_line; [reflexivity..|].
    induction IH as [|x r Hx _ IHr]; constructor; [|exact IHr].
    destruct (serialize "" "" x) as [sx|]; [now apply Hx|reflexivity].
  - injection Hs as <-. change ("" +:+ "") with "".
    apply bracket_compact_one_line; [reflexivity..|].
    induction IH as [|[k x] r Hx _ IHr]; [constructor|]. simpl in Hx.
    destruct (serialize "" "" x) as [sx|]; [|exact IHr].
    constructor; [|exact IHr].
    rewrite !has_line_break_app, quote_one_line. simpl. now apply Hx.
Qed.

(** X8. What [JSON.stringify(response)] puts after [data: ] never
    contains a line feed or a carriage return, so a [message] event is
    always one [event:] line, one [data:] line and a blank line. *)
Theorem message_frame_is_one_event (response : value) :
  exists payload,
    message_frame response
    = ["event: message" +:+ newline; "data: " +:+ payload +:+ newline +:+ newline]
    /\ has_line_break payload = false.
Proof.
  exists (to_string (stringify response)). split; [reflexivity|].
  unfold stringify. destruct (serialize "" "" response) as [s|] eqn:Hs.
  - simpl. now apply (serialize_compact_one_line response).
  - reflexivity.
Qed.

(** ** Beyond the claims: the backend client *)

Section Backend.
Context `{Platform}.

Lemma apiCall_at_most_one_fetch (base endpoint : string) (params : value) (method : verb)
    (w : World) :
  at_most_one_fetch w (snd (apiCall base endpoint params method w)).
Proof.
  destruct (apiCall_run base endpoint params method w)
    as [(_ & _ & ->)|[(_ & _ & v & _ & ->)|(r & _ & _ & _ & _ & _ & _ & _ & ->)]].
  - split; [repeat split|]. now left.
  - split; [repeat split|]. now left.
  - split; [repeat split|]. right. now exists r.
Qed.

Lemma toolSwitch_at_most_one_fetch (base : string) (name args : value) (w : World) :
  at_most_one_fetch w (snd (toolSwitch base name args w)).
Proof.
  assert (at_most_one_fetch w w) as Hrefl by (split; [repeat split|now left]).
  unfold toolSwitch.
  repeat match goal with
         | |- context [if is_str name ?l then _ else _] => destruct (is_str name l)
         end;
    try apply apiCall_at_most_one_fetch.
  - unfold bind, destructurable. destruct (nullish args); simpl; [exact Hrefl|].
    rewrite ToString_run. destruct (convertible (member args "id_casa")); [|exact Hrefl].
    apply apiCall_at_most_one_fetch.
  - unfold bind. rewrite ToString_run. destruct (convertible name); exact Hrefl.
Qed.

(** Looking a key up in an object whose keys are distinct. *)
Lemma prop_of_entry (fields : object) (k : string) (v : value) :
  NoDup (map fst fields) -> In (k, v) fields -> prop fields k = v.
Proof.
  induction fields as [|[k' v'] rest IH]; intros Hnd Hin; [destruct Hin|].
  simpl in Hnd. apply NoDup_cons in Hnd as [Hfresh Hnd].
  simpl. destruct Hin as [Heq|Hin].
  - injection Heq as -> ->. now rewrite String.eqb_refl.
  - destruct (String.eqb k' k) eqn:Hk; [|now apply IH].
    apply String.eqb_eq in Hk. subst k'. exfalso. apply Hfresh.
    apply list_elem_of_In, in_map_iff. now exists (k, v).
Qed.

Lemma query_of_fields (fields : object) :
  NoDup (map fst fields) ->
  omap (fun key => let v := prop fields key in
                   if nullish v then None else Some (key, to_string v))
       (map fst fields)
  = query_of fields.
Proof.
  intros Hnd. unfold query_of.
  assert (forall part, (forall kv, In kv part -> In kv fields) ->
            omap (fun key => let v := prop fields key in
                             if nullish v then None else Some (key, to_string v))
                 (map fst part)
            = omap (fun kv => if nullish (snd kv) then None
                              else Some (fst kv, to_string (snd kv))) part) as Hpart.
  { induction part as [|[k v] part IH]; intros Hsub; [reflexivity|].
    specialize (IH (fun kv Hkv => Hsub kv (or_intror Hkv))).
    pose proof (prop_of_entry fields k v Hnd (Hsub _ (or_introl eq_refl))) as Hk.
    cbv zeta in IH. csimpl. rewrite Hk. cbn [fst snd]. now rewrite IH. }
  apply Hpart. auto.
Qed.

Lemma query_ready_sendable (fields : object) :
  query_ready fields = true -> sendable (VObj fields) = true.
Proof.
  unfold query_ready. cbn [sendable]. rewrite !forallb_forall.
  intros Hall kv Hin. specialize (Hall kv Hin).
  apply andb_true_iff in Hall as [_ Hv].
  apply orb_true_iff in Hv as [Hv|Hv]; apply orb_true_iff; [now left|right].
  now apply plain_convertible.
Qed.

(** The loop over the keys stops at the first value [String] cannot
    convert. *)
Lemma searchParams_throws (params : value) (keys : list string) (key : string) (w : World) :
  In key keys ->
  nullish (at_key params key) = false -> convertible (at_key params key) = false ->
  exists v, convertible v = false
    /\ searchParams params keys w
       = (Throws (new_TypeError (engine_message (NotPrimitive v))), w).
Proof.
  intros Hin Hnull Hconv. induction keys as [|k rest IH]; [destruct Hin|].
  cbn [searchParams]. cbv zeta.
  destruct (nullish (at_key params k)) eqn:Hn.
  - destruct Hin as [->|Hin]; [congruence|now apply IH].
  - unfold bind. rewrite ToString_run.
    destruct (convertible (at_key params k)) eqn:Hc.
    + destruct (searchParams_run params rest w) as [Hret|(v & Hv & ->)];
        [|now exists v].
      destruct Hin as [->|Hin]; [congruence|].
      destruct (IH Hin) as (v & _ & Hthrow). rewrite Hthrow in Hret. discriminate Hret.
    + now exists (at_key params k).
Qed.

(** X1. On a POST, and on a GET whose parameters are [sendable] (not
    [null], every value one [String] converts), [apiCall] hands exactly
    one request to [fetch] and nothing is retried: the request goes to
    [base + endpoint] with the given verb; a GET carries no body; a POST
    carries no query and its body is the JSON of the parameters, [{}]
    when they are [undefined]. The handlers do not parse addresses
    here: the statement is for a [base + endpoint] that [new URL]
    accepts and leaves as written. *)
Theorem apiCall_fetches_once (base endpoint : string) (params : value) (method : verb)
    (w : World) :
  canonical_url (base +:+ endpoint) = true ->
  method = POST \/ sendable params = true ->
  exists r,
    snd (apiCall base endpoint params method w) = set_fetched (fun log => (log ++ [r])%list) w
    /\ req_url r = base +:+ endpoint
    /\ req_method r = method
    /\ (method = GET -> req_body r = None)
    /\ (method = POST ->
        req_query r = []
        /\ req_body r = serialize "" ""
                          (match params with VUndefined => VObj [] | _ => params end)).
Proof.
  intros _ Hcase.
  destruct (apiCall_run base endpoint params method w)
    as [(Hget & Hnull & _)|[(Hget & Hbad & _)
                           |(r & _ & _ & Hurl & Hverb & Hbody & Hpost & _ & Hrun)]].
  - destruct Hcase as [Hp|Hs]; [congruence|]. subst params. discriminate Hs.
  - destruct Hcase as [Hp|Hs]; congruence.
  - exists r. rewrite Hrun. auto.
Qed.

(** X2. Once its request [r] is out, [apiCall] returns the parsed body
    exactly for a status from 200 to 299; any other status throws
    [Error("API Error: <status> <statusText>")], and a rejected [fetch] or
    a body that does not parse throws that very error. *)
Theorem apiCall_succeeds_on_2xx (base endpoint : string) (params : value) (method : verb)
    (w : World) (r : api_request) :
  fetched (snd (apiCall base endpoint params method w)) = (fetched w ++ [r])%list ->
  match fetch r with
  | FetchRejects e => fst (apiCall base endpoint params method w) = Throws e
  | Responds status statusText payload =>
      ((200 <= status <= 299)%Z ->
       fst (apiCall base endpoint params method w)
       = match payload with inr json => Returns json | inl e => Throws e end)
      /\ (~ (200 <= status <= 299)%Z ->
          fst (apiCall base endpoint params method w)
          = Throws (new_Error ("API Error: " +:+ pretty status +:+ " " +:+ statusText)))
  end.
Proof.
  intros Hlog.
  destruct (apiCall_run base endpoint params method w)
    as [(_ & _ & Hrun)|[(_ & _ & v & _ & Hrun)|(r0 & _ & _ & _ & _ & _ & _ & _ & Hrun)]];
    rewrite Hrun in Hlog |- *.
  - simpl in Hlog. apply (f_equal length) in Hlog. rewrite length_app in Hlog.
    simpl in Hlog. lia.
  - simpl in Hlog. apply (f_equal length) in Hlog. rewrite length_app in Hlog.
    simpl in Hlog. lia.
  - simpl in Hlog. apply app_inv_head in Hlog. injection Hlog as ->. simpl.
    destruct (fetch r) as [e|status statusText payload]; [reflexivity|].
    split; intros Hrange.
    + assert (((200 <=? status) && (status <=? 299))%Z = true) as ->; [|reflexivity].
      apply andb_true_iff. split; apply Z.leb_le; lia.
    + assert (((200 <=? status) && (status <=? 299))%Z = false) as ->; [|reflexivity].
      apply andb_false_iff.
      destruct (Z.leb_spec 200 status); [|now left].
      destruct (Z.leb_spec status 299); [|now right]. lia.
Qed.

(** X3. A GET turns the entries of an object into the query, one pair
    per entry in the order listed, as [String(value)], leaving out those
    that are [null] or [undefined] and keeping [0], [false] and the empty
    string. This holds for an object whose keys are distinct and none
    written with digits only (so that the engine enumerates them as
    inserted) and whose values [to_string] prints as the engine does.
    [undefined] parameters give an empty query. Before any request is
    made, [null] parameters make [Object.keys] throw, and a value that
    [String] cannot convert (an object with a key [toString]) makes the
    loop throw a [TypeError]. All this for a [base + endpoint] that
    [new URL] accepts and leaves as written. *)
Theorem apiCall_get_query (base endpoint : string) (w : World) :
  canonical_url (base +:+ endpoint) = true ->
  (forall fields, NoDup (map fst fields) -> query_ready fields = true ->
   exists r,
     snd (apiCall base endpoint (VObj fields) GET w)
     = set_fetched (fun log => (log ++ [r])%list) w
     /\ req_query r = query_of fields)
  /\ (exists r,
        snd (apiCall base endpoint VUndefined GET w)
        = set_fetched (fun log => (log ++ [r])%list) w
        /\ req_query r = [])
  /\ apiCall base endpoint VNull GET w
     = (Throws (new_TypeError (engine_message (KeysOfNullish VNull))), w)
  /\ (forall fields k v, NoDup (map fst fields) -> In (k, v) fields ->
      nullish v = false -> convertible v = false ->
      exists v', convertible v' = false
        /\ apiCall base endpoint (VObj fields) GET w
           = (Throws (new_TypeError (engine_message (NotPrimitive v'))), w)).
Proof.
  intros _. split; [|split; [|split]].
  - intros fields Hnd Hready. apply query_ready_sendable in Hready.
    destruct (apiCall_run base endpoint (VObj fields) GET w)
      as [(_ & Hnull & _)|[(_ & Hbad & _)|(r & _ & _ & _ & _ & _ & _ & Hquery & Hrun)]];
      [discriminate|congruence|].
    exists r. rewrite Hrun. split; [reflexivity|].
    rewrite (Hquery fields eq_refl eq_refl). now apply query_of_fields.
  - destruct (apiCall_run base endpoint VUndefined GET w)
      as [(_ & Hnull & _)|[(_ & Hbad & _)|(r & _ & Hempty & _ & _ & _ & _ & _ & Hrun)]];
      [discriminate|discriminate|].
    exists r. rewrite Hrun. split; [reflexivity|]. now apply Hempty.
  - reflexivity.
  - intros fields k v Hnd Hin Hnull Hconv.
    pose proof (prop_of_entry fields k v Hnd Hin) as Hk.
    destruct (searchParams_throws (VObj fields) (map fst fields) k w)
      as (v' & Hv' & Hthrow).
    + apply in_map_iff. now exists (k, v).
    + cbn [at_key]. now rewrite Hk.
    + cbn [at_key]. now rewrite Hk.
    + exists v'. split; [exact Hv'|].
      unfold apiCall. cbv zeta. unfold bind at 1. unfold bind at 1.
      cbn [Object_keys]. unfold ret at 1. cbv beta iota. now rewrite Hthrow.
Qed.

End Backend.

(** ** Beyond the claims: the six tools *)

Section Tools.
Context `{Platform}.


Lemma apiCall_get_world (base endpoint : string) (fields : object) (w : World) :
  NoDup (map fst fields) -> sendable (VObj fields) = true ->
  snd (apiCall base endpoint (VObj fields) GET w)
  = set_fetched (fun log =>
      (log ++ [ApiRequest (base +:+ endpoint) (query_of fields) GET None])%list) w.
Proof.
  intros Hnd Hs.
  destruct (apiCall_run base endpoint (VObj fields) GET w)
    as [(_ & Hnull & _)|[(_ & Hbad & _)
                        |(r & _ & _ & Hurl & Hverb & Hbody & _ & Hquery & Hrun)]];
    [discriminate|congruence|].
  rewrite Hrun. specialize (Hquery fields eq_refl eq_refl).
  rewrite (query_of_fields fields Hnd) in Hquery. specialize (Hbody eq_refl).
  destruct r as [url query verb body]. simpl in *. now subst.
Qed.


(** X5. [obtener_detalles_propiedad] builds its address from the text
    [API_BASE_URL + "/api/propiedad/" + String(id_casa)] and appends
    nothing but [idioma] to the query: ["es"] when it is absent, no pair
    at all when it is [null]. This for an [id_casa] and an [idioma] that
    [to_string] prints as the engine does, and an address that
    [new URL] accepts and leaves as written, as it does one whose
    [id_casa] is printed with letters, digits, [-] and [_] ([undefined],
    for a missing [id_casa], is one). Arguments that are [null] or [undefined]
    make the destructuring throw before any request, and so does an
    [id_casa] or [idioma] that [String] cannot convert. *)
Theorem property_details_request (base : string) (w : World) :
  (forall fields,
     let id_casa := prop fields "id_casa" in
     let idioma := prop fields "idioma" in
     let lang := match idioma with
                 | VUndefined => [("idioma", "es")]
                 | VNull => []
                 | v => [("idioma", to_string v)]
                 end in
     plain id_casa = true -> plain idioma = true ->
     canonical_url (base +:+ ("/api/propiedad/" +:+ to_string id_casa)) = true ->
     snd (toolSwitch base (VStr "obtener_detalles_propiedad") (VObj fields) w)
     = set_fetched (fun log =>
         (log ++ [ApiRequest (base +:+ ("/api/propiedad/" +:+ to_string id_casa))
                    lang GET None])%list) w)
  /\ (forall args, nullish args = true ->
      toolSwitch base (VStr "obtener_detalles_propiedad") args w
      = (Throws (new_TypeError (engine_message (DestructureNullish "id_casa" "args" args))),
         w))
  /\ (forall fields,
      convertible (prop fields "id_casa") = false ->
      toolSwitch base (VStr "obtener_detalles_propiedad") (VObj fields) w
      = (Throws (new_TypeError (engine_message (NotPrimitive (prop fields "id_casa")))), w))
  /\ (forall fields,
      plain (prop fields "id_casa") = true ->
      canonical_url (base +:+ ("/api/propiedad/" +:+ to_string (prop fields "id_casa")))
      = true ->
      convertible (prop fields "idioma") = false ->
      exists v, convertible v = false
        /\ toolSwitch base (VStr "obtener_detalles_propiedad") (VObj fields) w
           = (Throws (new_TypeError (engine_message (NotPrimitive v))), w)).
Proof.
  assert (forall fields,
            toolSwitch base (VStr "obtener_detalles_propiedad") (VObj fields) w
            = (let* segment := ToString (prop fields "id_casa") in
               apiCall base ("/api/propiedad/" +:+ segment)
                 (VObj [("idioma", match prop fields "idioma" with
                                   | VUndefined => VStr "es"
                                   | v => v
                                   end)]) GET) w) as Hswitch by reflexivity.
  split; [|split; [|split]].
  - intros fields id_casa idioma lang Hid Hlang _. subst id_casa idioma lang.
    rewrite Hswitch. unfold bind. rewrite ToString_run, (plain_convertible _ Hid).
    rewrite apiCall_get_world.
    + destruct (prop fields "idioma"); reflexivity.
    + repeat constructor. set_solver.
    + cbn [sendable forallb snd]. rewrite andb_true_r.
      apply plain_convertible in Hlang.
      destruct (prop fields "idioma"); try reflexivity; simpl in *; now rewrite Hlang.
  - intros args Hnull. unfold toolSwitch. cbn [is_str String.eqb Ascii.eqb Bool.eqb].
    unfold bind, destructurable. rewrite Hnull. reflexivity.
  - intros fields Hbad. rewrite Hswitch. unfold bind. now rewrite ToString_run, Hbad.
  - intros fields Hid _ Hbad. rewrite Hswitch. unfold bind.
    rewrite ToString_run, (plain_convertible _ Hid).
    destruct (prop fields "idioma") as [| |b|z|s|items|langs] eqn:Hlang;
      try discriminate Hbad.
    + destruct (searchParams_throws (VObj [("idioma", VArr items)]) ["idioma"] "idioma" w)
        as (v & Hv & Hthrow); [now left|reflexivity|exact Hbad|].
      exists v. split; [exact Hv|].
      unfold apiCall. cbv zeta. unfold bind at 1. unfold bind at 1.
      cbn [Object_keys]. unfold ret at 1. cbv beta iota.
      cbn [map fst]. now rewrite Hthrow.
    + destruct (searchParams_throws (VObj [("idioma", VObj langs)]) ["idioma"] "idioma" w)
        as (v & Hv & Hthrow); [now left|reflexivity|exact Hbad|].
      exists v. split; [exact Hv|].
      unfold apiCall. cbv zeta. unfold bind at 1. unfold bind at 1.
      cbn [Object_keys]. unfold ret at 1. cbv beta iota.
      cbn [map fst]. now rewrite Hthrow.
Qed.

(** X6. [listar_municipios] ignores its arguments: it always sends the
    same GET without query. [listar_propiedades] and [listar_barrios]
    send the entries of an object as the query of a GET to their path,
    in the order listed and without those that are [null] or
    [undefined], when the keys are distinct and none written with digits
    only and the values are ones [to_string] prints as the engine
    does. All this for an [API_BASE_URL] such that [new URL] accepts the
    addresses and leaves them as written. *)
Theorem list_tools_requests (base : string) (args : value) (w : World) :
  canonical_url (base +:+ "/api/municipios") = true ->
  canonical_url (base +:+ "/api/propiedades") = true ->
  canonical_url (base +:+ "/api/barrios") = true ->
  snd (toolSwitch base (VStr "listar_municipios") args w)
  = set_fetched (fun log =>
      (log ++ [ApiRequest (base +:+ "/api/municipios") [] GET None])%list) w
  /\ (forall fields, args = VObj fields -> NoDup (map fst fields) ->
      query_ready fields = true ->
      snd (toolSwitch base (VStr "listar_propiedades") args w)
      = set_fetched (fun log =>
          (log ++ [ApiRequest (base +:+ "/api/propiedades") (query_of fields)
                     GET None])%list) w
      /\ snd (toolSwitch base (VStr "listar_barrios") args w)
         = set_fetched (fun log =>
             (log ++ [ApiRequest (base +:+ "/api/barrios") (query_of fields)
                        GET None])%list) w).
Proof.
  intros _ _ _. split.
  - change (toolSwitch base (VStr "listar_municipios") args)
      with (apiCall base "/api/municipios" (VObj []) GET).
    rewrite apiCall_get_world by (constructor || reflexivity). reflexivity.
  - intros fields -> Hnd Hready. apply query_ready_sendable in Hready. split.
    + change (toolSwitch base (VStr "listar_propiedades") (VObj fields))
        with (apiCall base "/api/propiedades" (VObj fields) GET).
      now apply apiCall_get_world.
    + change (toolSwitch base (VStr "listar_barrios") (VObj fields))
        with (apiCall base "/api/barrios" (VObj fields) GET).
      now apply apiCall_get_world.
Qed.

(** X7. [executeTool] never throws and makes at most one backend
    request, touching nothing else: what it returns has [isError: true]
    exactly when the tool run threw (unknown tool, bad arguments, backend
    refusal, network failure), and no [isError] at all exactly when the
    run returned. *)
Theorem executeTool_never_throws (base : string) (name args : value) (w : World) :
  exists envelope w',
    executeTool base name args w = (Returns envelope, w')
    /\ at_most_one_fetch w w'
    /\ (member envelope "isError" = VBool true
        <-> exists e, fst (toolSwitch base name args w) = Throws e)
    /\ (member envelope "isError" = VUndefined
        <-> exists result, fst (toolSwitch base name args w) = Returns result).
Proof.
  pose proof (toolSwitch_at_most_one_fetch base name args w) as Hfetch.
  unfold executeTool, try_catch, bind, ret.
  destruct (toolSwitch base name args w) as [[result|e] w1]; simpl in Hfetch.
  - exists (envelope_ok result), w1. split; [reflexivity|]. split; [exact Hfetch|].
    split; split.
    + discriminate.
    + intros [e He]. discriminate He.
    + intros _. now exists result.
    + reflexivity.
  - exists (envelope_error e), w1. split; [reflexivity|]. split; [exact Hfetch|].
    split; split.
    + intros _. now exists e.
    + reflexivity.
    + discriminate.
    + intros [result Hr]. discriminate Hr.
Qed.

End Tools.

(** ** The two routers, case by case *)

Section Routers.
Context `{Platform}.

(** [POST /] throws when its first log line cannot print the method:
    the line stands before the envelope check and outside the [try]. *)
Lemma post_root_throws (message : object) (w : World) :
  convertible (prop message "method") = false ->
  HttpServer.post_root message w
  = (Throws (new_TypeError (engine_message (NotPrimitive (prop message "method")))), w).
Proof.
  intros Hc. destruct (not_convertible _ Hc) as [Ht _].
  unfold HttpServer.post_root, bind. rewrite ToString_run, Ht, Hc. reflexivity.
Qed.

Lemma post_root_case (message : object) (w : World) :
  convertible (prop message "method") = true ->
  exists r w', HttpServer.post_root message w = (Returns r, w') /\ http_case message w r w'.
Proof.
  intros Hprint. enter_root Hprint.
  destruct (bad_envelope message) eqn:Hbad.
  { eexists _, _. split; [reflexivity|]. now apply http_bad_envelope. }
  unfold try_catch.
  destruct (prop message "method") as [| |b|z|m|items|fields] eqn:Hm.
  - eexists _, _. split; [reflexivity|].
    pose proof (http_method_not_found message w Hbad) as Hc. rewrite Hm in Hc.
    apply Hc. now left.
  - eexists _, _. split; [reflexivity|].
    pose proof (http_method_not_found message w Hbad) as Hc. rewrite Hm in Hc.
    apply Hc. now left.
  - destruct b.
    + eexists _, _. split; [reflexivity|].
      apply http_not_callable; [rewrite Hm; exact Hprint|exact Hbad|now rewrite Hm|]. intros m. now rewrite Hm.
    + eexists _, _. split; [reflexivity|].
      pose proof (http_method_not_found message w Hbad) as Hc. rewrite Hm in Hc.
      apply Hc. now left.
  - unfold is_str, bind, method_startsWith, truthy.
    destruct (Z.eqb z 0) eqn:Hz; cbn [negb]; cbv iota.
    + eexists _, _. split; [reflexivity|].
      pose proof (http_method_not_found message w Hbad) as Hc. rewrite Hm in Hc.
      apply Hc. left. simpl. now rewrite Hz.
    + eexists _, _. split; [reflexivity|].
      apply http_not_callable; [rewrite Hm; exact Hprint|exact Hbad| |].
      * rewrite Hm. simpl. now rewrite Hz.
      * intros m. now rewrite Hm.
  - unfold is_str.
    destruct (String.eqb m "initialize") eqn:Hi.
    { apply String.eqb_eq in Hi. subst m. eexists _, _. split; [reflexivity|].
      now apply http_initialize. }
    unfold bind at 1. unfold method_startsWith, truthy.
    destruct (String.eqb m "") eqn:He; cbn [negb]; cbv iota.
    { apply String.eqb_eq in He. subst m. eexists _, _. split; [reflexivity|].
      pose proof (http_method_not_found message w Hbad) as Hc. rewrite Hm in Hc.
      apply Hc. now left. }
    unfold ret at 1. cbv beta iota.
    destruct (String.prefix "notifications/" m) eqn:Hn.
    { eexists _, _. split; [reflexivity|]. now apply http_notification with m. }
    destruct (String.eqb m "tools/list") eqn:Hl.
    { apply String.eqb_eq in Hl. subst m. eexists _, _. split; [reflexivity|].
      now apply http_tools_list. }
    destruct (String.eqb m "tools/call") eqn:Hc.
    { apply String.eqb_eq in Hc. subst m.
      unfold bind, destructurable.
      destruct (nullish (prop message "params")) eqn:Hp.
      - eexists _, _. split; [reflexivity|]. now apply http_call_without_params.
      - unfold ret at 1. cbv beta iota. rewrite ToString_run.
        destruct (convertible (member (prop message "params") "name")) eqn:Hname.
        + destruct (executeTool_total HttpServer.API_BASE_URL
                      (member (prop message "params") "name")
                      (member (prop message "params") "arguments") w)
            as (envelope & w' & Hrun & _).
          rewrite Hrun. eexists _, _. split; [reflexivity|].
          now apply http_call.
        + eexists _, _. split; [reflexivity|].
          now apply http_call_unprintable_name. }
    destruct (String.eqb m "prompts/list") eqn:Hpl.
    { apply String.eqb_eq in Hpl. subst m. eexists _, _. split; [reflexivity|].
      now apply http_prompts_list. }
    destruct (String.eqb m "resources/list") eqn:Hrl.
    { apply String.eqb_eq in Hrl. subst m. eexists _, _. split; [reflexivity|].
      now apply http_resources_list. }
    eexists _, _. split; [reflexivity|].
    pose proof (http_method_not_found message w Hbad) as Hcase. rewrite Hm in Hcase.
    apply Hcase. right. exists m. split; [reflexivity|].
    unfold http_recognized. cbn [existsb]. now rewrite Hi, Hl, Hc, Hpl, Hrl, Hn.
  - eexists _, _. split; [reflexivity|].
    apply http_not_callable; [rewrite Hm; exact Hprint|exact Hbad|now rewrite Hm|]. intros m. now rewrite Hm.
  - eexists _, _. split; [reflexivity|].
    apply http_not_callable; [rewrite Hm; exact Hprint|exact Hbad|now rewrite Hm|]. intros m. now rewrite Hm.
Qed.

Lemma set_streams_deliver_nothing (c : nat) (w : World) :
  set_streams (deliver c []) w = w.
Proof. destruct w. unfold set_streams. simpl. now rewrite deliver_nothing. Qed.

Lemma post_message_case (q h : option string) (message : object) (w : World)
    (ses : session) :
  addressed q h w ses ->
  exists r chunks w1,
    SseServer.post_message q h message w
    = (Returns r, set_streams (deliver (res ses) chunks) w1)
    /\ sse_case message w r chunks w1.
Proof.
  intros Haddr. enter_session Haddr.
  destruct (bad_envelope message) eqn:Hbad.
  { exists (SseServer.plain_error 400 "Invalid JSON-RPC version"), [], w.
    rewrite set_streams_deliver_nothing. split; [reflexivity|]. now constructor. }
  rewrite sse_try_block.
  destruct (convertible (prop message "method")) eqn:Hprint;
    [|eexists _, [], w; rewrite set_streams_deliver_nothing; split; [reflexivity|];
      now apply sse_unprintable_method].
  destruct (prop message "method") as [| |b|z|m|items|fields] eqn:Hm.
  - exists accepted, [], w. rewrite set_streams_deliver_nothing. split; [reflexivity|].
    apply sse_no_method; [exact Hbad|now rewrite Hm].
  - exists accepted, [], w. rewrite set_streams_deliver_nothing. split; [reflexivity|].
    apply sse_no_method; [exact Hbad|now rewrite Hm].
  - destruct b.
    + eexists _, [], w. rewrite set_streams_deliver_nothing. split; [reflexivity|].
      apply sse_not_callable; [exact Hbad|rewrite Hm; exact Hprint|now rewrite Hm|].
      intros m. now rewrite Hm.
    + exists accepted, [], w. rewrite set_streams_deliver_nothing. split; [reflexivity|].
      apply sse_no_method; [exact Hbad|now rewrite Hm].
  - unfold is_str, bind, method_startsWith, truthy.
    destruct (Z.eqb z 0) eqn:Hz; cbn [negb]; cbv iota.
    + exists accepted, [], w. rewrite set_streams_deliver_nothing. split; [reflexivity|].
      apply sse_no_method; [exact Hbad|]. rewrite Hm. simpl. now rewrite Hz.
    + eexists _, [], w. rewrite set_streams_deliver_nothing. split; [reflexivity|].
      apply sse_not_callable; [exact Hbad|rewrite Hm; exact Hprint| |].
      * rewrite Hm. simpl. now rewrite Hz.
      * intros m. now rewrite Hm.
  - unfold is_str.
    destruct (String.eqb m "tools/list") eqn:Hl.
    { apply String.eqb_eq in Hl. subst m. rewrite write_message_deliver.
      eexists _, _, w. split; [reflexivity|]. now apply sse_tools_list. }
    destruct (String.eqb m "tools/call") eqn:Hc.
    { apply String.eqb_eq in Hc. subst m. unfold bind at 1. unfold destructurable.
      destruct (nullish (prop message "params")) eqn:Hp.
      - eexists _, [], w. rewrite set_streams_deliver_nothing. split; [reflexivity|].
        now apply sse_call_without_params.
      - unfold ret at 1. cbv beta iota. unfold try_catch, bind.
        destruct (toolSwitch SseServer.API_BASE_URL
                    (member (prop message "params") "name")
                    (member (prop message "params") "arguments") w)
          as [[result|e] w1] eqn:Hrun; rewrite write_message_deliver.
        + eexists _, _, w1. split; [reflexivity|]. now apply sse_call_returned.
        + eexists _, _, w1. split; [reflexivity|]. now apply sse_call_threw. }
    destruct (String.eqb m "initialize") eqn:Hi.
    { apply String.eqb_eq in Hi. subst m. rewrite write_message_deliver.
      eexists _, _, w. split; [reflexivity|]. now apply sse_initialize. }
    destruct (String.eqb m "notifications/initialized") eqn:Hni.
    { apply String.eqb_eq in Hni. subst m.
      exists accepted, [], w. rewrite set_streams_deliver_nothing. split; [reflexivity|].
      now apply sse_notification with "notifications/initialized". }
    unfold bind, method_startsWith, truthy.
    destruct (String.eqb m "") eqn:He; cbn [negb]; cbv iota.
    { apply String.eqb_eq in He. subst m.
      exists accepted, [], w. rewrite set_streams_deliver_nothing. split; [reflexivity|].
      apply sse_no_method; [exact Hbad|now rewrite Hm]. }
    unfold ret at 1. cbv beta iota.
    destruct (String.prefix "notifications/" m) eqn:Hn.
    { exists accepted, [], w. rewrite set_streams_deliver_nothing. split; [reflexivity|].
      now apply sse_notification with m. }
    assert (m <> "") as Hfull by now apply String.eqb_neq.
    assert (sse_recognized m = false) as Hrec.
    { unfold sse_recognized. cbn [existsb]. now rewrite Hl, Hc, Hi, Hn. }
    destruct (prop message "id") eqn:Hid;
      try (rewrite write_message_deliver; eexists _, _, w; split; [reflexivity|];
           pose proof (sse_method_not_found message w m Hbad Hm Hfull Hrec) as Hcase;
           rewrite Hid in Hcase; apply Hcase; discriminate).
    exists accepted, [], w. rewrite set_streams_deliver_nothing. split; [reflexivity|].
    now apply sse_unknown_notification with m.
  - eexists _, [], w. rewrite set_streams_deliver_nothing. split; [reflexivity|].
    apply sse_not_callable; [exact Hbad|rewrite Hm; exact Hprint|now rewrite Hm|].
      intros m. now rewrite Hm.
  - eexists _, [], w. rewrite set_streams_deliver_nothing. split; [reflexivity|].
    apply sse_not_callable; [exact Hbad|rewrite Hm; exact Hprint|now rewrite Hm|].
      intros m. now rewrite Hm.
Qed.

Lemma at_most_one_fetch_refl (w : World) : at_most_one_fetch w w.
Proof. split; [repeat split|now left]. Qed.

Lemma executeTool_at_most_one_fetch (base : string) (name args : value) (w : World) :
  at_most_one_fetch w (snd (executeTool base name args w)).
Proof.
  pose proof (toolSwitch_at_most_one_fetch base name args w) as Hfetch.
  unfold executeTool, try_catch, bind, ret.
  destruct (toolSwitch base name args w) as [[result|e] w1]; exact Hfetch.
Qed.

Lemma http_unrecognized (m : string) :
  http_recognized m = false ->
  String.eqb m "tools/call" = false /\ String.prefix "notifications/" m = false.
Proof.
  unfold http_recognized. cbn [existsb]. intros Hrec.
  apply orb_false_elim in Hrec as [Hlist Hn]. split; [|exact Hn].
  repeat (apply orb_false_elim in Hlist as [? Hlist]). assumption.
Qed.

Lemma sse_unrecognized (m : string) :
  sse_recognized m = false ->
  String.eqb m "tools/call" = false /\ String.prefix "notifications/" m = false.
Proof.
  unfold sse_recognized. cbn [existsb]. intros Hrec.
  apply orb_false_elim in Hrec as [Hlist Hn]. split; [|exact Hn].
  repeat (apply orb_false_elim in Hlist as [? Hlist]). assumption.
Qed.

Lemma falsy_is_not_malformed (message : object) :
  truthy (prop message "method") = false -> malformed message = false.
Proof.
  intros Hf. unfold malformed. rewrite Hf.
  destruct (prop message "method") as [| |[]|z|m|items|fields]; try reflexivity;
    try discriminate.
  simpl in Hf. apply negb_false_iff, String.eqb_eq in Hf. now subst m.
Qed.

Lemma string_method_malformed (message : object) (m : string) :
  prop message "method" = VStr m ->
  malformed message = String.eqb m "tools/call" && nullish (prop message "params").
Proof. intros Hm. unfold malformed. rewrite Hm. simpl. now rewrite andb_false_r. Qed.

Lemma not_callable_is_malformed (message : object) :
  truthy (prop message "method") = true ->
  (forall m, prop message "method" <> VStr m) ->
  malformed message = true.
Proof.
  intros Ht Hns. unfold malformed. rewrite Ht.
  destruct (prop message "method") as [| |b|z|m|items|fields]; try reflexivity.
  now destruct (Hns m).
Qed.

Lemma string_method_http_malformed (message : object) (m : string) :
  prop message "method" = VStr m ->
  http_malformed message
  = String.eqb m "tools/call"
    && (nullish (prop message "params")
        || negb (convertible (member (prop message "params") "name"))).
Proof.
  intros Hm. unfold http_malformed. rewrite (string_method_malformed _ _ Hm), Hm. simpl.
  destruct (String.eqb m "tools/call"); reflexivity.
Qed.

Lemma falsy_is_not_http_malformed (message : object) :
  truthy (prop message "method") = false -> http_malformed message = false.
Proof.
  intros Hf. unfold http_malformed. rewrite (falsy_is_not_malformed _ Hf). simpl.
  destruct (prop message "method") as [| |[]|z|m|items|fields]; try reflexivity;
    try discriminate.
  simpl in Hf. apply negb_false_iff, String.eqb_eq in Hf. now subst m.
Qed.

Lemma not_callable_is_http_malformed (message : object) :
  truthy (prop message "method") = true ->
  (forall m, prop message "method" <> VStr m) ->
  http_malformed message = true.
Proof.
  intros Ht Hns. unfold http_malformed.
  now rewrite (not_callable_is_malformed _ Ht Hns).
Qed.

(** What each way of ending says about envelope, shape and status. *)
Lemma http_case_summary (message : object) (w w' : World) (r : http_response) :
  http_case message w r w' ->
  (bad_envelope message = true /\ status r = 400%Z /\ body r <> None)
  \/ (bad_envelope message = false /\ http_malformed message = true
      /\ status r = 500%Z /\ body r <> None)
  \/ (bad_envelope message = false /\ http_malformed message = false
      /\ ((status r = 202%Z /\ body r = None) \/ (status r = 200%Z /\ body r <> None))).
Proof.
  intros Hcase.
  destruct Hcase as [Hprint Hbad|Hok Hm|Hprint Hok Ht Hns|m Hok Hm Hn|Hok Hm|Hok Hm Hp
                    |Hok Hm Hp Hname|envelope w' Hok Hm Hp Hname Hrun
                    |Hok Hm|Hok Hm|Hok Hnf]; simpl.
  - left. repeat split; first [assumption|discriminate].
  - right. right. rewrite (string_method_http_malformed _ _ Hm).
    repeat split; try assumption. right. split; [reflexivity|discriminate].
  - right. left. rewrite (not_callable_is_http_malformed _ Ht Hns).
    repeat split; first [assumption|discriminate].
  - right. right. rewrite (string_method_http_malformed _ _ Hm).
    destruct (notification_is_no_request m Hn) as (_ & _ & _ & ->).
    repeat split; try assumption. left. split; reflexivity.
  - right. right. rewrite (string_method_http_malformed _ _ Hm).
    repeat split; try assumption. right. split; [reflexivity|discriminate].
  - right. left. rewrite (string_method_http_malformed _ _ Hm), Hp.
    repeat split; first [assumption|discriminate].
  - right. left. rewrite (string_method_http_malformed _ _ Hm), Hp, Hname.
    repeat split; first [assumption|discriminate].
  - right. right. rewrite (string_method_http_malformed _ _ Hm), Hp, Hname.
    repeat split; try assumption. right. split; [reflexivity|discriminate].
  - right. right. rewrite (string_method_http_malformed _ _ Hm).
    repeat split; try assumption. right. split; [reflexivity|discriminate].
  - right. right. rewrite (string_method_http_malformed _ _ Hm).
    repeat split; try assumption. right. split; [reflexivity|discriminate].
  - right. right. split; [exact Hok|]. split.
    + destruct Hnf as [Hf|(m & Hm & Hrec)]; [now apply falsy_is_not_http_malformed|].
      rewrite (string_method_http_malformed _ _ Hm).
      now destruct (http_unrecognized m Hrec) as [-> _].
    + right. split; [reflexivity|discriminate].
Qed.

(** X9. [POST /] throws exactly when its first log line, which stands
    before the envelope check and outside the [try], cannot print
    [method]: an object with a key [toString], or an array holding one.
    For every other message it answers, whatever the backend does: 400
    exactly when [jsonrpc] is not "2.0"; 500 exactly when, with a good
    envelope, [method] is a truthy non-string, a [tools/call] has no
    [params], or a [tools/call] has a [name] its log line cannot print
    (never because a tool or the backend failed); 202 exactly when it
    sends no body; and 200 otherwise. *)
Theorem post_root_status (message : object) (w : World) :
  (convertible (prop message "method") = false ->
   HttpServer.post_root message w
   = (Throws (new_TypeError (engine_message (NotPrimitive (prop message "method")))), w))
  /\ (convertible (prop message "method") = true ->
      exists r w',
        HttpServer.post_root message w = (Returns r, w')
        /\ (status r = 400%Z <-> prop message "jsonrpc" <> VStr "2.0")
        /\ (status r = 500%Z
            <-> prop message "jsonrpc" = VStr "2.0" /\ http_malformed message = true)
        /\ (status r = 202%Z <-> body r = None)
        /\ (status r = 200 \/ status r = 202 \/ status r = 400 \/ status r = 500)%Z).
Proof.
  split; [apply post_root_throws|]. intros Hprint.
  destruct (post_root_case message w Hprint) as (r & w' & Hrun & Hcase).
  exists r, w'. split; [exact Hrun|].
  pose proof (bad_envelope_iff message) as Hiff.
  destruct (http_case_summary _ _ _ _ Hcase)
    as [(Hbad & Hs & Hb)|[(Hok & Hmal & Hs & Hb)|(Hok & Hmal & [[Hs Hb]|[Hs Hb]])]];
    rewrite Hs.
  - assert (prop message "jsonrpc" <> VStr "2.0") as Hne.
    { intros Heq. apply Hiff in Heq. congruence. }
    repeat split; try discriminate; try tauto; try (intros [? _]; contradiction).
  - apply Hiff in Hok.
    repeat split; try discriminate; try tauto; try (intros Hne; contradiction).
  - apply Hiff in Hok.
    repeat split; try discriminate; try tauto; try (intros Hne; contradiction).
    intros [_ Hm]. congruence.
  - apply Hiff in Hok.
    repeat split; try discriminate; try tauto; try (intros Hne; contradiction).
    intros [_ Hm]. congruence.
Qed.

Lemma rpc_result_well_formed (id result : value) :
  result <> VUndefined -> well_formed_reply id (rpc_result id result).
Proof. intros Hr. split; [reflexivity|]. split; [reflexivity|]. right. now split. Qed.

Lemma rpc_error_well_formed (id : value) (code : Z) (msg : string) :
  well_formed_reply id (rpc_error id code msg).
Proof. split; [reflexivity|]. split; [reflexivity|]. left. split; [reflexivity|discriminate]. Qed.

Lemma rpc_error_data_well_formed (id : value) (code : Z) (msg : string) (data : value) :
  well_formed_reply id (rpc_error_data id code msg data).
Proof. split; [reflexivity|]. split; [reflexivity|]. left. split; [reflexivity|discriminate]. Qed.

(** X10. Every body [POST /] sends is a JSON-RPC response to the message
    it answers: [jsonrpc] is "2.0", [id] is the message's [id]
    ([undefined] when it had none), and exactly one of [result] and
    [error] is present. *)
Theorem post_root_replies_are_well_formed (message : object) (w w' : World)
    (r : http_response) (frame : value) :
  HttpServer.post_root message w = (Returns r, w') ->
  body r = Some frame ->
  well_formed_reply (prop message "id") frame.
Proof.
  intros Hrun Hbody.
  destruct (convertible (prop message "method")) eqn:Hprint;
    [|rewrite (post_root_throws message w Hprint) in Hrun; discriminate Hrun].
  destruct (post_root_case message w Hprint) as (r0 & w0 & Hrun0 & Hcase).
  rewrite Hrun in Hrun0. injection Hrun0 as <- <-.
  destruct Hcase as [_ Hbad|Hok Hm|_ Hok Ht Hns|m Hok Hm Hn|Hok Hm|Hok Hm Hp
                    |Hok Hm Hp Hname|envelope w1 Hok Hm Hp Hname Htool
                    |Hok Hm|Hok Hm|Hok Hnf];
    simpl in Hbody; try discriminate; injection Hbody as <-;
    try apply rpc_error_well_formed; try apply rpc_error_data_well_formed;
    try (apply rpc_result_well_formed; discriminate).
  apply rpc_result_well_formed.
  destruct (executeTool_total HttpServer.API_BASE_URL
              (member (prop message "params") "name")
              (member (prop message "params") "arguments") w)
    as (envelope' & w2 & Hrun' & Hshape).
  rewrite Htool in Hrun'. injection Hrun' as <- <-.
  destruct (toolSwitch _ _ _ w) as [[result|e] w3]; destruct Hshape as [-> _]; discriminate.
Qed.

(** What each way of ending [post_message] says about status and what
    is written. *)
Lemma sse_case_summary (message : object) (w w1 : World) (r : http_response)
    (chunks : list string) :
  sse_case message w r chunks w1 ->
  at_most_one_fetch w w1
  /\ (prop message "method" <> VStr "tools/call" -> w1 = w)
  /\ ((bad_envelope message = true /\ status r = 400%Z /\ chunks = [])
      \/ (bad_envelope message = false /\ malformed message = true
          /\ status r = 500%Z /\ chunks = [])
      \/ (bad_envelope message = false /\ malformed message = false /\ r = accepted
          /\ (chunks = []
              \/ exists reply, chunks = message_frame reply
                               /\ well_formed_reply (prop message "id") reply))).
Proof.
  intros Hcase.
  destruct Hcase as [Hbad|Hok Hm|Hok Hm Hp|result w1 Hok Hm Hp Hrun|e w1 Hok Hm Hp Hrun
                    |Hok Hm|m Hok Hm Hn|Hok _ Ht Hns|Hok Hprint|Hok Hf
                    |m Hok Hm Hne Hrec Hid|m Hok Hm Hne Hrec Hid].
  - split; [apply at_most_one_fetch_refl|]. split; [reflexivity|]. left. now repeat split.
  - split; [apply at_most_one_fetch_refl|]. split; [reflexivity|]. right. right.
    rewrite (string_method_malformed _ _ Hm). repeat split; try assumption.
    right. eexists. split; [reflexivity|]. now apply rpc_result_well_formed.
  - split; [apply at_most_one_fetch_refl|]. split; [reflexivity|]. right. left.
    rewrite (string_method_malformed _ _ Hm), Hp. now repeat split.
  - split; [|split; [congruence|]].
    { pose proof (toolSwitch_at_most_one_fetch SseServer.API_BASE_URL
                    (member (prop message "params") "name")
                    (member (prop message "params") "arguments") w) as Hf.
      now rewrite Hrun in Hf. }
    right. right. rewrite (string_method_malformed _ _ Hm), Hp.
    repeat split; try assumption.
    right. eexists. split; [reflexivity|]. now apply rpc_result_well_formed.
  - split; [|split; [congruence|]].
    { pose proof (toolSwitch_at_most_one_fetch SseServer.API_BASE_URL
                    (member (prop message "params") "name")
                    (member (prop message "params") "arguments") w) as Hf.
      now rewrite Hrun in Hf. }
    right. right. rewrite (string_method_malformed _ _ Hm), Hp.
    repeat split; try assumption.
    right. eexists. split; [reflexivity|]. apply rpc_error_well_formed.
  - split; [apply at_most_one_fetch_refl|]. split; [reflexivity|]. right. right.
    rewrite (string_method_malformed _ _ Hm). repeat split; try assumption.
    right. eexists. split; [reflexivity|]. now apply rpc_result_well_formed.
  - split; [apply at_most_one_fetch_refl|]. split; [reflexivity|]. right. right.
    rewrite (string_method_malformed _ _ Hm).
    destruct (notification_is_no_request m Hn) as (_ & _ & _ & ->).
    repeat split; try assumption. now left.
  - split; [apply at_most_one_fetch_refl|]. split; [reflexivity|]. right. left.
    rewrite (not_callable_is_malformed _ Ht Hns). now repeat split.
  - split; [apply at_most_one_fetch_refl|]. split; [reflexivity|]. right. left.
    destruct (not_convertible _ Hprint) as [Ht Hns].
    rewrite (not_callable_is_malformed _ Ht Hns). now repeat split.
  - split; [apply at_most_one_fetch_refl|]. split; [reflexivity|]. right. right.
    rewrite (falsy_is_not_malformed _ Hf). repeat split; try assumption. now left.
  - split; [apply at_most_one_fetch_refl|]. split; [reflexivity|]. right. right.
    rewrite (string_method_malformed _ _ Hm).
    destruct (sse_unrecognized m Hrec) as [-> _].
    repeat split; try assumption. now left.
  - split; [apply at_most_one_fetch_refl|]. split; [reflexivity|]. right. right.
    rewrite (string_method_malformed _ _ Hm).
    destruct (sse_unrecognized m Hrec) as [-> _].
    repeat split; try assumption.
    right. eexists. split; [reflexivity|]. apply rpc_error_well_formed.
Qed.

(** X11. An injection for a registered session never throws and changes
    the world in two ways at most: one backend request logged, and one
    [message] event appended to that session's stream. The event, when
    there is one, carries a JSON-RPC response to the message (same [id],
    exactly one of [result] and [error]) and the injection is then
    acknowledged; a message turned away with 400 (bad envelope) or 500
    (a [method] on which [startsWith] cannot be called, or a
    [tools/call] without [params]) writes nothing. *)
Theorem post_message_writes_one_reply (q h : option string) (message : object)
    (w : World) (ses : session) :
  addressed q h w ses ->
  exists r chunks w1,
    SseServer.post_message q h message w
    = (Returns r, set_streams (deliver (res ses) chunks) w1)
    /\ at_most_one_fetch w w1
    /\ (status r = 400%Z <-> prop message "jsonrpc" <> VStr "2.0")
    /\ (status r = 500%Z <-> prop message "jsonrpc" = VStr "2.0" /\ malformed message = true)
    /\ (status r = 202 \/ status r = 400 \/ status r = 500)%Z
    /\ (chunks = []
        \/ (r = accepted
            /\ exists reply, chunks = message_frame reply
                             /\ well_formed_reply (prop message "id") reply)).
Proof.
  intros Haddr.
  destruct (post_message_case q h message w ses Haddr) as (r & chunks & w1 & Hrun & Hcase).
  exists r, chunks, w1. split; [exact Hrun|].
  pose proof (bad_envelope_iff message) as Hiff.
  destruct (sse_case_summary _ _ _ _ _ Hcase)
    as (Hfetch & _ & [(Hbad & Hs & Hc)|[(Hok & Hmal & Hs & Hc)|(Hok & Hmal & Hr & Hc)]]);
    (split; [exact Hfetch|]); try subst r; try rewrite Hs.
  - assert (prop message "jsonrpc" <> VStr "2.0") as Hne.
    { intros Heq. apply Hiff in Heq. congruence. }
    repeat split; try discriminate; try tauto; try (intros [? _]; contradiction).
  - apply Hiff in Hok.
    repeat split; try discriminate; try tauto; try (intros Hne; contradiction).
  - apply Hiff in Hok. simpl.
    repeat split; try discriminate; try tauto; try (intros Hne; contradiction).
    intros [_ Hm]. congruence.
Qed.

(** C6, as amended. Take a message with [jsonrpc: "2.0"] whose [method]
    is a string or is falsy, and which has [params] when the method is
    [tools/call], injected for a registered session. Whatever the
    dispatch outcome, the injection request is answered 202 with the body
    [{status: "accepted"}], which carries nothing of the outcome; the
    registry, the timers and the other streams are untouched; and the
    JSON-RPC outcome is written as a [message] event on that session's
    stream: the catalog for [tools/list], the handshake for
    [initialize], the result envelope when the run of a [tools/call]
    returns and error -32603 with the failure's message when it throws
    (unknown tool, backend refusal, network failure), error -32601 for a
    method without a branch when the message has an id. Where there is
    no outcome (a notification, a falsy method, an unknown method
    without id) nothing is written. *)
Theorem injection_is_acknowledged (message : object) (w : World)
    (q h : option string) (ses : session) :
  addressed q h w ses ->
  prop message "jsonrpc" = VStr "2.0" ->
  (truthy (prop message "method") = true -> exists m, prop message "method" = VStr m) ->
  (prop message "method" = VStr "tools/call" -> nullish (prop message "params") = false) ->
  let id := prop message "id" in
  let method := prop message "method" in
  let run := toolSwitch SseServer.API_BASE_URL (member (prop message "params") "name")
               (member (prop message "params") "arguments") w in
  exists chunks w1,
    SseServer.post_message q h message w
    = (Returns accepted, set_streams (deliver (res ses) chunks) w1)
    /\ only_fetches w w1
    /\ (method <> VStr "tools/call" -> w1 = w)
    /\ (method = VStr "tools/list" ->
        chunks = message_frame (rpc_result id (VObj [("tools", VArr tools)])))
    /\ (method = VStr "initialize" ->
        chunks = message_frame (rpc_result id initialize_result))
    /\ (method = VStr "tools/call" ->
        w1 = snd run
        /\ chunks = message_frame
                      match fst run with
                      | Returns result => rpc_result id (envelope_ok result)
                      | Throws e => rpc_error id (-32603) (Js.message e)
                      end)
    /\ (forall m, method = VStr m -> m <> "" -> sse_recognized m = false ->
        id <> VUndefined ->
        chunks = message_frame (rpc_error id (-32601) ("Method not found: " +:+ m)))
    /\ (truthy method = false
        \/ (exists m, method = VStr m /\ String.prefix "notifications/" m = true)
        \/ (exists m, method = VStr m /\ sse_recognized m = false /\ id = VUndefined) ->
        chunks = []).
Proof.
  intros Haddr Hrpc Hstr Hparams id method run. subst id method run.
  assert (bad_envelope message = false) as Hok by now apply bad_envelope_iff.
  destruct (post_message_case q h message w ses Haddr) as (r & chunks & w1 & Hrun & Hcase).
  destruct (sse_case_summary _ _ _ _ _ Hcase) as ([Hfetch _] & Hsame & _).
  exists chunks, w1.
  assert (forall a b, prop message "method" = VStr a -> prop message "method" = VStr b ->
                      a = b) as Hone by congruence.
  assert (forall m, prop message "method" = VStr m -> m <> "" ->
                    truthy (prop message "method") = true) as Htruthy.
  { intros m Hm Hne. rewrite Hm. simpl. apply negb_true_iff. now apply String.eqb_neq. }
  assert (forall m, String.prefix "notifications/" m = true -> sse_recognized m = true)
    as Hnote.
  { intros m Hn. unfold sse_recognized. rewrite Hn. apply orb_true_r. }
  destruct Hcase as [Hbad|_ Hm|_ Hm Hp|result w1 _ Hm Hp Htool|e w1 _ Hm Hp Htool
                    |_ Hm|m _ Hm Hn|_ _ Ht Hns|_ Hprint|_ Hf
                    |m _ Hm Hne Hrec Hid|m _ Hm Hne Hrec Hid].
  - congruence.
  - split; [exact Hrun|]. split; [exact Hfetch|]. split; [exact Hsame|].
    split; [reflexivity|].
    split; [intros Hi; discriminate (Hone _ _ Hm Hi)|].
    split; [intros Hc; discriminate (Hone _ _ Hm Hc)|].
    split.
    + intros m Hm' _ Hrec _. rewrite <- (Hone _ _ Hm Hm') in Hrec. discriminate Hrec.
    + intros [Hf|[(m & Hm' & Hn)|(m & Hm' & Hrec & _)]].
      * rewrite Hm in Hf. discriminate Hf.
      * rewrite <- (Hone _ _ Hm Hm') in Hn. discriminate Hn.
      * rewrite <- (Hone _ _ Hm Hm') in Hrec. discriminate Hrec.
  - rewrite (Hparams Hm) in Hp. discriminate Hp.
  - split; [exact Hrun|]. split; [exact Hfetch|]. split; [exact Hsame|].
    split; [intros Hl; discriminate (Hone _ _ Hm Hl)|].
    split; [intros Hi; discriminate (Hone _ _ Hm Hi)|].
    split; [intros _; rewrite Htool; split; reflexivity|].
    split.
    + intros m Hm' _ Hrec _. rewrite <- (Hone _ _ Hm Hm') in Hrec. discriminate Hrec.
    + intros [Hf|[(m & Hm' & Hn)|(m & Hm' & Hrec & _)]].
      * rewrite Hm in Hf. discriminate Hf.
      * rewrite <- (Hone _ _ Hm Hm') in Hn. discriminate Hn.
      * rewrite <- (Hone _ _ Hm Hm') in Hrec. discriminate Hrec.
  - split; [exact Hrun|]. split; [exact Hfetch|]. split; [exact Hsame|].
    split; [intros Hl; discriminate (Hone _ _ Hm Hl)|].
    split; [intros Hi; discriminate (Hone _ _ Hm Hi)|].
    split; [intros _; rewrite Htool; split; reflexivity|].
    split.
    + intros m Hm' _ Hrec _. rewrite <- (Hone _ _ Hm Hm') in Hrec. discriminate Hrec.
    + intros [Hf|[(m & Hm' & Hn)|(m & Hm' & Hrec & _)]].
      * rewrite Hm in Hf. discriminate Hf.
      * rewrite <- (Hone _ _ Hm Hm') in Hn. discriminate Hn.
      * rewrite <- (Hone _ _ Hm Hm') in Hrec. discriminate Hrec.
  - split; [exact Hrun|]. split; [exact Hfetch|]. split; [exact Hsame|].
    split; [intros Hl; discriminate (Hone _ _ Hm Hl)|].
    split; [reflexivity|].
    split; [intros Hc; discriminate (Hone _ _ Hm Hc)|].
    split.
    + intros m Hm' _ Hrec _. rewrite <- (Hone _ _ Hm Hm') in Hrec. discriminate Hrec.
    + intros [Hf|[(m & Hm' & Hn)|(m & Hm' & Hrec & _)]].
      * rewrite Hm in Hf. discriminate Hf.
      * rewrite <- (Hone _ _ Hm Hm') in Hn. discriminate Hn.
      * rewrite <- (Hone _ _ Hm Hm') in Hrec. discriminate Hrec.
  - split; [exact Hrun|]. split; [exact Hfetch|]. split; [exact Hsame|].
    split; [intros Hl; rewrite (Hone _ _ Hm Hl) in Hn; discriminate Hn|].
    split; [intros Hi; rewrite (Hone _ _ Hm Hi) in Hn; discriminate Hn|].
    split; [intros Hc; rewrite (Hone _ _ Hm Hc) in Hn; discriminate Hn|].
    split; [|reflexivity].
    intros m' Hm' _ Hrec _. rewrite <- (Hone _ _ Hm Hm'), (Hnote m Hn) in Hrec.
    discriminate Hrec.
  - destruct (Hstr Ht) as [m Hm]. now destruct (Hns m).
  - destruct (not_convertible _ Hprint) as [Ht Hns].
    destruct (Hstr Ht) as [m Hm]. now destruct (Hns m).
  - split; [exact Hrun|]. split; [exact Hfetch|]. split; [exact Hsame|].
    split; [intros Hl; rewrite Hl in Hf; discriminate Hf|].
    split; [intros Hi; rewrite Hi in Hf; discriminate Hf|].
    split; [intros Hc; rewrite Hc in Hf; discriminate Hf|].
    split; [|reflexivity].
    intros m Hm Hne _ _. rewrite (Htruthy m Hm Hne) in Hf. discriminate Hf.
  - split; [exact Hrun|]. split; [exact Hfetch|]. split; [exact Hsame|].
    split; [intros Hl; rewrite (Hone _ _ Hm Hl) in Hrec; discriminate Hrec|].
    split; [intros Hi; rewrite (Hone _ _ Hm Hi) in Hrec; discriminate Hrec|].
    split; [intros Hc; rewrite (Hone _ _ Hm Hc) in Hrec; discriminate Hrec|].
    split; [|reflexivity].
    intros m' _ _ _ Hid'. contradiction.
  - split; [exact Hrun|]. split; [exact Hfetch|]. split; [exact Hsame|].
    split; [intros Hl; rewrite (Hone _ _ Hm Hl) in Hrec; discriminate Hrec|].
    split; [intros Hi; rewrite (Hone _ _ Hm Hi) in Hrec; discriminate Hrec|].
    split; [intros Hc; rewrite (Hone _ _ Hm Hc) in Hrec; discriminate Hrec|].
    split.
    + intros m' Hm' _ _ _. now rewrite (Hone _ _ Hm Hm').
    + intros [Hf|[(m' & Hm' & Hn)|(m' & Hm' & _ & Hid')]].
      * rewrite (Htruthy m Hm Hne) in Hf. discriminate Hf.
      * rewrite (Hone _ _ Hm Hm'), (Hnote m' Hn) in Hrec. discriminate Hrec.
      * contradiction.
Qed.

(** Without a usable session identifier [post_message] leaves the world
    as it was. *)
Lemma post_message_route (q h : option string) (message : object) (w : World) :
  snd (SseServer.post_message q h message w) = w \/ exists ses, addressed q h w ses.
Proof.
  unfold SseServer.post_message.
  destruct (SseServer.or_else q h) as [sid|] eqn:Hor; [|now left].
  destruct (String.eqb sid "") eqn:He; [now left|].
  unfold bind at 1. unfold gets at 1. cbv beta iota.
  destruct (sessions w !! sid) as [ses|] eqn:Hget; [|now left].
  right. exists ses, sid. repeat split; try assumption. now apply String.eqb_neq.
Qed.

(** X12. On both transports only [tools/call] reaches the backend: a
    message with any other [method] (or none) logs no request, and a
    [tools/call] logs at most one. *)
Theorem only_tools_call_reaches_backend (q h : option string) (message : object)
    (w : World) :
  let after_http := snd (HttpServer.post_root message w) in
  let after_sse := snd (SseServer.post_message q h message w) in
  (fetched after_http = fetched w
   \/ exists r, fetched after_http = (fetched w ++ [r])%list)
  /\ (fetched after_sse = fetched w
      \/ exists r, fetched after_sse = (fetched w ++ [r])%list)
  /\ (prop message "method" <> VStr "tools/call" ->
      fetched after_http = fetched w /\ fetched after_sse = fetched w).
Proof.
  intros after_http after_sse. subst after_http after_sse.
  assert ((fetched (snd (HttpServer.post_root message w)) = fetched w
           \/ exists r, fetched (snd (HttpServer.post_root message w)) = (fetched w ++ [r])%list)
          /\ (prop message "method" <> VStr "tools/call" ->
              fetched (snd (HttpServer.post_root message w)) = fetched w)) as [Hh1 Hh2].
  { destruct (convertible (prop message "method")) eqn:Hprint;
      [|rewrite (post_root_throws message w Hprint); split; [now left|reflexivity]].
    destruct (post_root_case message w Hprint) as (r & w' & Hrun & Hcase).
    rewrite Hrun. simpl.
    destruct Hcase as [_ Hbad|Hok Hm|_ Hok Ht Hns|m Hok Hm Hn|Hok Hm|Hok Hm Hp
                      |Hok Hm Hp Hname|envelope w1 Hok Hm Hp Hname Htool
                      |Hok Hm|Hok Hm|Hok Hnf];
      try (split; [now left|reflexivity]).
    pose proof (executeTool_at_most_one_fetch HttpServer.API_BASE_URL
                  (member (prop message "params") "name")
                  (member (prop message "params") "arguments") w) as [_ Hf].
    rewrite Htool in Hf. split; [exact Hf|]. intros Hne. contradiction. }
  assert ((fetched (snd (SseServer.post_message q h message w)) = fetched w
           \/ exists r, fetched (snd (SseServer.post_message q h message w))
                        = (fetched w ++ [r])%list)
          /\ (prop message "method" <> VStr "tools/call" ->
              fetched (snd (SseServer.post_message q h message w)) = fetched w)) as [Hs1 Hs2].
  { destruct (post_message_route q h message w) as [->|[ses Haddr]].
    { split; [now left|reflexivity]. }
    destruct (post_message_case q h message w ses Haddr)
      as (r & chunks & w1 & Hrun & Hcase).
    rewrite Hrun. simpl.
    destruct (sse_case_summary _ _ _ _ _ Hcase) as ([_ Hf] & Hsame & _).
    split; [exact Hf|]. intros Hne. now rewrite (Hsame Hne). }
  split; [exact Hh1|]. split; [exact Hs1|]. intros Hne. split; auto.
Qed.

(** X13. [initialize] is answered on both transports, without any
    backend call or change to the registry, by a result that echoes the
    request's [id] and announces protocol version "2024-11-05" and the
    server name of the environment (default "lapalma24-propiedades"). *)
Theorem initialize_handshake (message : object) (w : World)
    (q h : option string) (ses : session) :
  prop message "jsonrpc" = VStr "2.0" ->
  prop message "method" = VStr "initialize" ->
  let reply := rpc_result (prop message "id") initialize_result in
  member reply "id" = prop message "id"
  /\ member (member reply "result") "protocolVersion" = VStr "2024-11-05"
  /\ member (member (member reply "result") "serverInfo") "name"
     = VStr (env_or "MCP_SERVER_NAME" "lapalma24-propiedades")
  /\ HttpServer.post_root message w = (Returns (res_json reply), w)
  /\ (addressed q h w ses ->
      SseServer.post_message q h message w
      = (Returns accepted, set_streams (deliver (res ses) (message_frame reply)) w)).
Proof.
  intros Hrpc Hmethod reply.
  assert (bad_envelope message = false) as Hok by now apply bad_envelope_iff.
  split; [reflexivity|]. split; [reflexivity|]. split; [reflexivity|]. split.
  - unfold HttpServer.post_root. rewrite Hok, Hmethod. reflexivity.
  - intros Haddr. enter_session Haddr. rewrite Hok, sse_try_block, Hmethod.
    change (is_str (VStr "initialize") "tools/list") with false.
    change (is_str (VStr "initialize") "tools/call") with false.
    change (is_str (VStr "initialize") "initialize") with true. cbv beta iota.
    rewrite write_message_deliver. reflexivity.
Qed.

(** X14. Over HTTP a message with a good envelope whose [method] has no
    branch gets status 200 with error -32601 and the message
    "Method not found: <String(method)>", whether or not it has an id; a
    message without [method] gets "Method not found: undefined". *)
Theorem http_method_not_found_reply (message : object) (w : World) :
  prop message "jsonrpc" = VStr "2.0" ->
  (truthy (prop message "method") = false
   \/ exists m, prop message "method" = VStr m /\ http_recognized m = false) ->
  HttpServer.post_root message w
  = (Returns (res_json (rpc_error (prop message "id") (-32601)
                          ("Method not found: " +:+ to_string (prop message "method")))), w).
Proof.
  intros Hrpc Hcase.
  assert (bad_envelope message = false) as Hok by now apply bad_envelope_iff.
  unfold HttpServer.post_root. rewrite Hok. unfold try_catch.
  destruct Hcase as [Hf|(m & Hm & Hrec)].
  - destruct (prop message "method") as [| |[]|z|m|items|fields]; try discriminate Hf;
      try reflexivity.
    + simpl in Hf. apply negb_false_iff in Hf.
      unfold is_str, bind, method_startsWith, truthy. rewrite Hf. reflexivity.
    + simpl in Hf. apply negb_false_iff, String.eqb_eq in Hf. subst m. reflexivity.
  - rewrite Hm. unfold http_recognized in Hrec. cbn [existsb] in Hrec.
    apply orb_false_elim in Hrec as [Hlist Hn].
    repeat (apply orb_false_elim in Hlist as [? Hlist]).
    unfold is_str, bind, method_startsWith, truthy.
    repeat match goal with
           | Heq : String.eqb m _ = false |- _ => rewrite Heq; clear Heq
           end.
    destruct (String.eqb m ""); cbn [negb]; cbv iota; [reflexivity|].
    unfold ret at 1. cbv beta iota. rewrite Hn. reflexivity.
Qed.

(** What [post_message] does with a method it has no branch for, when
    the message has an id. *)
Lemma sse_method_not_found_run (message : object) (m : string) (w : World)
    (q h : option string) (ses : session) :
  prop message "jsonrpc" = VStr "2.0" ->
  prop message "method" = VStr m ->
  m <> "" -> sse_recognized m = false ->
  prop message "id" <> VUndefined ->
  addressed q h w ses ->
  SseServer.post_message q h message w
  = (Returns accepted,
     set_streams (deliver (res ses)
                    (message_frame (rpc_error (prop message "id") (-32601)
                                      ("Method not found: " +:+ m)))) w).
Proof.
  intros Hrpc Hm Hfull Hrec Hid Haddr.
  assert (bad_envelope message = false) as Hok by now apply bad_envelope_iff.
  enter_session Haddr. rewrite Hok, sse_try_block, Hm.
  unfold sse_recognized in Hrec. cbn [existsb] in Hrec.
  apply orb_false_elim in Hrec as [Hlist Hn].
  repeat (apply orb_false_elim in Hlist as [? Hlist]).
  assert (String.eqb m "notifications/initialized" = false) as Hni.
  { destruct (String.eqb m "notifications/initialized") eqn:Heq; [|reflexivity].
    apply String.eqb_eq in Heq. subst m. discriminate Hn. }
  apply String.eqb_neq in Hfull.
  unfold is_str, bind, method_startsWith, truthy.
  repeat match goal with
         | Heq : String.eqb m _ = false |- _ => rewrite Heq; clear Heq
         end.
  cbn [negb]. cbv iota. unfold ret at 1. cbv beta iota. rewrite Hn.
  destruct (prop message "id"); try contradiction;
    rewrite write_message_deliver; reflexivity.
Qed.

(** X15. On the streaming transport a request (a message with an id)
    whose non-empty [method] has no branch is acknowledged with 202 and
    answered on the stream with error -32601 and the message
    "Method not found: <method>". *)
Theorem sse_method_not_found_reply (message : object) (m : string) (w : World)
    (q h : option string) (ses : session) :
  prop message "jsonrpc" = VStr "2.0" ->
  prop message "method" = VStr m ->
  m <> "" -> sse_recognized m = false ->
  prop message "id" <> VUndefined ->
  addressed q h w ses ->
  SseServer.post_message q h message w
  = (Returns accepted,
     set_streams (deliver (res ses)
                    (message_frame (rpc_error (prop message "id") (-32601)
                                      ("Method not found: " +:+ m)))) w).
Proof. apply sse_method_not_found_run. Qed.

(** X16. The two transports differ on [prompts/list] and
    [resources/list]: HTTP answers them with the empty lists
    [{prompts: []}] and [{resources: []}], the streaming transport has no
    branch for them and answers a request for either with error -32601. *)
Theorem capability_stubs_differ (message : object) (m : string) (w : World)
    (q h : option string) (ses : session) :
  prop message "jsonrpc" = VStr "2.0" ->
  prop message "method" = VStr m ->
  prop message "id" <> VUndefined ->
  m = "prompts/list" \/ m = "resources/list" ->
  HttpServer.post_root message w
  = (Returns (res_json (rpc_result (prop message "id")
                          (VObj [(if String.eqb m "prompts/list" then "prompts"
                                  else "resources", VArr [])]))), w)
  /\ (addressed q h w ses ->
      SseServer.post_message q h message w
      = (Returns accepted,
         set_streams (deliver (res ses)
                        (message_frame (rpc_error (prop message "id") (-32601)
                                          ("Method not found: " +:+ m)))) w)).
Proof.
  intros Hrpc Hm Hid Hstub.
  assert (bad_envelope message = false) as Hok by now apply bad_envelope_iff.
  split.
  - unfold HttpServer.post_root. rewrite Hok, Hm. destruct Hstub as [->| ->]; reflexivity.
  - intros Haddr. apply sse_method_not_found_run; try assumption;
      destruct Hstub as [->| ->]; first [discriminate|reflexivity].
Qed.

(** X17. When the tool run returns, both transports answer a
    [tools/call] with the same result: an envelope without [isError]
    whose single text item is the backend's JSON printed with two-space
    indentation. *)
Theorem tools_call_success_envelope (message : object) (w w1 : World) (result : value)
    (q h : option string) (ses : session) :
  prop message "jsonrpc" = VStr "2.0" ->
  prop message "method" = VStr "tools/call" ->
  nullish (prop message "params") = false ->
  let name := member (prop message "params") "name" in
  let args := member (prop message "params") "arguments" in
  let reply :=
    rpc_result (prop message "id")
      (VObj [("content",
              VArr [VObj [("type", VStr "text"); ("text", stringify_pretty result)]])]) in
  (toolSwitch HttpServer.API_BASE_URL name args w = (Returns result, w1) ->
   HttpServer.post_root message w = (Returns (res_json reply), w1))
  /\ (toolSwitch SseServer.API_BASE_URL name args w = (Returns result, w1) ->
      addressed q h w ses ->
      SseServer.post_message q h message w
      = (Returns accepted, set_streams (deliver (res ses) (message_frame reply)) w1)).
Proof.
  intros Hrpc Hm Hp name args reply.
  assert (bad_envelope message = false) as Hok by now apply bad_envelope_iff.
  split.
  - intros Hrun.
    assert (convertible (prop message "method") = true) as Hprint by now rewrite Hm.
    pose proof (toolSwitch_returns _ _ _ _ _ _ Hrun) as Hname.
    enter_root Hprint. rewrite Hok, Hm.
    change (is_str (VStr "tools/call") "initialize") with false.
    change (is_str (VStr "tools/call") "tools/list") with false.
    change (is_str (VStr "tools/call") "tools/call") with true. cbv beta iota.
    unfold try_catch, bind, method_startsWith. simpl.
    unfold destructurable. rewrite Hp. unfold ret at 1. cbv beta iota.
    subst name args. rewrite ToString_run, Hname.
    unfold executeTool, try_catch, bind. rewrite Hrun. reflexivity.
  - intros Hrun Haddr. enter_session Haddr. rewrite Hok, sse_try_block, Hm.
    change (is_str (VStr "tools/call") "tools/list") with false.
    change (is_str (VStr "tools/call") "tools/call") with true. cbv beta iota.
    unfold bind, destructurable. rewrite Hp. unfold ret at 1. cbv beta iota.
    unfold try_catch. subst name args. rewrite Hrun.
    rewrite write_message_deliver. reflexivity.
Qed.

End Routers.

(** ** Beyond the claims: the life of a session *)

Section Lifecycle.
Context `{Platform}.

(** X18. [GET /sse] settles on the client's identifier when it sent a
    non-empty one and on the random one otherwise, and sends it as the
    header [X-Session-Id]. When the identifier is a header value (tab,
    U+0020 to U+007E, U+0080 to U+00FF), the next stream is opened and
    registered, replacing whatever the identifier mapped to: the stream
    starts with exactly the [endpoint] event (advertising
    [/message?sessionId=<id>]) and the [connected] event; its heartbeat
    is scheduled; other sessions, other streams and the backend log are
    untouched. For any other identifier [writeHead] throws before
    anything is registered, written or scheduled. *)
Theorem open_registers_session (q : option string) (random : string) (now : Z)
    (iso : string) (w : World) :
  let sid := chosen_sessionId q random in
  let c := length (streams w) in
  let w' := snd (SseServer.get_sse q random now iso w) in
  (forall s, q = Some s -> s <> "" -> sid = s)
  /\ (q = None \/ q = Some "" -> sid = random)
  /\ (header_value_ok sid = true ->
      fst (SseServer.get_sse q random now iso w) = Returns c
      /\ sessions w' !! sid = Some (Session c now)
      /\ (forall other, other <> sid -> sessions w' !! other = sessions w !! other)
      /\ streams w' = (streams w ++ [Stream (greeting sid iso) false sid c])%list
      /\ intervals w' = intervals w ∪ {[c]}
      /\ fetched w' = fetched w)
  /\ (header_value_ok sid = false ->
      SseServer.get_sse q random now iso w
      = (Throws (new_TypeError (engine_message (InvalidHeaderChar "X-Session-Id"))), w)).
Proof.
  intros sid c w'. subst sid c w'. rewrite get_sse_run.
  split; [|split; [|split]].
  - intros s -> Hs. unfold chosen_sessionId. apply String.eqb_neq in Hs. now rewrite Hs.
  - intros [->| ->]; reflexivity.
  - intros ->. cbn [fst snd sessions streams intervals fetched].
    split; [reflexivity|]. split; [apply lookup_insert_eq|]. split.
    + intros other Hother. now apply lookup_insert_ne.
    + repeat split.
  - intros ->. reflexivity.
Qed.

(** X19. A session's life, from any world: after [GET /sse] settles on
    a non-empty identifier that is a header value, a [tools/list]
    injected under it is acknowledged and the stream holds the greeting
    followed by one [message] event with the catalog; once the stream's
    [close] callback has run, the identifier is gone, the heartbeat is
    cancelled, and the same injection is answered 404 and changes
    nothing. *)
Theorem session_lifecycle (q : option string) (random : string) (now : Z) (iso : string)
    (id : value) (w : World) :
  let sid := chosen_sessionId q random in
  let c := length (streams w) in
  let listing := [("jsonrpc", VStr "2.0"); ("id", id); ("method", VStr "tools/list")] in
  let reply := rpc_result id (VObj [("tools", VArr tools)]) in
  let opened := snd (SseServer.get_sse q random now iso w) in
  sid <> "" -> header_value_ok sid = true ->
  exists answered,
    SseServer.post_message (Some sid) None listing opened = (Returns accepted, answered)
    /\ streams answered
       = (streams w ++ [Stream (greeting sid iso ++ message_frame reply) false sid c])%list
    /\ let closed := snd (SseServer.on_close c answered) in
       sessions closed !! sid = None
       /\ (c ∉ intervals closed)
       /\ SseServer.post_message (Some sid) None listing closed
          = (Returns (SseServer.plain_error 404 "Session not found"), closed).
Proof.
  intros sid c listing reply opened Hsid Hvalid. subst opened. rewrite get_sse_run.
  fold sid c. rewrite Hvalid. cbn [snd]. apply String.eqb_neq in Hsid.
  set (opened := mkWorld _ _ _ _).
  assert (SseServer.post_message (Some sid) None listing opened
          = (Returns accepted, set_streams (deliver c (message_frame reply)) opened)) as Hrun.
  { unfold SseServer.post_message. cbn [SseServer.or_else]. rewrite !Hsid.
    unfold bind at 1. unfold gets at 1. cbv beta iota.
    subst opened. cbn [sessions]. rewrite lookup_insert_eq.
    cbv beta iota zeta.
    change (bad_envelope listing) with false. cbv iota. rewrite sse_try_block.
    change (prop listing "method") with (VStr "tools/list"). cbn [convertible].
    change (is_str (VStr "tools/list") "tools/list") with true. cbv iota.
    rewrite write_message_deliver. reflexivity. }
  eexists. split; [exact Hrun|].
  assert (streams (set_streams (deliver c (message_frame reply)) opened)
          = (streams w ++ [Stream (greeting sid iso ++ message_frame reply) false sid c])%list)
    as Hstreams.
  { subst opened. unfold set_streams. cbn [streams]. subst c. apply deliver_last. }
  split; [exact Hstreams|]. cbv zeta.
  rewrite on_close_run. cbn [snd]. unfold after_close. rewrite Hstreams.
  rewrite list_lookup_middle by reflexivity.
  cbn [sessionId_of heartbeat_of sessions intervals streams fetched].
  split; [apply lookup_delete_eq|]. split; [set_solver|].
  unfold SseServer.post_message. cbn [SseServer.or_else]. rewrite !Hsid.
  unfold bind, gets. cbn [sessions]. rewrite lookup_delete_eq. reflexivity.
Qed.

(** X20. The [close] callback deletes the registry entry of its
    identifier even when that entry belongs to another, newer stream
    opened under the same identifier: that stream stays open and
    unchanged, but its identifier is no longer found. *)
Theorem close_unregisters_by_identifier (c : nat) (st : stream) (ses : session)
    (w : World) :
  streams w !! c = Some st ->
  sessions w !! sessionId_of st = Some ses ->
  res ses <> c ->
  let w' := snd (SseServer.on_close c w) in
  sessions w' !! sessionId_of st = None
  /\ streams w' !! res ses = streams w !! res ses.
Proof.
  intros Hst Hses Hother w'. subst w'. rewrite on_close_run. cbn [snd].
  unfold after_close. rewrite Hst. cbn [sessions streams].
  split; [apply lookup_delete_eq|]. apply list_lookup_alter_ne. congruence.
Qed.

(** X21. A heartbeat whose write succeeds appends one [ping] event to
    its stream and changes nothing else. One whose write throws only
    cancels the timer: the session stays registered and the stream open
    until the [close] callback runs, and the heartbeat never fires
    again. *)
Theorem heartbeat_tick_effect (c : nat) (st : stream) (iso : string) (w : World) :
  streams w !! c = Some st ->
  heartbeat_of st ∈ intervals w ->
  SseServer.heartbeat_tick c iso None w
  = (Returns tt, set_streams (deliver c (ping_frame iso)) w)
  /\ forall e,
       let failed := set_intervals (fun live => live ∖ {[heartbeat_of st]}) w in
       SseServer.heartbeat_tick c iso (Some e) w = (Returns tt, failed)
       /\ sessions failed = sessions w
       /\ streams failed = streams w
       /\ forall iso' broken,
            SseServer.heartbeat_tick c iso' broken failed = (Returns tt, failed).
Proof.
  intros Hst Hlive. unfold SseServer.heartbeat_tick, bind, gets. rewrite Hst.
  destruct (decide (heartbeat_of st ∈ intervals w)) as [_|Hnot]; [|contradiction].
  split.
  - unfold try_catch. rewrite write_event_deliver. reflexivity.
  - intros e. split; [reflexivity|]. split; [reflexivity|].
    split; [reflexivity|]. intros iso' broken.
    unfold set_intervals. cbn [streams intervals]. rewrite Hst.
    match goal with
    | |- context [decide ?P] => destruct (decide P) as [Hin|_]
    end; [cbn [intervals] in Hin; set_solver|reflexivity].
Qed.

End Lifecycle.

(** ** What every run keeps *)

Section Runs.
Context `{Platform}.

(** What [post_message] can do to the world, whoever it is addressed
    to. *)
Lemma post_message_world (q h : option string) (message : object) (w : World) :
  exists c chunks w1,
    snd (SseServer.post_message q h message w) = set_streams (deliver c chunks) w1
    /\ at_most_one_fetch w w1.
Proof.
  destruct (post_message_route q h message w) as [Hsame|[ses Haddr]].
  - exists 0, [], w. rewrite set_streams_deliver_nothing.
    split; [exact Hsame|apply at_most_one_fetch_refl].
  - destruct (post_message_case q h message w ses Haddr)
      as (r & chunks & w1 & Hrun & Hcase).
    exists (res ses), chunks, w1. rewrite Hrun. split; [reflexivity|].
    now destruct (sse_case_summary _ _ _ _ _ Hcase) as (Hfetch & _).
Qed.

Lemma heartbeat_tick_world (c : nat) (iso : string) (broken : option error) (w : World) :
  (exists chunks, snd (SseServer.heartbeat_tick c iso broken w)
                  = set_streams (deliver c chunks) w)
  \/ (exists h, snd (SseServer.heartbeat_tick c iso broken w)
                = set_intervals (fun live => live ∖ {[h]}) w).
Proof.
  unfold SseServer.heartbeat_tick, bind, gets.
  destruct (streams w !! c) as [st|];
    [|left; exists []; now rewrite set_streams_deliver_nothing].
  destruct (decide (heartbeat_of st ∈ intervals w));
    [|left; exists []; now rewrite set_streams_deliver_nothing].
  destruct broken as [failure|].
  - right. exists (heartbeat_of st). reflexivity.
  - left. exists (ping_frame iso). unfold try_catch. rewrite write_event_deliver. reflexivity.
Qed.

(** Streams keep their own index as heartbeat handle, and every
    scheduled interval is the heartbeat of an open stream. *)
Lemma timers_ok_keep (w w' : World) :
  (forall h, h ∈ intervals w' -> h ∈ intervals w) ->
  (forall c, shape <$> (streams w' !! c) = shape <$> (streams w !! c)) ->
  (forall c st, streams w !! c = Some st -> heartbeat_of st = c) /\ timers_ok w ->
  (forall c st, streams w' !! c = Some st -> heartbeat_of st = c) /\ timers_ok w'.
Proof.
  intros Hsub Hshape [Hown Hok]. split.
  - intros c st Hst. specialize (Hshape c). rewrite Hst in Hshape.
    destruct (streams w !! c) as [st0|] eqn:Hst0; [|discriminate].
    injection Hshape as _ _ Hh. rewrite Hh. now apply Hown.
  - intros h Hin. destruct (Hok h (Hsub h Hin)) as (st & Hst & Hlive & Hh).
    specialize (Hshape h). rewrite Hst in Hshape.
    destruct (streams w' !! h) as [st'|]; [|discriminate].
    injection Hshape as He _ Hh'. exists st'. repeat split; congruence.
Qed.

Lemma timers_ok_step (w : World) (ev : SseServer.event) :
  (forall c st, streams w !! c = Some st -> heartbeat_of st = c) /\ timers_ok w ->
  (forall c st, streams (SseServer.step w ev) !! c = Some st -> heartbeat_of st = c)
  /\ timers_ok (SseServer.step w ev).
Proof.
  intros [Hown Hok].
  destruct ev as [q random now iso|c iso broken|c|q h message]; unfold SseServer.step.
  - rewrite get_sse_run. destruct (header_value_ok _); [|now split]. cbn [snd]. split.
    + intros c st. cbn [streams]. rewrite lookup_app_Some.
      intros [Hst|[Hge Hst]]; [now apply Hown|].
      apply list_lookup_singleton_Some in Hst as [Hc <-]. cbn [heartbeat_of]. lia.
    + intros h. cbn [intervals streams]. rewrite elem_of_union, elem_of_singleton.
      intros [Hin| ->].
      * destruct (Hok h Hin) as (st & Hst & Hlive & Hh). exists st.
        split; [|now split]. rewrite lookup_app_l; [exact Hst|].
        eapply lookup_lt_Some; exact Hst.
      * eexists. split; [apply list_lookup_middle; reflexivity|]. now split.
  - destruct (heartbeat_tick_world c iso broken w) as [[chunks ->]|[h0 ->]].
    + apply (timers_ok_keep w); [auto| |now split].
      intros j. apply deliver_shape.
    + apply (timers_ok_keep w); [|reflexivity|now split].
      intros h. cbn. set_solver.
  - rewrite on_close_run. cbn [snd]. unfold after_close.
    destruct (streams w !! c) as [st|] eqn:Hst; [|now split]. split.
    + intros j st'. cbn [streams]. rewrite list_lookup_alter.
      destruct (decide (c = j)) as [<-|]; [|apply Hown].
      rewrite Hst. intros [= <-]. cbn. now apply Hown.
    + intros h. cbn [intervals streams]. rewrite elem_of_difference, elem_of_singleton.
      intros [Hin Hne]. destruct (Hok h Hin) as (st' & Hst' & Hlive & Hh).
      exists st'. split; [|now split]. rewrite list_lookup_alter_ne; [exact Hst'|].
      intros ->. rewrite Hst in Hst'. injection Hst' as ->.
      apply Hne. now symmetry.
  - destruct (post_message_world q h message w) as (c & chunks & w1 & -> & (Hs & Hi & Hl) & _).
    apply (timers_ok_keep w); [| |now split].
    + intros h0. cbn. now rewrite Hi.
    + intros j. cbn. rewrite Hl. apply deliver_shape.
Qed.

Lemma timers_ok_run (evs : list SseServer.event) :
  (forall c st, streams (SseServer.run evs boot) !! c = Some st -> heartbeat_of st = c)
  /\ timers_ok (SseServer.run evs boot).
Proof.
  assert (forall w,
            (forall c st, streams w !! c = Some st -> heartbeat_of st = c) /\ timers_ok w ->
            (forall c st, streams (SseServer.run evs w) !! c = Some st -> heartbeat_of st = c)
            /\ timers_ok (SseServer.run evs w)) as Hrun.
  { induction evs as [|ev evs IH]; intros w Hinv; [exact Hinv|].
    simpl. apply IH. now apply timers_ok_step. }
  apply Hrun. split.
  - intros c st Hst. discriminate Hst.
  - intros h Hin. cbn in Hin. set_solver.
Qed.

(** C8, as amended. A [close] signal never throws. A second one that
    directly follows the first leaves the world, registry and timers
    included, exactly as the first left it; [clearInterval] on a handle
    already cleared changes nothing; closing after a heartbeat write has
    failed (which cleared the timer first) ends in the same world as
    closing alone; once closed, the heartbeat no longer fires. After any
    run of the server, a [close] signal for a stream that has ended
    changes nothing exactly when the stream's identifier is not
    registered at that moment: the callback deletes by identifier
    without looking at whose entry it is, so once a later open has
    registered the identifier again, the duplicate close removes that
    entry. *)
Theorem close_twice_is_close_once (c t : nat) (w : World) (iso : string)
    (broken : option error) (e : error) :
  let closed := snd (SseServer.on_close c w) in
  let failed := snd (SseServer.heartbeat_tick c iso (Some e) w) in
  let cleared := snd (SseServer.clearInterval t w) in
  SseServer.on_close c closed = (Returns tt, closed)
  /\ SseServer.clearInterval t cleared = (Returns tt, cleared)
  /\ SseServer.on_close c failed = (Returns tt, closed)
  /\ SseServer.heartbeat_tick c iso broken closed = (Returns tt, closed)
  /\ fst (SseServer.on_close c w) = Returns tt
  /\ (forall evs st,
      let now := SseServer.run evs boot in
      streams now !! c = Some st -> ended st = true ->
      (SseServer.on_close c now = (Returns tt, now)
       <-> sessions now !! sessionId_of st = None)).
Proof.
  intros closed failed cleared. subst closed failed cleared.
  rewrite !on_close_run. cbn [fst snd].
  rewrite after_close_twice, close_after_failed_heartbeat, heartbeat_tick_after_close.
  split; [reflexivity|]. split; [|split; [reflexivity|split; [reflexivity|split]]].
  - unfold SseServer.clearInterval, modify, set_intervals. cbn. do 2 f_equal. set_solver.
  - reflexivity.
  - intros evs st Hst Hended. set (now := SseServer.run evs boot) in *.
    rewrite on_close_run. split.
    + intros Heq. injection Heq as Heq. apply (f_equal sessions) in Heq.
      unfold after_close in Heq. rewrite Hst in Heq. cbn [sessions] in Heq.
      rewrite <- Heq. apply lookup_delete_eq.
    + intros Hgone. f_equal. apply after_close_of_closed with st; try assumption.
      destruct (timers_ok_run evs) as [Hown Hok]. fold now in Hown, Hok.
      intros Hin. destruct (Hok _ Hin) as (st' & Hst' & Hlive & _).
      rewrite (Hown c st Hst) in Hst'. congruence.
Qed.

(** X22. After any sequence of opens, heartbeats, closes and injections
    from an empty server, every scheduled heartbeat belongs to a stream
    that is still open: no interval outlives its stream. *)
Theorem timers_belong_to_open_streams (evs : list SseServer.event) :
  timers_ok (SseServer.run evs boot).
Proof.
  assert (forall w,
            (forall c st, streams w !! c = Some st -> heartbeat_of st = c) /\ timers_ok w ->
            timers_ok (SseServer.run evs w)) as Hrun.
  { induction evs as [|ev evs IH]; intros w Hinv; [apply Hinv|].
    simpl. apply IH. now apply timers_ok_step. }
  apply Hrun. split.
  - intros c st Hst. discriminate Hst.
  - intros h Hin. cbn in Hin. set_solver.
Qed.

Lemma extends_refl (w : World) : extends w w.
Proof.
  split; [reflexivity|]. intros c st Hst. exists st. repeat split; auto.
Qed.

Lemma extends_trans (w1 w2 w3 : World) : extends w1 w2 -> extends w2 w3 -> extends w1 w3.
Proof.
  intros [Hf12 Hs12] [Hf23 Hs23]. split; [now transitivity (fetched w2)|].
  intros c st Hst.
  destruct (Hs12 c st Hst) as (st2 & Hst2 & Hw2 & Hi2 & Hh2 & He2).
  destruct (Hs23 c st2 Hst2) as (st3 & Hst3 & Hw3 & Hi3 & Hh3 & He3).
  exists st3. split; [exact Hst3|]. split; [now transitivity (written st2)|].
  split; [congruence|]. split; [congruence|]. auto.
Qed.

Lemma extends_deliver (c : nat) (chunks : list string) (w w1 : World) :
  at_most_one_fetch w w1 -> extends w (set_streams (deliver c chunks) w1).
Proof.
  intros [(_ & _ & Hl) Hf]. split.
  - cbn. destruct Hf as [->|[r ->]]; [reflexivity|]. now apply prefix_app_r.
  - intros j st Hst. cbn. rewrite Hl. unfold deliver. rewrite list_lookup_alter.
    destruct (decide (c = j)) as [<-|]; [|exists st; repeat split; auto].
    rewrite Hst. destruct st as [ws [] sid hb]; eexists; (split; [reflexivity|]); cbn.
    + repeat split; auto.
    + repeat split; auto. now apply prefix_app_r.
Qed.

Lemma extends_step (w : World) (ev : SseServer.event) : extends w (SseServer.step w ev).
Proof.
  destruct ev as [q random now iso|c iso broken|c|q h message]; unfold SseServer.step.
  - rewrite get_sse_run. destruct (header_value_ok _); [|apply extends_refl].
    cbn [snd]. split; [reflexivity|].
    intros c st Hst. exists st. cbn [streams].
    rewrite lookup_app_l by (eapply lookup_lt_Some; exact Hst). repeat split; auto.
  - destruct (heartbeat_tick_world c iso broken w) as [[chunks ->]|[h0 ->]].
    + apply extends_deliver, at_most_one_fetch_refl.
    + split; [reflexivity|]. intros j st Hst. exists st. repeat split; auto.
  - rewrite on_close_run. cbn [snd]. unfold after_close.
    destruct (streams w !! c) as [st|] eqn:Hst; [|apply extends_refl].
    split; [reflexivity|]. intros j st' Hst'. cbn [streams]. rewrite list_lookup_alter.
    destruct (decide (c = j)) as [<-|]; [|exists st'; repeat split; auto].
    rewrite Hst'. eexists. split; [reflexivity|]. cbn. repeat split; auto.
  - destruct (post_message_world q h message w) as (c & chunks & w1 & -> & Hfetch).
    now apply extends_deliver.
Qed.

(** X23. Whatever happens next, the server only adds to its history: the
    log of backend requests and what was written on each stream grow at
    the end and are never rewritten, no stream is dropped or renumbered,
    a stream keeps the identifier and heartbeat it was opened with, and
    an ended stream is never reopened. *)
Theorem history_only_grows (evs : list SseServer.event) (w : World) :
  extends w (SseServer.run evs w).
Proof.
  revert w. induction evs as [|ev evs IH]; intros w; [apply extends_refl|].
  simpl. eapply extends_trans; [apply extends_step|apply IH].
Qed.

End Runs.

(** ** Beyond the claims: the REST endpoint of [index.ts] *)

Section Rest.
Context `{Platform}.

Lemma is_str_true (v : value) (lit : string) : is_str v lit = true <-> v = VStr lit.
Proof.
  destruct v; simpl; try (split; [discriminate|discriminate]).
  rewrite String.eqb_eq. split; [now intros ->|now intros [= ->]].
Qed.

Lemma find_tool_some (toolName : string) (t : value) :
  List.find (fun t => is_str (member t "name") toolName) tools = Some t ->
  In toolName tool_cases.
Proof.
  intros Hfind. apply find_some in Hfind as [Hin Hname].
  apply is_str_true in Hname.
  assert (In (VStr toolName) catalog_names) as Hcat.
  { unfold catalog_names. apply in_map_iff. now exists t. }
  rewrite <- tool_cases_are_catalog_names in Hcat.
  apply in_map_iff in Hcat as (label & [= ->] & Hlabel). exact Hlabel.
Qed.

Lemma find_tool_none (toolName : string) :
  List.find (fun t => is_str (member t "name") toolName) tools = None ->
  ~ In toolName tool_cases.
Proof.
  intros Hfind Hin.
  assert (In (VStr toolName) catalog_names) as Hcat.
  { rewrite <- tool_cases_are_catalog_names. now apply in_map. }
  unfold catalog_names in Hcat. apply in_map_iff in Hcat as (t & Hname & Ht).
  pose proof (find_none _ _ Hfind t Ht) as Hno. cbv beta in Hno.
  rewrite Hname in Hno. simpl in Hno. now rewrite String.eqb_refl in Hno.
Qed.

(** X24. [POST /tools/:toolName] of [index.ts] never throws. A name that
    is not in the catalog gets 404 with the list of the six names and
    makes no backend call. A catalog name is always one the switch knows,
    so its [default:] case is never reached here: the endpoint answers
    200 with the backend's JSON itself when the run returns, and 500 with
    [{success:false, error, details}] when it throws, after at most one
    backend request. *)
Theorem rest_tool_endpoint (toolName : string) (args : value) (w : World) :
  (In toolName tool_cases <-> in_dispatch_table (VStr toolName) = true)
  /\ (~ In toolName tool_cases ->
      SseServer.post_tools toolName args w
      = (Returns (HttpResponse 404
                    (Some (VObj [("success", VBool false);
                                 ("error", VStr ("Herramienta no encontrada: " +:+ toolName));
                                 ("available", VArr (map VStr tool_cases))]))), w))
  /\ (In toolName tool_cases ->
      exists r w1,
        SseServer.post_tools toolName args w = (Returns r, w1)
        /\ at_most_one_fetch w w1
        /\ match fst (toolSwitch SseServer.API_BASE_URL (VStr toolName) args w) with
           | Returns result => r = res_json result
           | Throws e => r = HttpResponse 500 (Some (error_payload e))
           end).
Proof.
  split; [|split].
  - unfold in_dispatch_table. rewrite existsb_exists. split.
    + intros Hin. exists toolName. split; [exact Hin|]. simpl. apply String.eqb_refl.
    + intros (label & Hin & Heq). simpl in Heq. apply String.eqb_eq in Heq. now subst.
  - intros Hout. unfold SseServer.post_tools, try_catch.
    destruct (List.find _ tools) as [t|] eqn:Hfind; [|reflexivity].
    destruct Hout. now apply find_tool_some with t.
  - intros Hin. unfold SseServer.post_tools, try_catch.
    destruct (List.find _ tools) as [t|] eqn:Hfind;
      [|now destruct (find_tool_none toolName Hfind)].
    pose proof (toolSwitch_at_most_one_fetch SseServer.API_BASE_URL (VStr toolName) args w)
      as Hfetch.
    unfold bind.
    destruct (toolSwitch SseServer.API_BASE_URL (VStr toolName) args w) as [[result|e] w1];
      eexists _, w1; (split; [reflexivity|]); split; solve [exact Hfetch|reflexivity].
Qed.

End Rest.

(** ** Beyond the claims: the REST endpoint of [index-http.ts] *)

Section RestHttp.
Context `{Platform}.
Variable JSON_parse : value -> error + value.

(** X25. [POST /tools/:toolName] of [index-http.ts] never throws,
    whatever [JSON.parse] does. A name outside the catalog gets 404 and
    no backend call. For a catalog name at most one backend request is
    made; a run that threw is always answered 500; a run that returned
    is answered 200 with whatever [JSON.parse] makes of the pretty-printed
    backend JSON, or 500 with [{success:false, error, details}] if
    [JSON.parse] throws. *)
Theorem rest_tool_endpoint_http (toolName : string) (args : value) (w : World) :
  (~ In toolName tool_cases ->
   HttpServer.post_tools JSON_parse toolName args w
   = (Returns (HttpResponse 404
                 (Some (VObj [("success", VBool false);
                              ("error", VStr ("Herramienta no encontrada: " +:+ toolName));
                              ("available", VArr (map VStr tool_cases))]))), w))
  /\ (In toolName tool_cases ->
      exists r w1,
        HttpServer.post_tools JSON_parse toolName args w = (Returns r, w1)
        /\ at_most_one_fetch w w1
        /\ match fst (toolSwitch HttpServer.API_BASE_URL (VStr toolName) args w) with
           | Throws e => status r = 500%Z
           | Returns result =>
               match JSON_parse (stringify_pretty result) with
               | inr json => r = res_json json
               | inl e => r = HttpResponse 500 (Some (error_payload e))
               end
           end).
Proof.
  split.
  - intros Hout. unfold HttpServer.post_tools, try_catch.
    destruct (List.find _ tools) as [t|] eqn:Hfind; [|reflexivity].
    destruct Hout. now apply find_tool_some with t.
  - intros Hin. unfold HttpServer.post_tools, try_catch.
    destruct (List.find _ tools) as [t|] eqn:Hfind;
      [|now destruct (find_tool_none toolName Hfind)].
    pose proof (toolSwitch_at_most_one_fetch HttpServer.API_BASE_URL (VStr toolName) args w)
      as Hfetch.
    unfold bind at 1. unfold executeTool, try_catch, bind at 1.
    destruct (toolSwitch HttpServer.API_BASE_URL (VStr toolName) args w) as [[result|e] w1];
      cbn [fst snd] in *; unfold ret at 1; cbv beta iota; unfold bind;
      cbn [member prop envelope_ok envelope_error String.eqb Ascii.eqb Bool.eqb];
      match goal with
      | |- context [JSON_parse ?text] => destruct (JSON_parse text) as [failure|json]
      end;
      eexists _, w1; (split; [reflexivity|]); split; solve [exact Hfetch|reflexivity].
Qed.

End RestHttp.

(** ** The amended claims at concrete inputs *)

Lemma injection_is_acknowledged_witness :
  let message := request 1 "tools/call" (call_params "listar_municipios" (VObj [])) in
  let towns := VArr [VStr "Santa Cruz de La Palma"; VStr "Tazacorte"] in
  exists w1,
    @SseServer.post_message sample (Some "abc") None message one_session
    = (Returns accepted,
       set_streams
         (deliver 0 (message_frame (rpc_result (VNum 1) (envelope_ok towns)))) w1)
    /\ only_fetches one_session w1.
Proof.
  intros message towns.
  assert (addressed (Some "abc") None one_session (Session 0 1700)) as Haddr
    by abc_addressed.
  assert (truthy (prop message "method") = true ->
          exists m, prop message "method" = VStr m) as Hstr
    by (intros _; exists "tools/call"; reflexivity).
  assert (prop message "method" = VStr "tools/call" ->
          nullish (prop message "params") = false) as Hparams
    by (intros _; reflexivity).
  pose proof (@injection_is_acknowledged sample message one_session (Some "abc") None
                (Session 0 1700) Haddr eq_refl Hstr Hparams) as Hack.
  cbv zeta in Hack.
  destruct Hack as (chunks & w1 & Hrun & Hfetch & _ & _ & _ & Hcall & _).
  destruct (Hcall eq_refl) as [_ Hchunks].
  exists w1. split; [|exact Hfetch]. rewrite Hrun, Hchunks. reflexivity.
Defined.

(** C8 fails as stated: once its identifier has been registered again by
    a later open, a duplicate [close] of the stream that has ended
    removes the new session's entry from the registry, while the new
    stream stays open. *)
Lemma duplicate_close_unregisters_reopened_session :
  let w := @SseServer.run sample
             [SseServer.GetSse (Some "x") "r1" 1 "t1";
              SseServer.Close 0;
              SseServer.GetSse (Some "x") "r2" 2 "t2"] boot in
  ended <$> (streams w !! 0) = Some true
  /\ sessions w !! "x" = Some (Session 1 2)
  /\ sessions (snd (SseServer.on_close 0 w)) !! "x" = None
  /\ ended <$> (streams (snd (SseServer.on_close 0 w)) !! 1) = Some false.
Proof. repeat split; vm_compute; reflexivity. Qed.

Lemma close_twice_is_close_once_witness :
  let now := @SseServer.run sample
               [SseServer.GetSse (Some "abc") "r4nd0m" 1700 "t"; SseServer.Close 0] boot in
  sessions now !! "abc" = None
  /\ SseServer.on_close 0 now = (Returns tt, now).
Proof.
  intros now. split; [vm_compute; reflexivity|].
  destruct (@close_twice_is_close_once sample 0 0 boot "" None (new_Error ""))
    as (_ & _ & _ & _ & _ & Hdup).
  assert (exists st, streams now !! 0 = Some st /\ ended st = true
                     /\ sessionId_of st = "abc") as (st & Hst & Hended & Hsid).
  { eexists. split; [vm_compute; reflexivity|]. split; reflexivity. }
  apply (Hdup [SseServer.GetSse (Some "abc") "r4nd0m" 1700 "t"; SseServer.Close 0]
           st Hst Hended).
  rewrite Hsid. vm_compute. reflexivity.
Defined.

(** ** The added properties at concrete inputs *)

Lemma apiCall_fetches_once_witness :
  exists r,
    snd (@apiCall sample "https://www.la-palma24.net" "/api/barrios"
           (VObj [("municipio", VStr "El Paso")]) GET boot)
    = set_fetched (fun log => (log ++ [r])%list) boot
    /\ req_url r = "https://www.la-palma24.net/api/barrios"
    /\ req_method r = GET
    /\ req_body r = None.
Proof.
  destruct (@apiCall_fetches_once sample "https://www.la-palma24.net" "/api/barrios"
              (VObj [("municipio", VStr "El Paso")]) GET boot)
    as (r & Hw & Hurl & Hverb & Hbody & _); [reflexivity|right; reflexivity|].
  exists r. split; [exact Hw|]. split; [exact Hurl|]. split; [exact Hverb|].
  now apply Hbody.
Defined.

Lemma apiCall_succeeds_on_2xx_witness :
  fst (@apiCall sample "https://www.la-palma24.net" "/api/disponibilidad" (VObj []) POST boot)
  = Throws (new_Error "API Error: 400 Bad Request").
Proof.
  apply (proj2 (@apiCall_succeeds_on_2xx sample "https://www.la-palma24.net"
                  "/api/disponibilidad" (VObj []) POST boot
                  (ApiRequest "https://www.la-palma24.net/api/disponibilidad" [] POST
                     (Some "{}")) eq_refl)).
  lia.
Defined.

Lemma apiCall_get_query_witness :
  exists r,
    snd (@apiCall sample "https://www.la-palma24.net" "/api/propiedades"
           (VObj [("municipio", VStr "El Paso"); ("barrio", VNull); ("offset", VNum 0)])
           GET boot)
    = set_fetched (fun log => (log ++ [r])%list) boot
    /\ req_query r = [("municipio", "El Paso"); ("offset", "0")].
Proof.
  apply (proj1 (@apiCall_get_query sample "https://www.la-palma24.net" "/api/propiedades"
                  boot eq_refl)
           [("municipio", VStr "El Paso"); ("barrio", VNull); ("offset", VNum 0)]).
  - repeat constructor; set_solver.
  - reflexivity.
Defined.

Lemma property_details_request_witness :
  snd (@toolSwitch sample "https://www.la-palma24.net" (VStr "obtener_detalles_propiedad")
         (VObj [("id_casa", VStr "casa-12"); ("idioma", VNull)]) boot)
  = set_fetched (fun log =>
      (log ++ [ApiRequest "https://www.la-palma24.net/api/propiedad/casa-12" [] GET
                 None])%list)
      boot
  /\ @toolSwitch sample "https://www.la-palma24.net" (VStr "obtener_detalles_propiedad")
       VUndefined boot
     = (Throws (new_TypeError
                  "Cannot destructure property 'id_casa' of 'args' as it is undefined."),
        boot)
  /\ exists v,
       @toolSwitch sample "https://www.la-palma24.net" (VStr "obtener_detalles_propiedad")
         (VObj [("id_casa", VObj [("toString", VNum 1)])]) boot
       = (Throws (new_TypeError (sample_engine_message (NotPrimitive v))), boot).
Proof.
  destruct (@property_details_request sample "https://www.la-palma24.net" boot)
    as (Hobject & Hnullish & Hthrows & _).
  split; [|split].
  - apply (Hobject [("id_casa", VStr "casa-12"); ("idioma", VNull)]); reflexivity.
  - apply (Hnullish VUndefined). reflexivity.
  - eexists. apply (Hthrows [("id_casa", VObj [("toString", VNum 1)])]). reflexivity.
Defined.

Lemma list_tools_requests_witness :
  snd (@toolSwitch sample "https://www.la-palma24.net" (VStr "listar_barrios")
         (VObj [("municipio", VStr "Tazacorte")]) boot)
  = set_fetched (fun log =>
      (log ++ [ApiRequest "https://www.la-palma24.net/api/barrios"
                 [("municipio", "Tazacorte")] GET None])%list) boot.
Proof.
  apply (proj2 (@list_tools_requests sample "https://www.la-palma24.net"
                  (VObj [("municipio", VStr "Tazacorte")]) boot eq_refl eq_refl eq_refl)
           [("municipio", VStr "Tazacorte")] eq_refl).
  - repeat constructor; set_solver.
  - reflexivity.
Defined.

Lemma post_root_status_witness :
  (exists r w',
     @HttpServer.post_root sample (request 1 "tools/call" VUndefined) boot = (Returns r, w')
     /\ status r = 500%Z)
  /\ @HttpServer.post_root sample
       [("jsonrpc", VStr "2.0"); ("id", VNum 1); ("method", VObj [("toString", VNum 1)])]
       boot
     = (Throws (new_TypeError "Cannot convert object to primitive value"), boot).
Proof.
  split.
  - destruct (proj2 (@post_root_status sample (request 1 "tools/call" VUndefined) boot)
                eq_refl) as (r & w' & Hrun & _ & Hfail & _).
    exists r, w'. split; [exact Hrun|]. apply Hfail. split; reflexivity.
  - apply (proj1 (@post_root_status sample
                    [("jsonrpc", VStr "2.0"); ("id", VNum 1);
                     ("method", VObj [("toString", VNum 1)])] boot)).
    reflexivity.
Defined.

Lemma post_root_replies_are_well_formed_witness :
  well_formed_reply (VNum 1)
    (rpc_error (VNum 1) (-32601) "Method not found: ping").
Proof.
  apply (@post_root_replies_are_well_formed sample (request 1 "ping" VUndefined) boot boot
           (res_json (rpc_error (VNum 1) (-32601) "Method not found: ping"))
           (rpc_error (VNum 1) (-32601) "Method not found: ping"));
    [vm_compute; reflexivity|reflexivity].
Defined.

Lemma post_message_writes_one_reply_witness :
  exists r chunks w1,
    @SseServer.post_message sample (Some "abc") None
      (request 1 "tools/call" (call_params "listar_municipios" (VObj []))) one_session
    = (Returns r, set_streams (deliver 0 chunks) w1)
    /\ at_most_one_fetch one_session w1.
Proof.
  destruct (@post_message_writes_one_reply sample (Some "abc") None
              (request 1 "tools/call" (call_params "listar_municipios" (VObj [])))
              one_session (Session 0 1700))
    as (r & chunks & w1 & Hrun & Hfetch & _); [abc_addressed|].
  exists r, chunks, w1. split; [exact Hrun|exact Hfetch].
Defined.

Lemma only_tools_call_reaches_backend_witness :
  fetched (snd (@HttpServer.post_root sample (request 1 "tools/list" VUndefined) boot))
  = fetched boot
  /\ fetched (snd (@SseServer.post_message sample (Some "abc") None
                     (request 1 "tools/list" VUndefined) one_session))
     = fetched one_session.
Proof.
  destruct (@only_tools_call_reaches_backend sample (Some "abc") None
              (request 1 "tools/list" VUndefined) boot) as (_ & _ & Hhttp).
  destruct (@only_tools_call_reaches_backend sample (Some "abc") None
              (request 1 "tools/list" VUndefined) one_session) as (_ & _ & Hsse).
  split.
  - apply Hhttp. discriminate.
  - apply Hsse. discriminate.
Defined.

Lemma initialize_handshake_witness :
  let message := request 0 "initialize" (VObj []) in
  let reply := rpc_result (VNum 0) (@initialize_result sample) in
  @HttpServer.post_root sample message boot = (Returns (res_json reply), boot)
  /\ @SseServer.post_message sample (Some "abc") None message one_session
     = (Returns accepted, set_streams (deliver 0 (message_frame reply)) one_session).
Proof.
  intros message reply.
  destruct (@initialize_handshake sample message boot None None (Session 0 1700)
              eq_refl eq_refl) as (_ & _ & _ & Hhttp & _).
  destruct (@initialize_handshake sample message one_session (Some "abc") None
              (Session 0 1700) eq_refl eq_refl) as (_ & _ & _ & _ & Hsse).
  split; [exact Hhttp|]. apply Hsse. abc_addressed.
Defined.

Lemma http_method_not_found_reply_witness :
  @HttpServer.post_root sample [("jsonrpc", VStr "2.0"); ("id", VNum 5)] boot
  = (Returns (res_json (rpc_error (VNum 5) (-32601) "Method not found: undefined")), boot).
Proof.
  apply (@http_method_not_found_reply sample [("jsonrpc", VStr "2.0"); ("id", VNum 5)] boot);
    [reflexivity|left; reflexivity].
Defined.

Lemma sse_method_not_found_reply_witness :
  @SseServer.post_message sample (Some "abc") None (request 6 "ping" VUndefined) one_session
  = (Returns accepted,
     set_streams (deliver 0 (message_frame
                               (rpc_error (VNum 6) (-32601) "Method not found: ping")))
       one_session).
Proof.
  apply (@sse_method_not_found_reply sample (request 6 "ping" VUndefined) "ping" one_session
           (Some "abc") None (Session 0 1700));
    [reflexivity|reflexivity|discriminate|reflexivity|discriminate|abc_addressed].
Defined.

Lemma capability_stubs_differ_witness :
  let message := request 7 "prompts/list" VUndefined in
  @HttpServer.post_root sample message boot
  = (Returns (res_json (rpc_result (VNum 7) (VObj [("prompts", VArr [])]))), boot)
  /\ @SseServer.post_message sample (Some "abc") None message one_session
     = (Returns accepted,
        set_streams (deliver 0 (message_frame
                                  (rpc_error (VNum 7) (-32601)
                                     "Method not found: prompts/list"))) one_session).
Proof.
  intros message.
  destruct (@capability_stubs_differ sample message "prompts/list" boot None None
              (Session 0 1700)) as [Hhttp _];
    [reflexivity|reflexivity|discriminate|left; reflexivity|].
  destruct (@capability_stubs_differ sample message "prompts/list" one_session
              (Some "abc") None (Session 0 1700)) as [_ Hsse];
    [reflexivity|reflexivity|discriminate|left; reflexivity|].
  split; [exact Hhttp|]. apply Hsse. abc_addressed.
Defined.

Lemma tools_call_success_envelope_witness :
  let message := request 8 "tools/call" (call_params "listar_municipios" (VObj [])) in
  exists reply w1,
    @HttpServer.post_root sample message boot = (Returns (res_json reply), w1)
    /\ member (member reply "result") "isError" = VUndefined.
Proof.
  intros message.
  destruct (@tools_call_success_envelope sample message boot
              (set_fetched (fun log =>
                 (log ++ [ApiRequest "https://admin.la-palma24.net/api/municipios" [] GET
                            None])%list) boot)
              (VArr [VStr "Santa Cruz de La Palma"; VStr "Tazacorte"])
              None None (Session 0 1700) eq_refl eq_refl eq_refl) as [Hhttp _].
  eexists _, _. split; [apply Hhttp; vm_compute; reflexivity|reflexivity].
Defined.

Lemma open_registers_session_witness :
  let w' := snd (@SseServer.get_sse sample (Some "abc") "r4nd0m" 1700 "t" boot) in
  sessions w' !! "abc" = Some (Session 0 1700)
  /\ chosen_sessionId (Some "abc") "r4nd0m" = "abc".
Proof.
  intros w'.
  destruct (@open_registers_session sample (Some "abc") "r4nd0m" 1700 "t" boot)
    as (Hclient & _ & Hvalid & _).
  destruct (Hvalid eq_refl) as (_ & Hget & _).
  split; [exact Hget|]. apply Hclient; [reflexivity|discriminate].
Defined.

Lemma session_lifecycle_witness :
  exists answered,
    @SseServer.post_message sample (Some "abc") None
      [("jsonrpc", VStr "2.0"); ("id", VNum 1); ("method", VStr "tools/list")] one_session
    = (Returns accepted, answered)
    /\ sessions (snd (SseServer.on_close 0 answered)) !! "abc" = None.
Proof.
  destruct (@session_lifecycle sample (Some "abc") "r4nd0m" 1700
              "2024-01-01T00:00:00.000Z" (VNum 1) boot)
    as (answered & Hrun & _ & Hgone & _); [discriminate|reflexivity|].
  exists answered. split; [exact Hrun|exact Hgone].
Defined.

Lemma close_unregisters_by_identifier_witness :
  let w := @SseServer.run sample
             [SseServer.GetSse (Some "x") "r1" 1 "t1";
              SseServer.GetSse (Some "x") "r2" 2 "t2"] boot in
  sessions w !! "x" = Some (Session 1 2)
  /\ sessions (snd (SseServer.on_close 0 w)) !! "x" = None
  /\ ended <$> (streams (snd (SseServer.on_close 0 w)) !! 1) = Some false.
Proof.
  intros w.
  assert (exists st, streams w !! 0 = Some st /\ sessionId_of st = "x") as (st & Hst & Hsid).
  { eexists. split; [vm_compute; reflexivity|reflexivity]. }
  assert (sessions w !! sessionId_of st = Some (Session 1 2)) as Hses.
  { rewrite Hsid. vm_compute. reflexivity. }
  destruct (close_unregisters_by_identifier 0 st (Session 1 2) w Hst Hses) as [Hgone Hkept];
    [discriminate|].
  split; [vm_compute; reflexivity|]. split.
  - rewrite <- Hsid. exact Hgone.
  - cbn [res] in Hkept. rewrite Hkept. vm_compute. reflexivity.
Defined.

Lemma heartbeat_tick_effect_witness :
  SseServer.heartbeat_tick 0 "t" None one_session
  = (Returns tt, set_streams (deliver 0 (ping_frame "t")) one_session).
Proof.
  assert (exists st, streams one_session !! 0 = Some st
                     /\ heartbeat_of st ∈ intervals one_session) as (st & Hst & Hlive).
  { eexists. split; [vm_compute; reflexivity|].
    apply (bool_decide_unpack _). vm_compute. exact I. }
  exact (proj1 (heartbeat_tick_effect 0 st "t" one_session Hst Hlive)).
Defined.

Lemma rest_tool_endpoint_witness :
  fst (@SseServer.post_tools sample "listar_municipios" (VObj []) boot)
  = Returns (res_json (VArr [VStr "Santa Cruz de La Palma"; VStr "Tazacorte"]))
  /\ fst (@SseServer.post_tools sample "nope" (VObj []) boot)
     = Returns (HttpResponse 404
                  (Some (VObj [("success", VBool false);
                               ("error", VStr "Herramienta no encontrada: nope");
                               ("available", VArr (map VStr tool_cases))]))).
Proof.
  destruct (@rest_tool_endpoint sample "listar_municipios" (VObj []) boot)
    as (_ & _ & Hknown).
  destruct (@rest_tool_endpoint sample "nope" (VObj []) boot) as (_ & Hunknown & _).
  split.
  - destruct Hknown as (r & w1 & Hrun & _ & Hr); [simpl; tauto|].
    vm_compute in Hr. subst r. now rewrite Hrun.
  - rewrite Hunknown; [reflexivity|]. simpl. intuition discriminate.
Defined.

Lemma rest_tool_endpoint_http_witness :
  exists r,
    fst (@HttpServer.post_tools sample (fun _ => inl (new_Error "Unexpected token"))
           "buscar_disponibilidad" (VObj []) boot) = Returns r
    /\ status r = 500%Z.
Proof.
  destruct (@rest_tool_endpoint_http sample (fun _ => inl (new_Error "Unexpected token"))
              "buscar_disponibilidad" (VObj []) boot) as [_ Hknown].
  destruct Hknown as (r & w1 & Hrun & _ & Hr); [simpl; tauto|].
  exists r. rewrite Hrun. split; [reflexivity|]. exact Hr.
Defined.
